(** * PyFVCOM, [fvcom-py/read_FVCOM_results.py]

    A shallow embedding of the two functions of the module, [readFVCOM] and
    [getSurfaceElevation], together with the parts of the Python 2 run time,
    of NumPy and of netCDF4 they call, and the properties its specification
    states about them.

    What is modelled of the libraries:
    - an array is its shape and its cells; [np.empty] hands out cells that
      nobody has written, whatever they hold;
    - an open file is the list of its dimensions and the list of its
      variables, in the order the library iterates them; a variable is
      indexed orthogonally, an integer dropping its axis;
    - the values of [clipDims] are byte strings; [str] of the list of them
      is Python 2's [repr] of each between brackets;
    - [eval] is modelled on the indexing expressions that [readFVCOM]
      builds when every clip text is an integer, a slice or a list of
      integers and the name of the variable holds no quote.  Python's [eval]
      accepts any expression, with the five locals of [readFVCOM] and the
      builtins in scope; the evaluator here answers [EvalError] outside the
      fragment, so the properties of calls that evaluate a text are stated
      for clip texts inside it ([readable], [ranges_or_lists],
      [slices_only], [used_readable]), and [names_ok] keeps the requested
      names inside it;
    - an integer of the index list is taken from the range of a machine
      word where the kind of the exception matters;
    - [print] appends to the text written so far, with Python 2's soft
      space.

    Layout: the Python values and exceptions, the NumPy fragment and
    [getSurfaceElevation], the netCDF4 fragment, the text functions, the
    evaluator, standard output, [readFVCOM], the notions the properties are
    stated with; then examples of the embedding at work, the properties the
    specification states, and further properties of the two functions:
    when they return and how they fail, what a call prints, what a request
    and a clip specification do and do not depend on. *)

From Stdlib Require Import ZArith String Ascii List Decimal DecimalString
  DecimalNat DecimalN DecimalPos PrimFloat Permutation Lia.
From stdpp Require Import base option gmap strings list sets.

Local Open Scope string_scope.
Local Open Scope list_scope.

(** ** Python values, exceptions and results *)

(** The exceptions the two functions can end in.  [EvalError] is the answer
    of the evaluator on a text outside the fragment modelled below: Python
    raises on most of them (a [SyntaxError], a [NameError]) and evaluates
    the others as the expressions they are, which is not modelled. *)
Inductive exn : Type :=
  | ImportError (msg : string)
  | IOError
  | KeyError (key : string)
  | IndexError
  | ValueError
  | EvalError.

Inductive result (A : Type) : Type :=
  | Ok (a : A)
  | Raise (e : exn).
Arguments Ok {A} a.
Arguments Raise {A} e.

(** Sequencing: an exception ends the computation. *)
#[export] Instance result_bind : MBind result := fun A B k r =>
  match r with
  | Ok a => k a
  | Raise e => Raise e
  end.
#[export] Instance result_ret : MRet result := fun A a => Ok a.

(** An n-dimensional array: its shape and its cells, read by position.  Only
    the cells inside the shape belong to the array. *)
Record ndarray (A : Type) : Type := mk_ndarray {
  shape : list nat;
  item : list nat -> A
}.
Arguments mk_ndarray {A} shape item.
Arguments shape {A} n.
Arguments item {A} n ix.

(** ** The NumPy fragment *)

(** What the interpreter provides to [getSurfaceElevation]: whether
    [import numpy] succeeds, and the content of the memory [np.empty] hands
    out, which it does not initialise. *)
Record numpy_env : Type := {
  numpy_installed : bool;
  uninitialised : list nat -> float
}.

(** An entry of the index list: an integer, or the missing marker [nan]. *)
Inductive pyindex : Type :=
  | PyInt (j : Z)
  | PyNaN.

(** [np.isnan(i)].  NumPy takes an integer of up to 64 bits; beyond that
    the call is a [TypeError], which is not modelled: where the kind of the
    exception matters the entries are kept to [machine_index]. *)
Definition np_isnan (i : pyindex) : bool :=
  match i with
  | PyInt _ => false
  | PyNaN => true
  end.

(** [nt, nx = np.shape(Z)]: the unpacking fails unless [Z] has two axes. *)
Definition np_shape2 {A} (Z : ndarray A) : result (nat * nat) :=
  match shape Z with
  | [nt; nx] => Ok (nt, nx)
  | _ => Raise ValueError
  end.

(** [np.empty(shp)]: a float array of the given shape over fresh memory. *)
Definition np_empty (np : numpy_env) (shp : list nat) : ndarray float :=
  mk_ndarray shp (uninitialised np).

(** An integer index along an axis of length [n]: negative ones count from
    the end, anything outside [-n, n) is an [IndexError] (for an integer
    of the machine range; beyond it the libraries raise before they compare
    with [n]). *)
Definition axis_index (n : nat) (i : Z) : result nat :=
  if bool_decide (0 <= i < Z.of_nat n)%Z then Ok (Z.to_nat i)
  else if bool_decide (- Z.of_nat n <= i < 0)%Z then Ok (Z.to_nat (i + Z.of_nat n))
  else Raise IndexError.

(** [Z[:, i]]: the column, as a function of the row. *)
Definition get_column {A} (Z : ndarray A) (nx : nat) (i : pyindex)
  : result (nat -> A) :=
  match i with
  | PyInt j => c ← axis_index nx j; Ok (fun t => item Z [t; c])
  | PyNaN => Raise IndexError
  end.

(** [out[:, cnt] = col] *)
Definition set_column {A} (out : ndarray A) (cnt : nat) (col : nat -> A)
  : ndarray A :=
  mk_ndarray (shape out)
    (fun ix =>
       match ix with
       | [t; c] => if Nat.eqb c cnt then col t else item out ix
       | _ => item out ix
       end).

(** ** [getSurfaceElevation] *)

(** The loop [for cnt, i in enumerate(idx)], from position [cnt] on. *)
Fixpoint fill_columns (Z : ndarray float) (nx : nat) (cnt : nat)
    (idx : list pyindex) (surfaceElevation : ndarray float)
  : result (ndarray float) :=
  match idx with
  | [] => Ok surfaceElevation
  | i :: idx' =>
      if negb (np_isnan i) then
        col ← get_column Z nx i;
        fill_columns Z nx (S cnt) idx' (set_column surfaceElevation cnt col)
      else fill_columns Z nx (S cnt) idx' surfaceElevation
  end.

Definition getSurfaceElevation (np : numpy_env) (Z : ndarray float)
    (idx : list pyindex) : result (ndarray float) :=
  if numpy_installed np then
    '(nt, nx) ← np_shape2 Z;
    let surfaceElevation := np_empty np [nt; length idx] in
    fill_columns Z nx 0 idx surfaceElevation
  else Raise (ImportError "NumPy not found").

(** The entries of an index list that the selector can serve against [nx]
    spatial points: the missing marker, and the integers of [-nx, nx). *)
Definition servable (nx : nat) (i : pyindex) : Prop :=
  match i with
  | PyInt j => (- Z.of_nat nx <= j < Z.of_nat nx)%Z
  | PyNaN => True
  end.

(** ** The netCDF4 fragment *)

(** An [OrderedDict] with text keys: the items in iteration order.  [d[key]]
    is the first item under the key. *)
Fixpoint od_lookup {V : Type} (key : string) (d : list (string * V)) : result V :=
  match d with
  | [] => Raise (KeyError key)
  | (k, v) :: d' => if String.eqb key k then Ok v else od_lookup key d'
  end.

(** A variable of the file: the names of its dimensions in declared order and
    its cells as the library presents them. *)
Record NcVariable (A : Type) : Type := mk_NcVariable {
  var_dimensions : list string;
  var_data : list nat -> A
}.
Arguments mk_NcVariable {A} var_dimensions var_data.
Arguments var_dimensions {A} _.
Arguments var_data {A} _ _.

(** An open file: [len] of each declared dimension and the declared
    variables, both in the order the library iterates them. *)
Record Dataset (A : Type) : Type := mk_Dataset {
  file_format : string;
  dimensions : list (string * nat);
  variables : list (string * NcVariable A)
}.
Arguments mk_Dataset {A} file_format dimensions variables.
Arguments file_format {A} _.
Arguments dimensions {A} _.
Arguments variables {A} _.

(** What the interpreter provides to [readFVCOM]: whether
    [from netCDF4 import Dataset] succeeds, and the files it can open. *)
Record netcdf_env (A : Type) : Type := mk_netcdf_env {
  netCDF4_installed : bool;
  disk : gmap string (Dataset A)
}.
Arguments mk_netcdf_env {A} netCDF4_installed disk.
Arguments netCDF4_installed {A} _.
Arguments disk {A} _.

(** [Dataset(file, 'r')] *)
Definition open_Dataset {A} (env : netcdf_env A) (file : string)
  : result (Dataset A) :=
  match disk env !! file with
  | Some rootgrp => Ok rootgrp
  | None => Raise IOError
  end.

(** One element of an indexing expression. *)
Inductive subscript : Type :=
  | SInt (i : Z)
  | SSlice (start stop step : option Z)
  | SList (l : list Z).

(** What an element selects along an axis: a single position, which drops
    the axis, or a list of positions. *)
Inductive axis_sel : Type :=
  | Fixed (i : nat)
  | Pick (l : list nat).

(** The positions [slice(start, stop, step)] selects along an axis of
    length [n]: the range of [slice.indices(n)]. *)
Definition slice_indices (n : nat) (start stop step : option Z)
  : result (list nat) :=
  let len := Z.of_nat n in
  let st := default 1%Z step in
  if bool_decide (st = 0)%Z then Raise ValueError else
  let lower := (if bool_decide (0 < st) then 0 else -1)%Z in
  let upper := (if bool_decide (0 < st) then len else len - 1)%Z in
  let clamp v :=
    (if bool_decide (v < 0) then Z.max (v + len) lower else Z.min v upper)%Z in
  let a := match start with
           | Some v => clamp v
           | None => if bool_decide (0 < st)%Z then lower else upper
           end in
  let b := match stop with
           | Some v => clamp v
           | None => if bool_decide (0 < st)%Z then upper else lower
           end in
  let count :=
    (if bool_decide (0 < st) then
       if bool_decide (a < b) then (b - a - 1) / st + 1 else 0
     else
       if bool_decide (b < a) then (a - b - 1) / (- st) + 1 else 0)%Z in
  Ok (map (fun k => Z.to_nat (a + Z.of_nat k * st)) (seq 0 (Z.to_nat count))).

Definition resolve (n : nat) (s : subscript) : result axis_sel :=
  match s with
  | SInt i => c ← axis_index n i; Ok (Fixed c)
  | SSlice start stop step => l ← slice_indices n start stop step; Ok (Pick l)
  | SList l => l' ← mapM (axis_index n) l; Ok (Pick l')
  end.

(** The extents of the axes that are kept. *)
Fixpoint picked_shape (sels : list axis_sel) : list nat :=
  match sels with
  | [] => []
  | Fixed _ :: sels' => picked_shape sels'
  | Pick l :: sels' => length l :: picked_shape sels'
  end.

(** The cell of the variable behind position [ix] of the selection. *)
Fixpoint source_index (sels : list axis_sel) (ix : list nat) : list nat :=
  match sels with
  | [] => []
  | Fixed i :: sels' => i :: source_index sels' ix
  | Pick l :: sels' => nth (hd 0 ix) l 0 :: source_index sels' (tl ix)
  end.

(** The extents of a variable, from the dimensions of its file. *)
Definition var_shape {A} (rootgrp : Dataset A) (var : NcVariable A)
  : result (list nat) :=
  mapM (fun d => od_lookup d (dimensions rootgrp)) (var_dimensions var).

(** Elements and axes are paired from the left; axes without an element are
    taken whole. *)
Fixpoint resolve_all (shp : list nat) (elems : list subscript)
  : result (list axis_sel) :=
  match shp, elems with
  | [], [] => Ok []
  | [], _ :: _ => Raise ValueError
  | n :: shp', [] =>
      sels ← resolve_all shp' []; Ok (Pick (seq 0 n) :: sels)
  | n :: shp', s :: elems' =>
      sel ← resolve n s; sels ← resolve_all shp' elems'; Ok (sel :: sels)
  end.

(** The array a selection per axis cuts out of a variable. *)
Definition selection {A} (var : NcVariable A) (sels : list axis_sel)
  : ndarray A :=
  mk_ndarray (picked_shape sels) (fun ix => var_data var (source_index sels ix)).

(** [var[elems]]: orthogonal indexing, each element applied to its own
    axis. *)
Definition nc_getitem {A} (rootgrp : Dataset A) (var : NcVariable A)
    (elems : list subscript) : result (ndarray A) :=
  shp ← var_shape rootgrp var;
  sels ← resolve_all shp elems;
  Ok (selection var sels).

(** ** Text: [str], [replace], [format] *)

(** [str(n)] for the length of a dimension: decimal, no leading zero. *)
Definition str_nat (n : nat) : string :=
  NilEmpty.string_of_uint (N.to_uint (N.of_nat n)).

Definition quote : ascii := ascii_of_nat 39.
Definition dquote : ascii := ascii_of_nat 34.
Definition backslash : ascii := ascii_of_nat 92.

Fixpoint contains (c : ascii) (s : string) : bool :=
  match s with
  | EmptyString => false
  | String c' s' => Ascii.eqb c c' || contains c s'
  end.

Definition hex_digit (n : nat) : ascii :=
  nth n ["0"; "1"; "2"; "3"; "4"; "5"; "6"; "7"; "8"; "9";
         "a"; "b"; "c"; "d"; "e"; "f"]%char "0"%char.

(** One character of a [str] inside its [repr], quoted with [q]. *)
Definition repr_char (q c : ascii) : string :=
  let n := nat_of_ascii c in
  if Ascii.eqb c q || Ascii.eqb c backslash
  then String backslash (String c EmptyString)
  else if Nat.eqb n 9 then String backslash "t"
  else if Nat.eqb n 10 then String backslash "n"
  else if Nat.eqb n 13 then String backslash "r"
  else if Nat.ltb n 32 || Nat.leb 127 n then
    String backslash
      (String "x" (String (hex_digit (n / 16)) (String (hex_digit (n mod 16)) EmptyString)))
  else String c EmptyString.

Fixpoint repr_body (q : ascii) (s : string) : string :=
  match s with
  | EmptyString => EmptyString
  | String c s' => repr_char q c +:+ repr_body q s'
  end.

(** [repr(s)] of a [str]: single quotes, unless the text has one and no
    double quote. *)
Definition py_repr (s : string) : string :=
  let q := if contains quote s && negb (contains dquote s) then dquote else quote in
  String q (repr_body q s +:+ String q EmptyString).

(** [str(l)] of a list of [str]. *)
Definition str_list (l : list string) : string :=
  "[" +:+ String.concat ", " (map py_repr l) +:+ "]".

(** [s.replace(old, new)] for a one-character [old]. *)
Fixpoint replace (old : ascii) (new : string) (s : string) : string :=
  match s with
  | EmptyString => EmptyString
  | String c s' =>
      if Ascii.eqb c old then new +:+ replace old new s'
      else String c (replace old new s')
  end.

(** The text of the indexing part: [str(toExtract).replace('\'', '')]. *)
Definition index_text (toExtract : list string) : string :=
  replace quote EmptyString (str_list toExtract).

(** ['rootgrp.variables[\'{}\']{}'.format(key, text)] *)
Definition format_getData (key text : string) : string :=
  "rootgrp.variables['" +:+ key +:+ "']" +:+ text.

(** ** [eval] of the indexing expression

    The evaluator reads the expressions [rootgrp.variables['NAME'][e, ...]]
    whose elements [e] are an integer, a slice [a:b] or [a:b:c] with
    optional integer parts, or a list of integers [[i, j, ...]]; integers
    are decimal with an optional minus sign, blanks are free between tokens.
    On any other text the evaluator answers [EvalError]: that is a model of
    Python on the texts that are no expression at all, and on no others, so
    the properties below keep the texts inside the fragment. *)

Inductive token : Type :=
  | TNum (d : uint)
  | TColon
  | TComma
  | TLBrack
  | TRBrack
  | TMinus
  | TSpace.

Definition digit_of (c : ascii) : option (uint -> uint) :=
  match c with
  | "0" => Some D0 | "1" => Some D1 | "2" => Some D2 | "3" => Some D3
  | "4" => Some D4 | "5" => Some D5 | "6" => Some D6 | "7" => Some D7
  | "8" => Some D8 | "9" => Some D9
  | _ => None
  end%char.

Definition punct (c : ascii) : option token :=
  match c with
  | ":" => Some TColon | "," => Some TComma | "[" => Some TLBrack
  | "]" => Some TRBrack | "-" => Some TMinus | " " => Some TSpace
  | _ => None
  end%char.

(** Characters to tokens; a digit joins the number that starts right after
    it. *)
Fixpoint scan (s : string) : option (list token) :=
  match s with
  | EmptyString => Some []
  | String c s' =>
      ts ← scan s';
      match digit_of c with
      | Some dg =>
          Some (match ts with
                | TNum d :: ts' => TNum (dg d) :: ts'
                | _ => TNum (dg Nil) :: ts
                end)
      | None => t ← punct c; Some (t :: ts)
      end
  end.

Definition is_space (t : token) : bool :=
  match t with TSpace => true | _ => false end.
Definition is_comma (t : token) : bool :=
  match t with TComma => true | _ => false end.
Definition is_colon (t : token) : bool :=
  match t with TColon => true | _ => false end.

Definition lex (s : string) : option (list token) :=
  ts ← scan s; Some (List.filter (fun t => negb (is_space t)) ts).

(** A decimal literal.  One with a leading zero is octal in Python 2 and is
    left out of the fragment. *)
Definition number (d : uint) : option Z :=
  if uint_beq (unorm d) d then Some (Z.of_N (N.of_uint d)) else None.

Definition signed_int (ts : list token) : option Z :=
  match ts with
  | [TNum d] => number d
  | [TMinus; TNum d] => n ← number d; Some (- n)%Z
  | _ => None
  end.

Definition opt_int (ts : list token) : option (option Z) :=
  match ts with
  | [] => Some None
  | _ => n ← signed_int ts; Some (Some n)
  end.

(** The pieces between the separators that are outside brackets;
    [inl] tells whether the walk is inside a bracket. *)
Fixpoint split_top (is_sep : token -> bool) (inl : bool) (ts : list token)
  : list (list token) :=
  match ts with
  | [] => [[]]
  | t :: ts' =>
      if is_sep t && negb inl then [] :: split_top is_sep false ts'
      else
        let inl' := match t with
                    | TLBrack => true
                    | TRBrack => false
                    | _ => inl
                    end in
        match split_top is_sep inl' ts' with
        | c :: cs => (t :: c) :: cs
        | [] => [[t]]
        end
  end.

Definition parse_elem (ts : list token) : option subscript :=
  match ts with
  | TLBrack :: ts' =>
      match rev ts' with
      | TRBrack :: body =>
          l ← mapM signed_int (split_top is_comma false (rev body));
          Some (SList l)
      | _ => None
      end
  | _ =>
      match split_top is_colon false ts with
      | [a] => i ← signed_int a; Some (SInt i)
      | [a; b] => x ← opt_int a; y ← opt_int b; Some (SSlice x y None)
      | [a; b; c] =>
          x ← opt_int a; y ← opt_int b; z ← opt_int c; Some (SSlice x y z)
      | _ => None
      end
  end.

(** The text after the name of the variable: ['][e, ...]]. *)
Definition parse_subscripts (s : string) : option (list subscript) :=
  ts ← lex s;
  match ts with
  | TRBrack :: TLBrack :: ts' =>
      match rev ts' with
      | TRBrack :: body =>
          mapM parse_elem (split_top is_comma false (rev body))
      | _ => None
      end
  | _ => None
  end.

Fixpoint strip_prefix (p s : string) : option string :=
  match p, s with
  | EmptyString, _ => Some s
  | String a p', String b s' => if Ascii.eqb a b then strip_prefix p' s' else None
  | String _ _, EmptyString => None
  end.

(** A single-quoted literal from behind its opening quote: the name and the
    text behind the closing quote.  Escapes are left out of the fragment. *)
Fixpoint read_literal (s : string) : option (string * string) :=
  match s with
  | EmptyString => None
  | String c s' =>
      if Ascii.eqb c quote then Some (EmptyString, s')
      else if Ascii.eqb c backslash || Nat.eqb (nat_of_ascii c) 10 then None
      else '(name, rest) ← read_literal s'; Some (String c name, rest)
  end.

(** [eval(getData)] with [rootgrp] in scope. *)
Definition eval_getData {A} (rootgrp : Dataset A) (getData : string)
  : result (ndarray A) :=
  match
    rest ← strip_prefix "rootgrp.variables['" getData;
    '(name, rest') ← read_literal rest;
    elems ← parse_subscripts rest';
    Some (name, elems)
  with
  | None => Raise EvalError
  | Some (name, elems) =>
      var ← od_lookup name (variables rootgrp);
      nc_getitem rootgrp var elems
  end.

(** ** Standard output and the [print] statement *)

Record stdout : Type := mk_stdout {
  written : string;
  softspace : bool
}.

(** A computation that prints and may raise. *)
Definition io (A : Type) : Type := stdout -> stdout * result A.

#[export] Instance io_ret : MRet io := fun A a out => (out, Ok a).
#[export] Instance io_bind : MBind io := fun A B k m out =>
  match m out with
  | (out', Ok a) => k a out'
  | (out', Raise e) => (out', Raise e)
  end.

Definition lift {A} (r : result A) : io A := fun out => (out, r).

(** Whether a printed text leaves the cursor at the start of a line or a
    field: it ends in a blank character other than the space. *)
Fixpoint ends_in_break (s : string) : bool :=
  match s with
  | EmptyString => false
  | String c EmptyString =>
      let n := nat_of_ascii c in Nat.leb 9 n && Nat.leb n 13
  | String _ s' => ends_in_break s'
  end.

Definition lead (out : stdout) : string :=
  if softspace out then " " else EmptyString.

Definition newline : string := String (ascii_of_nat 10) EmptyString.

(** [print s] *)
Definition print_line (s : string) : io unit := fun out =>
  (mk_stdout (written out +:+ lead out +:+ s +:+ newline) false, Ok ()).

(** [print s,] *)
Definition print_more (s : string) : io unit := fun out =>
  (mk_stdout (written out +:+ lead out +:+ s) (negb (ends_in_break s)), Ok ()).

(** [print] *)
Definition print_newline : io unit := fun out =>
  (mk_stdout (written out +:+ newline) false, Ok ()).

(** [if noisy: ...] around a statement that only prints. *)
Definition when (b : bool) (m : io unit) : io unit :=
  if b then m else mret ().

(** A [for] loop that threads the value it builds. *)
Fixpoint for_each {X S : Type} (l : list X) (body : X -> S -> io S) (s : S)
  : io S :=
  match l with
  | [] => mret s
  | x :: l' => s' ← body x s; for_each l' body s'
  end.

(** ** [readFVCOM] *)

(** [dims[d]] and [clipDims[k]] *)
Definition dict_get (d : gmap string string) (key : string) : result string :=
  match d !! key with
  | Some v => Ok v
  | None => Raise (KeyError key)
  end.

(** The first loop: every dimension of the file as the range of all its
    positions. *)
Definition full_ranges (dimensions : list (string * nat))
  : gmap string string :=
  foldl (fun dims '(key, var) => <[key := "0:" +:+ str_nat var]> dims)
        ∅ dimensions.

(** [if clipDims is not False: ...]; [None] is the default [False]. *)
Definition clip (dims : gmap string string)
    (clipDims : option (gmap string string)) : result (gmap string string) :=
  match clipDims with
  | None => Ok dims
  | Some clipDims =>
      let commonKeys : gset string := dom dims ∩ dom clipDims in
      foldl (fun acc k =>
               dims ← acc; v ← dict_get clipDims k; Ok (<[k := v]> dims))
            (Ok dims) (elements commonKeys)
  end.

(** The body of [if key in varList:] up to the assignment: the array stored
    under [key], and the list [toExtract] the diagnostics print. *)
Definition extract {A} (rootgrp : Dataset A) (dims : gmap string string)
    (key : string) : result (ndarray A * list string) :=
  var ← od_lookup key (variables rootgrp);
  let vDims := var_dimensions var in
  toExtract ← mapM (dict_get dims) vDims;
  let getData := format_getData key (index_text toExtract) in
  data ← eval_getData rootgrp getData;
  Ok (data, toExtract).

Definition readFVCOM {A} (env : netcdf_env A) (file : string)
    (varList : list string) (clipDims : option (gmap string string))
    (noisy : bool) : io (gmap string (ndarray A)) :=
  if netCDF4_installed env then
    rootgrp ← lift (open_Dataset env file);
    let dims := full_ranges (dimensions rootgrp) in
    dims ← lift (clip dims clipDims);
    when noisy (print_line ("File format: " +:+ file_format rootgrp));;
    for_each (variables rootgrp)
      (fun '(key, var) (FVCOM : gmap string (ndarray A)) =>
         when noisy (print_more ("Found " +:+ key));;
         if bool_decide (key ∈ varList) then
           '(data, toExtract) ← lift (extract rootgrp dims key);
           let FVCOM := <[key := data]> FVCOM in
           when noisy
             (if Nat.ltb (String.length (str_list toExtract)) 60 then
                print_line ("(extracted " +:+ index_text toExtract +:+ ")")
              else print_line "(extracted given nodes)");;
           mret FVCOM
         else
           when noisy print_newline;;
           mret FVCOM)
      ∅
  else lift (Raise (ImportError "Failed to load the NetCDF4 library")).

(** ** Notions the properties are stated with *)

(** The value [readFVCOM] returns, without the printing: the loop over the
    variables and the function around it. *)
Fixpoint collect {A} (rootgrp : Dataset A) (dims : gmap string string)
    (varList : list string) (vars : list (string * NcVariable A))
    (FVCOM : gmap string (ndarray A)) : result (gmap string (ndarray A)) :=
  match vars with
  | [] => Ok FVCOM
  | (key, _) :: vars' =>
      if bool_decide (key ∈ varList) then
        '(data, _) ← extract rootgrp dims key;
        collect rootgrp dims varList vars' (<[key := data]> FVCOM)
      else collect rootgrp dims varList vars' FVCOM
  end.

Definition read_value {A} (env : netcdf_env A) (file : string)
    (varList : list string) (clipDims : option (gmap string string))
  : result (gmap string (ndarray A)) :=
  if netCDF4_installed env then
    rootgrp ← open_Dataset env file;
    dims ← clip (full_ranges (dimensions rootgrp)) clipDims;
    collect rootgrp dims varList (variables rootgrp) ∅
  else Raise (ImportError "Failed to load the NetCDF4 library").

(** The ranges after the clip specification is applied: the caller's text
    for the dimensions it names, the full range for the others. *)
Definition resolved (dims : gmap string string)
    (clipDims : option (gmap string string)) : gmap string string :=
  match clipDims with
  | None => dims
  | Some clipDims => map_imap (fun k v => Some (default v (clipDims !! k))) dims
  end.

(** The extents the file declares, by name. *)
Definition extents (dimensions : list (string * nat)) : gmap string nat :=
  foldl (fun m '(key, var) => <[key := var]> m) ∅ dimensions.

(** Two files that differ in the iteration order of their dimensions and
    variables only; names are unique, as in any file. *)
Definition reordered {A} (rootgrp rootgrp' : Dataset A) : Prop :=
  dimensions rootgrp ≡ₚ dimensions rootgrp' /\
  variables rootgrp ≡ₚ variables rootgrp' /\
  NoDup (dimensions rootgrp).*1 /\ NoDup (variables rootgrp).*1.

(** A clip specification as the caller means it: a range of positions or
    an explicit list of positions; [render] is the text that stands for it
    in [clipDims]. *)
Inductive clipspec : Type :=
  | Range (lo hi : nat)
  | Indices (l : list nat).

Definition render (sp : clipspec) : string :=
  match sp with
  | Range lo hi => str_nat lo +:+ ":" +:+ str_nat hi
  | Indices l => "[" +:+ String.concat ", " (map str_nat l) +:+ "]"
  end.

(** The element of the indexing expression a specification reads as. *)
Definition spec_subscript (sp : clipspec) : subscript :=
  match sp with
  | Range lo hi => SSlice (Some (Z.of_nat lo)) (Some (Z.of_nat hi)) None
  | Indices l => SList (Z.of_nat <$> l)
  end.

(** The positions a specification selects along a dimension of extent [n]:
    a range stops at the extent, a list is taken as it is. *)
Definition spec_positions (n : nat) (sp : clipspec) : list nat :=
  match sp with
  | Range lo hi => seq (lo `min` n) (hi `min` n - lo `min` n)
  | Indices l => l
  end.

Definition num_token (n : nat) : token := TNum (N.to_uint (N.of_nat n)).

Fixpoint list_tokens (l : list nat) : list token :=
  match l with
  | [] => []
  | n :: l' =>
      match l' with
      | [] => [num_token n]
      | _ :: _ => num_token n :: TComma :: list_tokens l'
      end
  end.

Definition spec_tokens (sp : clipspec) : list token :=
  match sp with
  | Range lo hi => [num_token lo; TColon; num_token hi]
  | Indices l => TLBrack :: list_tokens l ++ [TRBrack]
  end.

(** Printable characters that [repr] leaves alone, and the texts made of
    them. *)
Definition plain_char (c : ascii) : bool :=
  let n := nat_of_ascii c in
  negb (Ascii.eqb c quote) && negb (Ascii.eqb c dquote)
  && negb (Ascii.eqb c backslash) && Nat.leb 32 n && Nat.ltb n 127.

Fixpoint plain (s : string) : bool :=
  match s with
  | EmptyString => true
  | String c s' => plain_char c && plain s'
  end.

(** The names the evaluator can read back from between the quotes: no
    quote, no backslash, no line break. *)
Fixpoint name_ok (s : string) : bool :=
  match s with
  | EmptyString => true
  | String c s' =>
      negb (Ascii.eqb c quote)
      && negb (Ascii.eqb c backslash || Nat.eqb (nat_of_ascii c) 10)
      && name_ok s'
  end.

(** A list of positions has to name one position at least. *)
Definition spec_ok (sp : clipspec) : bool :=
  match sp with
  | Indices [] => false
  | _ => true
  end.

(** A list of positions has to stay inside the extent; a range is cut to
    it. *)
Definition in_extent (n : nat) (sp : clipspec) : bool :=
  match sp with
  | Range _ _ => true
  | Indices l => forallb (fun i => Nat.ltb i n) l
  end.




(** The element a clip text reads as when it stands alone. *)
Definition read_elem (text : string) : option subscript :=
  ts ← lex text; parse_elem ts.

(** Tokens of numbers, and the tokens a slice and the inside of a list are
    made of. *)
Definition numeric (t : token) : bool :=
  match t with TNum _ | TMinus => true | _ => false end.
Definition slice_token (t : token) : bool := numeric t || is_colon t.
Definition list_token (t : token) : bool := numeric t || is_comma t.

(** The tokens of the elements of an indexing expression, with the commas
    between them. *)
Fixpoint join_tokens (tss : list (list token)) : list token :=
  match tss with
  | [] => []
  | ts :: tss' =>
      match tss' with
      | [] => ts
      | _ :: _ => ts ++ TComma :: join_tokens tss'
      end
  end.

(** [ts] joins the first of the pieces. *)
Definition cons_head (ts : list token) (pieces : list (list token))
  : list (list token) :=
  match pieces with
  | c :: cs => (ts ++ c) :: cs
  | [] => [ts]
  end.

Definition is_int (e : subscript) : bool :=
  match e with SInt _ => true | _ => false end.

(** Every text of the clip specification reads as a range or as a list of
    positions. *)
Definition ranges_or_lists (clipDims : option (gmap string string)) : Prop :=
  forall u k t,
    clipDims = Some u -> u !! k = Some t ->
    exists e, read_elem t = Some e /\ is_int e = false.

(** Along the dimension [d], the text in [dims] takes the positions [l]:
    it reads as an element, and against the declared extent of [d] that
    element selects [l]. *)
Definition takes {A} (rootgrp : Dataset A) (dims : gmap string string)
    (d : string) (l : list nat) : Prop :=
  exists n t e,
    od_lookup d (dimensions rootgrp) = Ok n /\ dims !! d = Some t /\
    read_elem t = Some e /\ resolve n e = Ok (Pick l).

(** Every requested variable of the file has a readable name and a
    dimension, and the resolved text of each of its dimensions takes
    positions. *)
Definition all_served {A} (rootgrp : Dataset A) (varList : list string)
    (clipDims : option (gmap string string)) : Prop :=
  forall key var,
    od_lookup key (variables rootgrp) = Ok var -> key ∈ varList ->
    name_ok key = true /\ var_dimensions var <> [] /\
    Forall (fun d => exists l,
              takes rootgrp
                (resolved (full_ranges (dimensions rootgrp)) clipDims) d l)
           (var_dimensions var).

(** The body of the loop over the variables of the file. *)
Definition variable_step {A} (rootgrp : Dataset A) (dims : gmap string string)
    (varList : list string) (noisy : bool)
  : string * NcVariable A -> gmap string (ndarray A)
    -> io (gmap string (ndarray A)) :=
  fun '(key, var) (FVCOM : gmap string (ndarray A)) =>
    when noisy (print_more ("Found " +:+ key));;
    if bool_decide (key ∈ varList) then
      '(data, toExtract) ← lift (extract rootgrp dims key);
      let FVCOM := <[key := data]> FVCOM in
      when noisy
        (if Nat.ltb (String.length (str_list toExtract)) 60 then
           print_line ("(extracted " +:+ index_text toExtract +:+ ")")
         else print_line "(extracted given nodes)");;
      mret FVCOM
    else
      when noisy print_newline;;
      mret FVCOM.

(** The texts [toExtract] holds for a variable: the resolved text of each of
    its dimensions, in declared order. *)
Definition texts_of {A} (rootgrp : Dataset A) (dims : gmap string string)
    (key : string) : list string :=
  match od_lookup key (variables rootgrp) with
  | Ok var => omap (fun d => dims !! d) (var_dimensions var)
  | Raise _ => []
  end.

(** What a noisy call prints behind the name of a variable it extracted. *)
Definition extracted_note (toExtract : list string) : string :=
  if Nat.ltb (String.length (str_list toExtract)) 60 then
    "(extracted [" +:+ String.concat ", " toExtract +:+ "])"
  else "(extracted given nodes)".

(** The line of a variable in the output of a noisy call that returns. *)
Definition report_line {A} (rootgrp : Dataset A) (dims : gmap string string)
    (varList : list string) (key : string) : string :=
  "Found " +:+ key +:+
  (if bool_decide (key ∈ varList) then
     " " +:+ extracted_note (texts_of rootgrp dims key)
   else EmptyString) +:+ newline.

(** The lines of the variables, one behind the other. *)
Fixpoint report_lines {A} (rootgrp : Dataset A) (dims : gmap string string)
    (varList : list string) (keys : list string) : string :=
  match keys with
  | [] => EmptyString
  | key :: keys' =>
      report_line rootgrp dims varList key
      +:+ report_lines rootgrp dims varList keys'
  end.

(** Every text of the clip specification reads as an element: an integer, a
    slice or a list of integers. *)
Definition readable (clipDims : option (gmap string string)) : Prop :=
  forall u k t,
    clipDims = Some u -> u !! k = Some t -> exists e, read_elem t = Some e.

(** Every text of the clip specification reads as a slice whose step is not
    zero. *)
Definition slices_only (clipDims : option (gmap string string)) : Prop :=
  forall u k t,
    clipDims = Some u -> u !! k = Some t ->
    exists start stop step,
      read_elem t = Some (SSlice start stop step) /\ step <> Some 0%Z.

(** Along the dimension [d], the text in [dims] selects [sel]: it reads as
    an element, and against the declared extent of [d] that element
    resolves to [sel]. *)
Definition axis_taken {A} (rootgrp : Dataset A) (dims : gmap string string)
    (d : string) (sel : axis_sel) : Prop :=
  exists n t e,
    od_lookup d (dimensions rootgrp) = Ok n /\ dims !! d = Some t /\
    read_elem t = Some e /\ resolve n e = Ok sel.


(** Every requested variable of the file has a readable name and a
    dimension, and the resolved text of each of its dimensions selects along
    its axis. *)
Definition all_taken {A} (rootgrp : Dataset A) (varList : list string)
    (clipDims : option (gmap string string)) : Prop :=
  forall key var,
    od_lookup key (variables rootgrp) = Ok var -> key ∈ varList ->
    name_ok key = true /\ var_dimensions var <> [] /\
    Forall (fun d => exists sel,
              axis_taken rootgrp
                (resolved (full_ranges (dimensions rootgrp)) clipDims) d sel)
           (var_dimensions var).

(** An element fits an axis of length [n]: the integers it names lie in
    [-n, n), and a slice has a step other than zero. *)
Definition fits (n : nat) (e : subscript) : Prop :=
  match e with
  | SInt i => (- Z.of_nat n <= i < Z.of_nat n)%Z
  | SSlice _ _ step => step <> Some 0%Z
  | SList l => Forall (fun i => (- Z.of_nat n <= i < Z.of_nat n)%Z) l
  end.

(** The requested names that the file declares hold no quote, no backslash
    and no line break: between the quotes of the expression each of them is
    the name of its variable and nothing else. *)
Definition names_ok {A} (rootgrp : Dataset A) (varList : list string) : Prop :=
  forall key,
    key ∈ varList -> key ∈ (variables rootgrp).*1 -> name_ok key = true.

(** The clip texts a call evaluates read as elements: the texts given for
    the dimensions of the requested variables of the file. *)
Definition used_readable {A} (rootgrp : Dataset A) (varList : list string)
    (clipDims : option (gmap string string)) : Prop :=
  forall key var d t,
    key ∈ varList -> od_lookup key (variables rootgrp) = Ok var ->
    d ∈ var_dimensions var -> clipDims ≫= (fun u => u !! d) = Some t ->
    exists e, read_elem t = Some e.

(** The cell of the variable that stands at [ix] in an array cut out of it
    with the positions [poss], one list per axis: along each axis, the
    position listed at the coordinate of [ix]. *)
Definition positions_at (poss : list (list nat)) (ix : list nat) : list nat :=
  zip_with (fun l i => nth i l 0) poss ix.

(** An entry of the index list that NumPy takes as a signed 64-bit
    integer, or the missing marker. *)
Definition machine_index (i : pyindex) : Prop :=
  match i with
  | PyInt j => (- 2 ^ 63 <= j < 2 ^ 63)%Z
  | PyNaN => True
  end.

(** The selector scenario of the specification: a (50, 1000) elevation
    array and the index list [[5, nan, 12]], run where the fresh memory
    happens to hold zeros. *)
Definition zeros_np : numpy_env :=
  {| numpy_installed := true; uninitialised := fun _ => 0%float |}.

Definition elevations : ndarray float :=
  mk_ndarray [50; 1000]
    (fun ix =>
       match ix with
       | [t; x] => if Nat.eqb x 5 then 1.5%float
                   else if Nat.eqb x 12 then 2.5%float else 0.25%float
       | _ => 0%float
       end).

Definition stations : list pyindex := [PyInt 5; PyNaN; PyInt 12].

(** The extractor scenario of the specification: a file that declares
    time = 500 and node = 1000 and the variable zeta over (time, node). *)
Definition zeta : NcVariable float :=
  mk_NcVariable ["time"; "node"]
    (fun ix =>
       match ix with
       | [t; x] => if Nat.eqb t x then 1.5%float else 0.25%float
       | _ => 0%float
       end).

Definition tide_file : Dataset float :=
  mk_Dataset "NETCDF3_64BIT" [("time", 500); ("node", 1000)] [("zeta", zeta)].

Definition tide_env : netcdf_env float :=
  mk_netcdf_env true {[ "tide.nc" := tide_file ]}.

Definition bare_env : netcdf_env float := mk_netcdf_env false ∅.
Definition bare_np : numpy_env :=
  {| numpy_installed := false; uninitialised := fun _ => 0%float |}.

Definition blank : stdout := mk_stdout EmptyString false.

(** A second file, with a variable over one dimension, a variable without
    dimensions and a dimension no variable uses, and the same file with its
    dimensions and variables iterated in another order. *)
Definition depth : NcVariable float :=
  mk_NcVariable ["node"]
    (fun ix => match ix with [x] => if Nat.eqb x 7 then 2.5%float else 0.25%float
                        | _ => 0%float end).

Definition nprocs : NcVariable float :=
  mk_NcVariable [] (fun _ => 4%float).

Definition coast_file : Dataset float :=
  mk_Dataset "NETCDF3_64BIT"
    [("time", 500); ("node", 1000); ("siglay", 10)]
    [("nprocs", nprocs); ("zeta", zeta); ("h", depth)].

Definition coast_file' : Dataset float :=
  mk_Dataset "NETCDF3_64BIT"
    [("node", 1000); ("siglay", 10); ("time", 500)]
    [("h", depth); ("nprocs", nprocs); ("zeta", zeta)].

Definition coast_env : netcdf_env float :=
  mk_netcdf_env true {[ "coast.nc" := coast_file ]}.
Definition coast_env' : netcdf_env float :=
  mk_netcdf_env true {[ "coast.nc" := coast_file' ]}.

(** ** The embedding at work *)

Example getData_of_scenario :
  format_getData "zeta" (index_text ["0:100"; "0:1000"])
  = "rootgrp.variables['zeta'][0:100, 0:1000]".
Proof. reflexivity. Qed.

Example repr_picks_the_quotes :
  py_repr "0:100" = "'0:100'" /\
  py_repr "it's" = String dquote ("it's" +:+ String dquote EmptyString).
Proof. split; reflexivity. Qed.

Example subscripts_read :
  parse_subscripts "][10:100:2, [0, 400, -1], 7, :]"
  = Some [SSlice (Some 10%Z) (Some 100%Z) (Some 2%Z);
          SList [0%Z; 400%Z; (-1)%Z]; SInt 7;
          SSlice None None None].
Proof. reflexivity. Qed.

Example octal_is_left_out : parse_subscripts "][010:20]" = None.
Proof. reflexivity. Qed.

Example slices_as_in_python :
  slice_indices 10 (Some (-3)%Z) None None = Ok [7; 8; 9] /\
  slice_indices 10 None None (Some (-4)%Z) = Ok [9; 5; 1] /\
  slice_indices 10 (Some 2%Z) (Some 50%Z) (Some 3%Z) = Ok [2; 5; 8] /\
  slice_indices 10 (Some 5%Z) (Some 2%Z) None = Ok [].
Proof. repeat split; reflexivity. Qed.

(** What a noisy call prints in the scenario of the specification. *)
Example scenario_printed :
  written
    (readFVCOM tide_env "tide.nc" ["zeta"] (Some {[ "time" := "0:100" ]})
       true blank).1
  = "File format: NETCDF3_64BIT" +:+ newline +:+
    "Found zeta (extracted [0:100, 0:1000])" +:+ newline.
Proof. vm_compute. reflexivity. Qed.

(** Requesting a variable without dimensions ends in the evaluation error:
    the text [rootgrp.variables['nprocs'][]] is no expression. *)
Example scalar_variable_raises :
  (readFVCOM coast_env "coast.nc" ["nprocs"] None false blank).2
  = Raise EvalError.
Proof. vm_compute. reflexivity. Qed.

(** An index list out of the extent ends in the library's error. *)
Example index_out_of_range_raises :
  (readFVCOM coast_env "coast.nc" ["h"] (Some {[ "node" := "[0, 1000]" ]})
     false blank).2
  = Raise IndexError.
Proof. vm_compute. reflexivity. Qed.

(** ** Properties of [getSurfaceElevation] *)

Lemma axis_index_nonneg (n : nat) (j : Z) :
  (0 <= j < Z.of_nat n)%Z -> axis_index n j = Ok (Z.to_nat j).
Proof.
  intros Hj. unfold axis_index. by rewrite bool_decide_eq_true_2.
Qed.

Lemma axis_index_servable (n : nat) (j : Z) :
  (- Z.of_nat n <= j < Z.of_nat n)%Z -> exists c, axis_index n j = Ok c.
Proof.
  intros Hj. unfold axis_index.
  destruct (bool_decide (0 <= j < Z.of_nat n)%Z) eqn:E1; [eauto|].
  apply bool_decide_eq_false_1 in E1.
  rewrite bool_decide_eq_true_2 by lia. eauto.
Qed.

Lemma fill_columns_shape Z nx idx : forall cnt se out,
  fill_columns Z nx cnt idx se = Ok out -> shape out = shape se.
Proof.
  induction idx as [|i idx IH]; intros cnt se out H; simpl in H.
  - by inversion H.
  - destruct (negb (np_isnan i)).
    + destruct (get_column Z nx i) as [col|e]; simpl in H; [|done].
      by rewrite (IH _ _ _ H).
    + by apply IH in H.
Qed.

Lemma fill_columns_total Z nx idx : forall cnt se,
  Forall (servable nx) idx -> exists out, fill_columns Z nx cnt idx se = Ok out.
Proof.
  induction idx as [|i idx IH]; intros cnt se Hall; simpl; [eauto|].
  inversion Hall as [|? ? Hi Hrest]; subst.
  destruct i as [j|]; simpl; [|by apply IH].
  destruct (axis_index_servable nx j Hi) as [c ->]. simpl. by apply IH.
Qed.

(** Columns before the current position are out of the loop's reach. *)
Lemma fill_columns_before Z nx idx : forall cnt se out t c,
  fill_columns Z nx cnt idx se = Ok out -> c < cnt ->
  item out [t; c] = item se [t; c].
Proof.
  induction idx as [|i idx IH]; intros cnt se out t c H Hc; simpl in H.
  - by inversion H.
  - destruct (negb (np_isnan i)).
    + destruct (get_column Z nx i) as [col|e]; simpl in H; [|done].
      rewrite (IH _ _ _ t c H) by lia. simpl.
      destruct (Nat.eqb_spec c cnt); [lia|done].
    + apply (IH _ _ _ t c H). lia.
Qed.

(** What the loop leaves at position [cnt + k] of the output. *)
Lemma fill_columns_at Z nx idx : forall cnt se out k i t,
  fill_columns Z nx cnt idx se = Ok out -> idx !! k = Some i ->
  match i with
  | PyInt j =>
      exists c, axis_index nx j = Ok c /\ item out [t; cnt + k] = item Z [t; c]
  | PyNaN => item out [t; cnt + k] = item se [t; cnt + k]
  end.
Proof.
  induction idx as [|i0 idx IH]; intros cnt se out k i t H Hk; [done|].
  simpl in H. destruct k as [|k]; simpl in Hk.
  - inversion Hk; subst i0. rewrite Nat.add_0_r. destruct i as [j|]; simpl in H.
    + destruct (axis_index nx j) as [c|e] eqn:Ec; simpl in H; [|done].
      exists c. split; [done|].
      rewrite (fill_columns_before _ _ _ _ _ _ t cnt H) by lia. simpl.
      by rewrite Nat.eqb_refl.
    + apply (fill_columns_before _ _ _ _ _ _ t cnt H). lia.
  - replace (cnt + S k) with (S cnt + k) by lia.
    destruct (negb (np_isnan i0)).
    + destruct (get_column Z nx i0) as [col|e]; simpl in H; [|done].
      specialize (IH _ _ _ k i t H Hk). destruct i as [j|]; [exact IH|].
      rewrite IH. cbn [item set_column].
      destruct (Nat.eqb_spec (S cnt + k) cnt); [lia|done].
    + by apply (IH _ _ _ k i t H Hk).
Qed.

Lemma getSurfaceElevation_returns np Z idx nt nx :
  numpy_installed np = true -> shape Z = [nt; nx] ->
  Forall (servable nx) idx ->
  exists out, getSurfaceElevation np Z idx = Ok out.
Proof.
  intros Hnp HZ Hidx. unfold getSurfaceElevation, np_shape2.
  rewrite Hnp, HZ. simpl. by apply fill_columns_total.
Qed.

(** The shape of the input and the loop behind a returned array. *)
Lemma getSurfaceElevation_inv np Z idx nt nx out :
  shape Z = [nt; nx] -> getSurfaceElevation np Z idx = Ok out ->
  fill_columns Z nx 0 idx (np_empty np [nt; length idx]) = Ok out.
Proof.
  intros HZ H. unfold getSurfaceElevation, np_shape2 in H.
  destruct (numpy_installed np); [|done]. by rewrite HZ in H.
Qed.

(** C6: for a 2-D input of shape (time-steps, spatial-points) and an index
    list of length K, the array [getSurfaceElevation] returns has shape
    (time-steps, K), also when K = 0; and it does return one whenever every
    entry of the list is the missing marker or an index of the input. *)
Theorem getSurfaceElevation_shape np Z idx nt nx :
  shape Z = [nt; nx] ->
  (forall out, getSurfaceElevation np Z idx = Ok out ->
     shape out = [nt; length idx]) /\
  (numpy_installed np = true -> Forall (servable nx) idx ->
     exists out, getSurfaceElevation np Z idx = Ok out).
Proof.
  intros HZ. split.
  - intros out H. apply (getSurfaceElevation_inv _ _ _ _ _ _ HZ) in H.
    by apply fill_columns_shape in H.
  - intros Hnp Hidx. by eapply getSurfaceElevation_returns.
Qed.

Lemma getSurfaceElevation_shape_witness :
  exists out,
    getSurfaceElevation zeros_np elevations [] = Ok out /\
    shape out = [50; 0].
Proof.
  destruct (getSurfaceElevation_shape zeros_np elevations [] 50 1000)
    as [Hshape Hret].
  - reflexivity.
  - destruct Hret as [out Hout].
    + reflexivity.
    + constructor.
    + exists out. split; [exact Hout|]. exact (Hshape out Hout).
Defined.

(** C5: at every position of the index list that holds a valid spatial
    index [j], the output column equals column [j] of the input, cell for
    cell. *)
Theorem getSurfaceElevation_valid_column np Z idx nt nx i j :
  shape Z = [nt; nx] -> idx !! i = Some (PyInt j) ->
  (0 <= j < Z.of_nat nx)%Z ->
  (forall out, getSurfaceElevation np Z idx = Ok out ->
     forall t, t < nt -> item out [t; i] = item Z [t; Z.to_nat j]) /\
  (numpy_installed np = true -> Forall (servable nx) idx ->
     exists out, getSurfaceElevation np Z idx = Ok out).
Proof.
  intros HZ Hi Hj. split.
  - intros out H t _. apply (getSurfaceElevation_inv _ _ _ _ _ _ HZ) in H.
    destruct (fill_columns_at _ _ _ _ _ _ _ _ t H Hi) as (c & Hc & Hout).
    rewrite axis_index_nonneg in Hc by done. inversion Hc; subst c.
    exact Hout.
  - intros Hnp Hidx. by eapply getSurfaceElevation_returns.
Qed.

Lemma getSurfaceElevation_valid_column_witness :
  exists out, getSurfaceElevation zeros_np elevations stations = Ok out /\
    item out [49; 2] = item elevations [49; 12].
Proof.
  destruct (getSurfaceElevation_valid_column zeros_np elevations stations
              50 1000 2 12) as [Hcol Hret].
  - reflexivity.
  - reflexivity.
  - lia.
  - destruct Hret as [out Hout].
    + reflexivity.
    + repeat constructor; simpl; lia.
    + exists out. split; [exact Hout|]. apply (Hcol out Hout 49). lia.
Defined.

(** The claim of C1 read with its gloss, that a skipped column is
    not-a-number, fails: in the scenario of the specification the skipped
    column 1 comes back holding the zeros the fresh memory held. *)
Lemma getSurfaceElevation_missing_not_nan :
  exists out, getSurfaceElevation zeros_np elevations stations = Ok out /\
    stations !! 1 = Some PyNaN /\
    PrimFloat.is_nan (item out [0; 1]) = false.
Proof.
  eexists. split; [reflexivity|]. split; reflexivity.
Qed.

(** C1, amended: at every position of the index list that holds the missing
    marker, the output column is left as [np.empty] allocated it; each cell
    holds what the uninitialised memory held, whatever that is. *)
Theorem getSurfaceElevation_missing_column np Z idx nt nx i :
  shape Z = [nt; nx] -> idx !! i = Some PyNaN ->
  (forall out, getSurfaceElevation np Z idx = Ok out ->
     forall t, t < nt -> item out [t; i] = uninitialised np [t; i]) /\
  (numpy_installed np = true -> Forall (servable nx) idx ->
     exists out, getSurfaceElevation np Z idx = Ok out).
Proof.
  intros HZ Hi. split.
  - intros out H t _. apply (getSurfaceElevation_inv _ _ _ _ _ _ HZ) in H.
    exact (fill_columns_at _ _ _ _ _ _ _ _ t H Hi).
  - intros Hnp Hidx. by eapply getSurfaceElevation_returns.
Qed.

Lemma getSurfaceElevation_missing_column_witness :
  exists out, getSurfaceElevation zeros_np elevations stations = Ok out /\
    item out [49; 1] = 0%float.
Proof.
  destruct (getSurfaceElevation_missing_column zeros_np elevations stations
              50 1000 1) as [Hcol Hret].
  - reflexivity.
  - reflexivity.
  - destruct Hret as [out Hout].
    + reflexivity.
    + repeat constructor; simpl; lia.
    + exists out. split; [exact Hout|]. apply (Hcol out Hout 49). lia.
Defined.

(** ** Properties of [readFVCOM]: the returned value *)

Lemma bind_Ok {A B} (a : A) (k : A -> result B) : (Ok a ≫= k) = k a.
Proof. done. Qed.

Lemma bind_Raise {A B} (e : exn) (k : A -> result B) :
  (Raise e ≫= k) = Raise e.
Proof. done. Qed.

Lemma when_value (b : bool) (m : io unit) (out : stdout) :
  (forall o, (m o).2 = Ok ()) -> (when b m out).2 = Ok ().
Proof. intros Hm. destruct b; simpl; [apply Hm|done]. Qed.

(** A statement that only prints does not change what follows it. *)
Lemma when_then {B} (b : bool) (m : io unit) (k : io B) (out : stdout) :
  (forall o, (m o).2 = Ok ()) ->
  exists out', (when b m ≫= fun _ => k) out = k out'.
Proof.
  intros Hm. unfold mbind, io_bind.
  destruct (when b m out) as [o r] eqn:E.
  pose proof (when_value b m out Hm) as Hv. rewrite E in Hv. simpl in Hv.
  subst r. by exists o.
Qed.

Lemma print_line_value s o : (print_line s o).2 = Ok ().
Proof. done. Qed.
Lemma print_more_value s o : (print_more s o).2 = Ok ().
Proof. done. Qed.
Lemma print_newline_value o : (print_newline o).2 = Ok ().
Proof. done. Qed.

Section returned_value.
Context {A : Type}.
Implicit Types (rootgrp : Dataset A) (env : netcdf_env A).

Lemma for_each_value rootgrp dims varList noisy vars :
  forall (FVCOM : gmap string (ndarray A)) out,
    (for_each vars
       (fun '(key, var) (FVCOM : gmap string (ndarray A)) =>
          when noisy (print_more ("Found " +:+ key));;
          if bool_decide (key ∈ varList) then
            '(data, toExtract) ← lift (extract rootgrp dims key);
            let FVCOM := <[key := data]> FVCOM in
            when noisy
              (if Nat.ltb (String.length (str_list toExtract)) 60 then
                 print_line ("(extracted " +:+ index_text toExtract +:+ ")")
               else print_line "(extracted given nodes)");;
            mret FVCOM
          else
            when noisy print_newline;;
            mret FVCOM)
       FVCOM out).2
    = collect rootgrp dims varList vars FVCOM.
Proof.
  induction vars as [|[key var] vars IH]; intros FVCOM out; [done|].
  cbn [for_each collect].
  unfold mbind at 1. unfold io_bind at 1.
  match goal with
  | |- context [(when noisy (print_more ?s) ≫= ?k) out] =>
      destruct (when_then noisy (print_more s) (k ()) out
                  (print_more_value s)) as [o1 E1]
  end.
  cbn beta in E1. rewrite E1. clear E1.
  destruct (bool_decide (key ∈ varList)).
  - unfold mbind at 1, io_bind at 1, lift at 1.
    destruct (extract rootgrp dims key) as [[data toExtract]|e]; [|done].
    cbn iota beta zeta.
    match goal with
    | |- context [(when noisy ?m ≫= ?k) o1] =>
        destruct (when_then noisy m (k ()) o1) as [o2 E2]
    end.
    { intros o. by destruct (Nat.ltb _ 60). }
    cbn beta in E2. rewrite E2. clear E2. cbn. apply IH.
  - match goal with
    | |- context [(when noisy print_newline ≫= ?k) o1] =>
        destruct (when_then noisy print_newline (k ()) o1
                    print_newline_value) as [o2 E2]
    end.
    cbn beta in E2. rewrite E2. clear E2. cbn. apply IH.
Qed.

(** The value of a call does not depend on the verbosity flag or on what
    was printed before. *)
Lemma readFVCOM_value env file varList clipDims noisy out :
  (readFVCOM env file varList clipDims noisy out).2
  = read_value env file varList clipDims.
Proof.
  unfold readFVCOM, read_value.
  destruct (netCDF4_installed env); [|done].
  unfold mbind at 1, io_bind at 1, lift at 1.
  destruct (open_Dataset env file) as [rootgrp|e]; [|done].
  rewrite bind_Ok. cbn iota beta.
  unfold mbind at 1, io_bind at 1, lift at 1.
  destruct (clip _ clipDims) as [dims|e]; [|done].
  rewrite bind_Ok.
  cbn iota beta.
  match goal with
  | |- context [(when noisy ?m ≫= ?k) out] =>
      destruct (when_then noisy m (k ()) out) as [o1 E1]
  end.
  { intros o. done. }
  cbn beta in E1. rewrite E1. apply for_each_value.
Qed.
End returned_value.

(** ** The clip specification *)

Lemma clip_loop (clipDims : gmap string string) (l : list string) :
  forall dims : gmap string string,
    (forall k, k ∈ l -> is_Some (clipDims !! k)) ->
    exists dims' : gmap string string,
      foldl (fun acc k =>
               dims ← acc; v ← dict_get clipDims k; Ok (<[k := v]> dims))
            (Ok dims) l = Ok dims' /\
      forall i, dims' !! i = if decide (i ∈ l) then clipDims !! i else dims !! i.
Proof.
  induction l as [|k l IH]; intros dims Hl.
  - exists dims. split; [done|]. intros i. by rewrite decide_False by set_solver.
  - destruct (Hl k) as [v Hv]; [set_solver|].
    cbn [foldl]. rewrite bind_Ok. unfold dict_get at 2. rewrite Hv, bind_Ok.
    destruct (IH (<[k := v]> dims)) as (dims' & Hfold & Hlook).
    { intros k' Hk'. apply Hl. set_solver. }
    exists dims'. split; [exact Hfold|]. intros i. rewrite Hlook.
    destruct (decide (i ∈ l)) as [Hin|Hnin].
    + by rewrite decide_True by set_solver.
    + destruct (decide (i = k)) as [->|Hne].
      * rewrite decide_True by set_solver. by rewrite lookup_insert_eq.
      * rewrite decide_False by set_solver. by rewrite lookup_insert_ne.
Qed.

(** The clip step never raises, and what it leaves is [resolved]. *)
Lemma clip_resolved (dims : gmap string string) clipDims :
  clip dims clipDims = Ok (resolved dims clipDims).
Proof.
  destruct clipDims as [c|]; [|done]. unfold clip, resolved.
  destruct (clip_loop c (elements (dom dims ∩ dom c)) dims)
    as (dims' & -> & Hlook).
  { intros k Hk. apply elem_of_elements in Hk. apply elem_of_dom. set_solver. }
  f_equal. apply map_eq. intros i. rewrite Hlook, map_lookup_imap.
  destruct (dims !! i) as [v|] eqn:Hd; simpl.
  - destruct (c !! i) as [w|] eqn:Hc; simpl.
    + rewrite decide_True; [done|].
      apply elem_of_elements, elem_of_intersection.
      split; apply elem_of_dom; eauto.
    + rewrite decide_False; [done|].
      intros Hin%elem_of_elements%elem_of_intersection.
      destruct Hin as [_ Hin%elem_of_dom]. rewrite Hc in Hin. by destruct Hin.
  - rewrite decide_False; [done|].
    intros Hin%elem_of_elements%elem_of_intersection.
    destruct Hin as [Hin%elem_of_dom _]. rewrite Hd in Hin. by destruct Hin.
Qed.

(** A key of the specification that names no dimension of the file leaves
    the resolved ranges as they are without it. *)
Lemma resolved_delete (dims clipDims : gmap string string) (k : string) :
  dims !! k = None ->
  resolved dims (Some (delete k clipDims)) = resolved dims (Some clipDims).
Proof.
  intros Hk. apply map_eq. intros i. unfold resolved.
  rewrite !map_lookup_imap. destruct (dims !! i) as [v|] eqn:Hd; [|done].
  simpl. rewrite lookup_delete_ne; [done|]. intros ->. congruence.
Qed.

Lemma resolved_empty (dims : gmap string string) :
  resolved dims (Some ∅) = resolved dims None.
Proof.
  apply map_eq. intros i. unfold resolved. rewrite map_lookup_imap.
  destruct (dims !! i); [|done]. simpl. by rewrite lookup_empty.
Qed.

Lemma extents_acc (ds : list (string * nat)) : forall (m : gmap string nat),
  foldl (fun dims '(key, var) => <[key := "0:" +:+ str_nat var]> dims)
        ((fun n => "0:" +:+ str_nat n) <$> m) ds
  = (fun n => "0:" +:+ str_nat n)
      <$> foldl (fun m '(key, var) => <[key := var]> m) m ds.
Proof.
  induction ds as [|[k n] ds IH]; intros m; [done|].
  cbn [foldl]. rewrite <- IH. by rewrite fmap_insert.
Qed.

(** The first loop maps every declared dimension to its full range. *)
Lemma full_ranges_extents (ds : list (string * nat)) :
  full_ranges ds = (fun n => "0:" +:+ str_nat n) <$> extents ds.
Proof.
  unfold full_ranges, extents. rewrite <- extents_acc. by rewrite fmap_empty.
Qed.

Lemma extents_acc_lookup (ds : list (string * nat)) :
  forall (m : gmap string nat) k,
    k ∉ ds.*1 ->
    foldl (fun m '(key, var) => <[key := var]> m) m ds !! k = m !! k.
Proof.
  induction ds as [|[k' n] ds IH]; intros m k Hk; [done|].
  cbn [foldl]. rewrite IH by set_solver.
  rewrite lookup_insert_ne; [done|]. set_solver.
Qed.

Lemma extents_undeclared (ds : list (string * nat)) (k : string) :
  k ∉ ds.*1 -> extents ds !! k = None.
Proof. intros Hk. unfold extents. by rewrite extents_acc_lookup. Qed.

Lemma full_ranges_undeclared (ds : list (string * nat)) (k : string) :
  k ∉ ds.*1 -> full_ranges ds !! k = None.
Proof.
  intros Hk. rewrite full_ranges_extents, lookup_fmap.
  by rewrite extents_undeclared.
Qed.

Lemma lift_Ok_bind {A B} (a : A) (k : A -> io B) (out : stdout) :
  (lift (Ok a) ≫= k) out = k a out.
Proof. done. Qed.

(** C8: a key of the clip specification that matches no dimension declared
    in the file is ignored: the call prints and returns what it does
    without that key.  The other texts of the specification read as
    elements and the requested names hold no quote, so that no evaluated
    text looks at [clipDims]; the text under the ignored key is any text. *)
Theorem readFVCOM_unknown_clip_key {A} (env : netcdf_env A) file rootgrp
    varList (clipDims : gmap string string) (k : string) noisy out :
  disk env !! file = Some rootgrp ->
  k ∉ (dimensions rootgrp).*1 ->
  readable (Some (delete k clipDims)) -> names_ok rootgrp varList ->
  readFVCOM env file varList (Some clipDims) noisy out
  = readFVCOM env file varList (Some (delete k clipDims)) noisy out.
Proof.
  intros Hfile Hk _ _. unfold readFVCOM.
  destruct (netCDF4_installed env); [|done].
  unfold open_Dataset. rewrite Hfile, !lift_Ok_bind, !clip_resolved.
  rewrite resolved_delete; [done|]. by apply full_ranges_undeclared.
Qed.

Lemma readFVCOM_unknown_clip_key_witness :
  readFVCOM tide_env "tide.nc" ["zeta"]
    (Some {[ "time" := "0:100"; "depth" := "0:5" ]}) true blank
  = readFVCOM tide_env "tide.nc" ["zeta"]
      (Some (delete "depth" {[ "time" := "0:100"; "depth" := "0:5" ]}))
      true blank.
Proof.
  apply (readFVCOM_unknown_clip_key tide_env "tide.nc" tide_file).
  - reflexivity.
  - apply (bool_decide_unpack _). vm_compute. exact I.
  - intros u k t [= <-] [_ Hk]%lookup_delete_Some.
    apply lookup_insert_Some in Hk as [[_ <-]|[_ Hk]].
    + eexists. reflexivity.
    + apply lookup_singleton_Some in Hk as [_ <-]. eexists. reflexivity.
  - intros key ->%list_elem_of_singleton _. reflexivity.
Defined.

(** C9: without the capability it needs, a call fails at once with the
    import error and its fixed message, before anything else is done:
    [readFVCOM] without netCDF4 (nothing is opened, nothing is printed),
    [getSurfaceElevation] without NumPy. *)
Theorem missing_capability {A} (env : netcdf_env A) (np : numpy_env)
    file varList clipDims noisy out Z idx :
  (netCDF4_installed env = false ->
   readFVCOM env file varList clipDims noisy out
   = (out, Raise (ImportError "Failed to load the NetCDF4 library"))) /\
  (numpy_installed np = false ->
   getSurfaceElevation np Z idx = Raise (ImportError "NumPy not found")).
Proof.
  split.
  - intros Henv. unfold readFVCOM. by rewrite Henv.
  - intros Hnp. unfold getSurfaceElevation. by rewrite Hnp.
Qed.

Lemma missing_capability_witness :
  readFVCOM bare_env "tide.nc" ["zeta"] None true blank
  = (blank, Raise (ImportError "Failed to load the NetCDF4 library")) /\
  getSurfaceElevation bare_np elevations stations
  = Raise (ImportError "NumPy not found").
Proof.
  destruct (missing_capability bare_env bare_np "tide.nc" ["zeta"] None true
              blank elevations stations) as [Hread Hget].
  split; [apply Hread|apply Hget]; reflexivity.
Defined.

(** C10: the mapping a call returns with [noisy=True] is the one it returns
    with [noisy=False], and so is the exception when it raises; the flag
    only changes what is printed.  The texts of the clip specification read
    as elements and the requested names of the file hold no quote, so that
    no evaluated text looks at [noisy]. *)
Theorem readFVCOM_noisy_irrelevant {A} (env : netcdf_env A) file varList
    clipDims out out' :
  readable clipDims ->
  (forall rootgrp, disk env !! file = Some rootgrp -> names_ok rootgrp varList) ->
  (readFVCOM env file varList clipDims true out).2
  = (readFVCOM env file varList clipDims false out').2.
Proof. intros _ _. by rewrite !readFVCOM_value. Qed.

Lemma readFVCOM_noisy_irrelevant_witness :
  (readFVCOM tide_env "tide.nc" ["zeta"; "salinity"]
     (Some {[ "time" := "0:100" ]}) true blank).2
  = (readFVCOM tide_env "tide.nc" ["zeta"; "salinity"]
       (Some {[ "time" := "0:100" ]}) false blank).2.
Proof.
  apply (readFVCOM_noisy_irrelevant tide_env "tide.nc").
  - intros u k t [= <-] [_ <-]%lookup_singleton_Some. eexists. reflexivity.
  - intros rootgrp [= <-] key _ Hdecl.
    apply list_elem_of_singleton in Hdecl as ->. reflexivity.
Defined.

(** ** The loop over the variables *)

Section collect.
Context {A : Type}.
Implicit Types (rootgrp : Dataset A) (FVCOM : gmap string (ndarray A)).

(** What a completed loop leaves under each key. *)
Lemma collect_spec rootgrp dims varList vars : forall FVCOM m,
  collect rootgrp dims varList vars FVCOM = Ok m ->
  forall key,
    if decide (key ∈ vars.*1 /\ key ∈ varList) then
      exists data toExtract,
        extract rootgrp dims key = Ok (data, toExtract) /\
        m !! key = Some data
    else m !! key = FVCOM !! key.
Proof.
  induction vars as [|[k var] vars IH]; intros FVCOM m H key.
  - inversion H; subst. rewrite decide_False; [done|]. set_solver.
  - cbn [collect] in H. destruct (bool_decide_reflect (k ∈ varList)) as [Hk|Hk].
    + destruct (extract rootgrp dims k) as [[data te]|e] eqn:Ek; [|done].
      rewrite bind_Ok in H. specialize (IH _ _ H key).
      destruct (decide (key ∈ vars.*1 /\ key ∈ varList)) as [Hin|Hnin].
      * rewrite decide_True; [done|]. set_solver.
      * destruct (decide (key = k)) as [->|Hne].
        -- rewrite decide_True by set_solver.
           exists data, te. split; [done|]. by rewrite IH, lookup_insert_eq.
        -- rewrite decide_False by set_solver.
           by rewrite IH, lookup_insert_ne.
    + specialize (IH _ _ H key).
      destruct (decide (key ∈ vars.*1 /\ key ∈ varList)) as [Hin|Hnin].
      * rewrite decide_True; [done|]. set_solver.
      * rewrite decide_False; [done|]. set_solver.
Qed.

(** The loop completes when every requested variable of the file can be
    extracted. *)
Lemma collect_returns rootgrp dims varList vars : forall FVCOM,
  (forall key, key ∈ vars.*1 -> key ∈ varList ->
     exists r, extract rootgrp dims key = Ok r) ->
  exists m, collect rootgrp dims varList vars FVCOM = Ok m.
Proof.
  induction vars as [|[k var] vars IH]; intros FVCOM Hall; [by eexists|].
  cbn [collect]. destruct (bool_decide_reflect (k ∈ varList)) as [Hk|Hk].
  - destruct (Hall k) as [[data te] ->]; [set_solver|done|].
    rewrite bind_Ok. apply IH. intros key ? ?. apply Hall; set_solver.
  - apply IH. intros key ? ?. apply Hall; set_solver.
Qed.

Lemma collect_requested rootgrp dims varList vars FVCOM m key :
  collect rootgrp dims varList vars FVCOM = Ok m ->
  key ∈ vars.*1 -> key ∈ varList ->
  exists r, extract rootgrp dims key = Ok r.
Proof.
  intros H Hk Hv. pose proof (collect_spec _ _ _ _ _ _ H key) as Hs.
  rewrite decide_True in Hs by done. destruct Hs as (d & te & -> & _). eauto.
Qed.

(** The keys of the returned mapping. *)
Lemma collect_dom rootgrp dims varList vars m :
  collect rootgrp dims varList vars ∅ = Ok m ->
  dom m = list_to_set varList ∩ list_to_set vars.*1.
Proof.
  intros H. apply set_eq. intros key.
  rewrite elem_of_dom, elem_of_intersection, !elem_of_list_to_set.
  pose proof (collect_spec _ _ _ _ _ _ H key) as Hs.
  destruct (decide (key ∈ vars.*1 /\ key ∈ varList)) as [Hin|Hnin].
  - destruct Hs as (d & te & _ & ->). naive_solver.
  - rewrite Hs, lookup_empty. split; [by intros []|]. naive_solver.
Qed.

(** The function behind a returned value. *)
Lemma read_value_inv (env : netcdf_env A) file varList clipDims m :
  read_value env file varList clipDims = Ok m ->
  exists rootgrp,
    netCDF4_installed env = true /\ disk env !! file = Some rootgrp /\
    collect rootgrp (resolved (full_ranges (dimensions rootgrp)) clipDims)
      varList (variables rootgrp) ∅ = Ok m.
Proof.
  unfold read_value, open_Dataset. intros H.
  destruct (netCDF4_installed env); [|done].
  destruct (disk env !! file) as [rootgrp|]; [|done].
  rewrite bind_Ok, clip_resolved, bind_Ok in H. by exists rootgrp.
Qed.

Lemma read_value_collect (env : netcdf_env A) file rootgrp varList clipDims :
  netCDF4_installed env = true -> disk env !! file = Some rootgrp ->
  read_value env file varList clipDims
  = collect rootgrp (resolved (full_ranges (dimensions rootgrp)) clipDims)
      varList (variables rootgrp) ∅.
Proof.
  intros Henv Hfile. unfold read_value, open_Dataset.
  by rewrite Henv, Hfile, bind_Ok, clip_resolved, bind_Ok.
Qed.
End collect.

(** ** Ordered dictionaries *)

Lemma od_lookup_list_to_map {V} (key : string) (d : list (string * V)) :
  od_lookup key d
  = match (list_to_map d : gmap string V) !! key with
    | Some v => Ok v
    | None => Raise (KeyError key)
    end.
Proof.
  induction d as [|[k v] d IH]; [done|].
  cbn [od_lookup list_to_map foldr uncurry].
  destruct (String.eqb_spec key k) as [->|Hne].
  - by rewrite lookup_insert_eq.
  - by rewrite lookup_insert_ne.
Qed.

Lemma od_lookup_Ok_elem {V} (key : string) (d : list (string * V)) v :
  od_lookup key d = Ok v -> (key, v) ∈ d.
Proof.
  rewrite od_lookup_list_to_map.
  destruct (list_to_map d !! key) as [w|] eqn:E; [|done].
  intros [= ->]. by apply elem_of_list_to_map_2 in E.
Qed.

Lemma od_lookup_Ok_key {V} (key : string) (d : list (string * V)) v :
  od_lookup key d = Ok v -> key ∈ d.*1.
Proof.
  intros H%od_lookup_Ok_elem. apply list_elem_of_fmap. by exists (key, v).
Qed.

Lemma od_lookup_declared {V} (key : string) (d : list (string * V)) :
  key ∈ d.*1 -> exists v, od_lookup key d = Ok v.
Proof.
  intros Hk. rewrite od_lookup_list_to_map.
  destruct (list_to_map d !! key) as [w|] eqn:E; [eauto|].
  by apply not_elem_of_list_to_map in E.
Qed.

(** The iteration order of a dictionary does not change what is under a
    key. *)
Lemma od_lookup_perm {V} (key : string) (d d' : list (string * V)) :
  NoDup d.*1 -> d ≡ₚ d' -> od_lookup key d = od_lookup key d'.
Proof.
  intros Hnd Hp. rewrite !od_lookup_list_to_map.
  by rewrite (list_to_map_proper d d' Hnd Hp).
Qed.

Lemma extents_list_to_map (ds : list (string * nat)) :
  NoDup ds.*1 -> extents ds = list_to_map ds.
Proof.
  unfold extents. intros Hnd.
  assert (forall m : gmap string nat,
            foldl (fun m '(key, var) => <[key := var]> m) m ds
            = list_to_map ds ∪ m) as Hacc.
  { induction ds as [|[k n] ds IH]; intros m.
    - cbn. by rewrite (left_id_L ∅ (∪)).
    - inversion Hnd as [|? ? Hk Hnd']; subst. cbn [foldl list_to_map foldr uncurry].
      rewrite (IH Hnd'). cbn [fst snd]. rewrite <- insert_union_l.
      symmetry. apply insert_union_r. by apply not_elem_of_list_to_map_1. }
  by rewrite Hacc, (right_id_L ∅ (∪)).
Qed.

(** Under unique names, the declared extent of a dimension is what the
    first loop saw for it. *)
Lemma od_lookup_extents (ds : list (string * nat)) (d : string) :
  NoDup ds.*1 ->
  od_lookup d ds = match extents ds !! d with
                   | Some n => Ok n
                   | None => Raise (KeyError d)
                   end.
Proof.
  intros Hnd. by rewrite od_lookup_list_to_map, extents_list_to_map.
Qed.

Lemma extents_perm (ds ds' : list (string * nat)) :
  NoDup ds.*1 -> ds ≡ₚ ds' -> extents ds = extents ds'.
Proof.
  intros Hnd Hp. rewrite !extents_list_to_map; [by apply list_to_map_proper|..].
  - by rewrite <- Hp.
  - done.
Qed.

Lemma full_ranges_perm (ds ds' : list (string * nat)) :
  NoDup ds.*1 -> ds ≡ₚ ds' -> full_ranges ds = full_ranges ds'.
Proof.
  intros Hnd Hp. by rewrite !full_ranges_extents, (extents_perm ds ds').
Qed.

Lemma mapM_result_ext {X Y} (f g : X -> result Y) (l : list X) :
  (forall x, x ∈ l -> f x = g x) -> mapM f l = mapM g l.
Proof.
  induction l as [|x l IH]; intros Hfg; [done|].
  cbn [mapM]. rewrite (Hfg x) by set_solver.
  destruct (g x) as [y|e]; [|done]. rewrite !bind_Ok.
  rewrite IH; [done|]. intros x' ?. apply Hfg. set_solver.
Qed.

Lemma mapM_result_length {X Y} (f : X -> result Y) (l : list X) k :
  mapM f l = Ok k -> Forall2 (fun x y => f x = Ok y) l k.
Proof.
  revert k. induction l as [|x l IH]; intros k H.
  - inversion H. constructor.
  - cbn [mapM] in H. destruct (f x) as [y|e] eqn:Ex; [|done].
    rewrite bind_Ok in H. destruct (mapM f l) as [k'|e]; [|done].
    rewrite bind_Ok in H. inversion H; subst. constructor; [done|]. by apply IH.
Qed.

Lemma mapM_result_Ok {X Y} (f : X -> result Y) (l : list X) k :
  Forall2 (fun x y => f x = Ok y) l k -> mapM f l = Ok k.
Proof.
  induction 1 as [|x y l k Hxy _ IH]; [done|].
  cbn [mapM]. by rewrite Hxy, bind_Ok, IH, bind_Ok.
Qed.

Section permuted.
Context {A : Type}.
Implicit Types (rootgrp : Dataset A).

Lemma nc_getitem_reordered rootgrp rootgrp' var elems :
  reordered rootgrp rootgrp' ->
  nc_getitem rootgrp var elems = nc_getitem rootgrp' var elems.
Proof.
  intros (Hd & _ & Hnd & _). unfold nc_getitem, var_shape.
  rewrite (mapM_result_ext _ (fun d => od_lookup d (dimensions rootgrp'))); [done|].
  intros d _. by apply od_lookup_perm.
Qed.

Lemma eval_getData_reordered rootgrp rootgrp' getData :
  reordered rootgrp rootgrp' ->
  eval_getData rootgrp getData = eval_getData rootgrp' getData.
Proof.
  intros Hr. unfold eval_getData.
  destruct (_ ≫= _) as [[name elems]|]; [|done].
  pose proof Hr as (Hd & Hv & Hnd & Hnv).
  rewrite (od_lookup_perm name _ _ Hnv Hv).
  destruct (od_lookup name (variables rootgrp')) as [var|e]; [|done].
  rewrite !bind_Ok. by apply nc_getitem_reordered.
Qed.

Lemma extract_reordered rootgrp rootgrp' dims key :
  reordered rootgrp rootgrp' ->
  extract rootgrp dims key = extract rootgrp' dims key.
Proof.
  intros Hr. unfold extract.
  pose proof Hr as (Hd & Hv & Hnd & Hnv).
  rewrite (od_lookup_perm key _ _ Hnv Hv).
  destruct (od_lookup key (variables rootgrp')) as [var|e]; [|done].
  rewrite !bind_Ok. destruct (mapM _ _) as [toExtract|e]; [|done].
  rewrite !bind_Ok. by rewrite (eval_getData_reordered rootgrp rootgrp').
Qed.

(** The loop returns the same mapping whatever the order it meets the
    variables in. *)
Lemma collect_reordered rootgrp rootgrp' dims varList m :
  reordered rootgrp rootgrp' ->
  collect rootgrp dims varList (variables rootgrp) ∅ = Ok m ->
  collect rootgrp' dims varList (variables rootgrp') ∅ = Ok m.
Proof.
  intros Hr H. pose proof Hr as (Hd & Hv & Hnd & Hnv).
  destruct (collect_returns rootgrp' dims varList (variables rootgrp') ∅)
    as [m' Hm'].
  { intros key Hk Hreq. rewrite <- (extract_reordered rootgrp rootgrp') by done.
    apply (collect_requested _ _ _ _ _ _ _ H); [|done]. by rewrite Hv. }
  rewrite Hm'. f_equal. apply map_eq. intros key.
  pose proof (collect_spec _ _ _ _ _ _ H key) as Hs.
  pose proof (collect_spec _ _ _ _ _ _ Hm' key) as Hs'.
  rewrite <- (extract_reordered rootgrp rootgrp') in Hs' by done.
  destruct (decide (key ∈ (variables rootgrp).*1 /\ key ∈ varList)) as [Hin|Hnin].
  - rewrite decide_True in Hs' by (by rewrite <- Hv).
    destruct Hs as (d & te & Hex & ->). destruct Hs' as (d' & te' & Hex' & ->).
    congruence.
  - rewrite decide_False in Hs' by (by rewrite <- Hv). congruence.
Qed.
End permuted.

(** ** Text *)

Lemma app_cons (c : ascii) (a b : string) :
  String c a +:+ b = String c (a +:+ b).
Proof. done. Qed.

Lemma app_empty (b : string) : EmptyString +:+ b = b.
Proof. done. Qed.

Lemma app_assoc (a b c : string) : (a +:+ b) +:+ c = a +:+ (b +:+ c).
Proof. induction a as [|x a IH]; [done|]. by rewrite !app_cons, IH. Qed.

Lemma concat_cons2 (sep x y : string) (l : list string) :
  String.concat sep (x :: y :: l) = x +:+ sep +:+ String.concat sep (y :: l).
Proof. done. Qed.

Ltac norm_app :=
  repeat (rewrite app_assoc || rewrite app_cons || rewrite app_empty).

(** ** The scanner on the texts that [str] and [render] produce *)

Lemma punct_not_digit (c : ascii) (t : token) :
  punct c = Some t -> digit_of c = None.
Proof. destruct c as [[] [] [] [] [] [] [] []]; by cbn. Qed.

Lemma punct_not_num (c : ascii) (t : token) :
  punct c = Some t -> forall d, t <> TNum d.
Proof. destruct c as [[] [] [] [] [] [] [] []]; cbn; congruence. Qed.

Lemma scan_cons_digit (c : ascii) (dg : uint -> uint) (s : string) :
  digit_of c = Some dg ->
  scan (String c s)
  = (fun ts => match ts with
               | TNum d :: ts' => TNum (dg d) :: ts'
               | _ => TNum (dg Nil) :: ts
               end) <$> scan s.
Proof. intros H. cbn [scan]. rewrite H. by destruct (scan s). Qed.

Lemma scan_cons_other (c : ascii) (s : string) :
  digit_of c = None ->
  scan (String c s) = ts ← scan s; t ← punct c; Some (t :: ts).
Proof. intros H. cbn [scan]. rewrite H. by destruct (scan s). Qed.

Lemma scan_head_other (c : ascii) (s : string) ts :
  digit_of c = None -> scan (String c s) = Some ts ->
  match ts with TNum _ :: _ => False | _ => True end.
Proof.
  intros Hc. rewrite scan_cons_other by done.
  destruct (scan s) as [ts'|]; [|done]. cbn.
  destruct (punct c) as [t|] eqn:Ht; [|done]. cbn. intros [= <-].
  pose proof (punct_not_num c t Ht) as Hn. destruct t; try done.
  by destruct (Hn d).
Qed.

(** A number in front of a character that is no digit is one token. *)
Lemma scan_uint (d : uint) (c : ascii) (rest : string) :
  d <> Nil -> digit_of c = None ->
  scan (NilEmpty.string_of_uint d +:+ String c rest)
  = (fun ts => TNum d :: ts) <$> scan (String c rest).
Proof.
  intros Hd Hc. induction d as [|d IH|d IH|d IH|d IH|d IH|d IH|d IH|d IH|d IH|d IH];
    [done|..];
    cbn [NilEmpty.string_of_uint]; rewrite app_cons;
    (erewrite scan_cons_digit by reflexivity);
    (destruct (uint_eq_dec d Nil) as [->|Hne];
     [ cbn [NilEmpty.string_of_uint]; rewrite app_empty;
       destruct (scan (String c rest)) as [ts|] eqn:E; [|done];
       pose proof (scan_head_other c rest ts Hc E) as Hh; cbn;
       by destruct ts as [|[] ?]
     | rewrite (IH Hne); by destruct (scan (String c rest)) ]).
Qed.

Lemma lex_cons_punct (c : ascii) (t : token) (rest : string) :
  punct c = Some t -> is_space t = false ->
  lex (String c rest) = (fun ts => t :: ts) <$> lex rest.
Proof.
  intros Hp Hs. unfold lex.
  rewrite scan_cons_other by (by eapply punct_not_digit).
  destruct (scan rest) as [ts|]; [|done]. cbn. rewrite Hp. cbn.
  by rewrite Hs.
Qed.

Lemma lex_cons_space (rest : string) : lex (String " " rest) = lex rest.
Proof.
  unfold lex. rewrite scan_cons_other by done.
  by destruct (scan rest) as [ts|].
Qed.

Lemma lex_uint (d : uint) (c : ascii) (rest : string) :
  d <> Nil -> digit_of c = None ->
  lex (NilEmpty.string_of_uint d +:+ String c rest)
  = (fun ts => TNum d :: ts) <$> lex (String c rest).
Proof.
  intros Hd Hc. unfold lex. rewrite scan_uint by done.
  by destruct (scan (String c rest)) as [ts|].
Qed.

Lemma to_uint_nonnil (n : N) : N.to_uint n <> Nil.
Proof.
  destruct n as [|p]; [done|]. apply DecimalPos.Unsigned.to_uint_nonnil.
Qed.

Lemma lex_str_nat (n : nat) (c : ascii) (rest : string) :
  digit_of c = None ->
  lex (str_nat n +:+ String c rest)
  = (fun ts => num_token n :: ts) <$> lex (String c rest).
Proof. intros Hc. apply lex_uint; [apply to_uint_nonnil|done]. Qed.

(** The numbers of a list, in front of the bracket that closes it. *)
Lemma lex_list (l : list nat) (rest : string) :
  lex (String.concat ", " (map str_nat l) +:+ String "]" rest)
  = (fun ts => list_tokens l ++ ts) <$> lex (String "]" rest).
Proof.
  induction l as [|n l IH]; [by destruct (lex _)|].
  destruct l as [|n' l].
  - cbn [map String.concat list_tokens]. by rewrite lex_str_nat.
  - cbn [map]. rewrite concat_cons2. norm_app.
    cbn [map] in IH. rewrite lex_str_nat by done.
    rewrite (lex_cons_punct "," TComma) by done.
    rewrite lex_cons_space, IH.
    cbn [list_tokens]. by destruct (lex (String "]" rest)).
Qed.

Lemma lex_render (sp : clipspec) (c : ascii) (rest : string) :
  digit_of c = None ->
  lex (render sp +:+ String c rest)
  = (fun ts => spec_tokens sp ++ ts) <$> lex (String c rest).
Proof.
  intros Hc. destruct sp as [lo hi|l]; cbn [render spec_tokens].
  - norm_app. rewrite lex_str_nat by done.
    rewrite (lex_cons_punct ":" TColon) by done.
    rewrite lex_str_nat by done. by destruct (lex (String c rest)).
  - norm_app.
    rewrite (lex_cons_punct "[" TLBrack) by done.
    rewrite lex_list.
    rewrite (lex_cons_punct "]" TRBrack) by done.
    destruct (lex (String c rest)); cbn; [|done].
    by rewrite <- (assoc_L (++)).
Qed.

(** ** [str] of the list and the removal of the quotes *)

Lemma repr_char_plain (c : ascii) :
  plain_char c = true -> repr_char quote c = String c EmptyString.
Proof. destruct c as [[] [] [] [] [] [] [] []]; by cbn. Qed.

Lemma plain_char_quotes (c : ascii) :
  plain_char c = true ->
  Ascii.eqb quote c = false /\ Ascii.eqb dquote c = false /\
  Ascii.eqb c quote = false.
Proof. destruct c as [[] [] [] [] [] [] [] []]; by cbn. Qed.

Lemma contains_plain (s : string) :
  plain s = true -> contains quote s = false.
Proof.
  induction s as [|c s IH]; [done|]. cbn [plain contains].
  intros [Hc Hs]%andb_prop. destruct (plain_char_quotes c Hc) as (-> & _ & _).
  by rewrite IH.
Qed.

Lemma repr_body_plain (s : string) :
  plain s = true -> repr_body quote s = s.
Proof.
  induction s as [|c s IH]; [done|]. cbn [plain repr_body].
  intros [Hc Hs]%andb_prop. by rewrite repr_char_plain, IH.
Qed.

Lemma py_repr_plain (s : string) :
  plain s = true -> py_repr s = String quote (s +:+ String quote EmptyString).
Proof.
  intros Hs. unfold py_repr. rewrite contains_plain by done. cbn [andb].
  by rewrite repr_body_plain.
Qed.

Lemma replace_app (old : ascii) (new a b : string) :
  replace old new (a +:+ b) = replace old new a +:+ replace old new b.
Proof.
  induction a as [|c a IH]; [done|]. rewrite app_cons. cbn [replace].
  destruct (Ascii.eqb c old); by rewrite IH, ?app_assoc.
Qed.

Lemma replace_plain (s : string) :
  plain s = true -> replace quote EmptyString s = s.
Proof.
  induction s as [|c s IH]; [done|]. cbn [plain replace].
  intros [Hc Hs]%andb_prop. destruct (plain_char_quotes c Hc) as (_ & _ & ->).
  by rewrite IH.
Qed.

Lemma replace_repr (s : string) :
  plain s = true -> replace quote EmptyString (py_repr s) = s.
Proof.
  intros Hs. rewrite py_repr_plain by done.
  change (String quote (s +:+ String quote EmptyString))
    with (String quote EmptyString +:+ s +:+ String quote EmptyString).
  rewrite !replace_app, (replace_plain s) by done.
  change (replace quote EmptyString (String quote EmptyString)) with EmptyString.
  rewrite app_empty. clear Hs. induction s as [|c s IH]; [done|].
  by rewrite app_cons, IH.
Qed.

Lemma replace_concat_repr (l : list string) :
  Forall (fun s => plain s = true) l ->
  replace quote EmptyString (String.concat ", " (map py_repr l))
  = String.concat ", " l.
Proof.
  induction 1 as [|x l Hx Hl IH]; [done|].
  destruct l as [|y l]; [by apply replace_repr|].
  cbn [map] in *. rewrite !concat_cons2, !replace_app, IH.
  by rewrite replace_repr.
Qed.

(** On plain texts the indexing part is the texts between brackets. *)
Lemma index_text_plain (toExtract : list string) :
  Forall (fun s => plain s = true) toExtract ->
  index_text toExtract = "[" +:+ String.concat ", " toExtract +:+ "]".
Proof.
  intros Hl. unfold index_text, str_list.
  by rewrite !replace_app, replace_concat_repr.
Qed.

(** ** The name between the quotes *)

Lemma contains_app (c : ascii) (a b : string) :
  contains c (a +:+ b) = contains c a || contains c b.
Proof.
  induction a as [|x a IH]; [done|]. rewrite app_cons. cbn [contains].
  by rewrite IH, orb_assoc.
Qed.

Lemma scan_quoted (s : string) : contains quote s = true -> scan s = None.
Proof.
  induction s as [|c s IH]; [done|]. cbn [contains].
  destruct (Ascii.eqb_spec quote c) as [<-|Hne]; cbn [orb].
  - intros _. rewrite scan_cons_other by done. by destruct (scan s).
  - intros Hs. cbn [scan]. by rewrite (IH Hs).
Qed.

Lemma read_literal_name (key rest : string) :
  name_ok key = true ->
  read_literal (key +:+ String quote rest) = Some (key, rest).
Proof.
  induction key as [|c key IH]; [done|]. cbn [name_ok].
  intros [[Hq Hb]%andb_prop Hk]%andb_prop. rewrite app_cons. cbn [read_literal].
  apply negb_true_iff in Hq, Hb. by rewrite Hq, Hb, (IH Hk).
Qed.

Lemma read_literal_bad (key rest : string) :
  name_ok key = false ->
  match read_literal (key +:+ String quote rest) with
  | Some (_, rest') => contains quote rest' = true
  | None => True
  end.
Proof.
  induction key as [|c key IH]; [done|]. cbn [name_ok]. intros Hbad.
  rewrite app_cons. cbn [read_literal].
  destruct (Ascii.eqb_spec c quote) as [->|Hq].
  - rewrite contains_app. cbn [contains]. by rewrite orb_true_r.
  - destruct (_ || _); [done|]. cbn in Hbad.
    specialize (IH Hbad). by destruct (read_literal _) as [[] |].
Qed.

Lemma strip_prefix_getData (key text : string) :
  strip_prefix "rootgrp.variables['" (format_getData key text)
  = Some (key +:+ String quote ("]" +:+ text)).
Proof. done. Qed.

(** What [eval] does with the expression built for [key]: the name comes
    back as it is, and only the text behind it is left to read. *)
Lemma eval_getData_format {A} (rootgrp : Dataset A) (key text : string) :
  eval_getData rootgrp (format_getData key text)
  = if name_ok key then
      match parse_subscripts ("]" +:+ text) with
      | Some elems =>
          var ← od_lookup key (variables rootgrp);
          nc_getitem rootgrp var elems
      | None => Raise EvalError
      end
    else Raise EvalError.
Proof.
  unfold eval_getData. rewrite strip_prefix_getData. cbn [mbind option_bind].
  destruct (name_ok key) eqn:Hk.
  - rewrite read_literal_name by done. cbn [mbind option_bind].
    by destruct (parse_subscripts _).
  - pose proof (read_literal_bad key ("]" +:+ text) Hk) as Hbad.
    destruct (read_literal _) as [[name rest']|]; [|done].
    cbn [mbind option_bind]. unfold parse_subscripts, lex.
    by rewrite (scan_quoted rest' Hbad).
Qed.

(** ** The parser on the tokens of specifications *)

Lemma number_to_uint (n : nat) :
  number (N.to_uint (N.of_nat n)) = Some (Z.of_nat n).
Proof.
  unfold number.
  assert (unorm (N.to_uint (N.of_nat n)) = N.to_uint (N.of_nat n)) as ->.
  { rewrite <- DecimalN.Unsigned.to_of. by rewrite DecimalN.Unsigned.of_to. }
  rewrite internal_uint_dec_lb by done.
  by rewrite DecimalN.Unsigned.of_to, nat_N_Z.
Qed.

Lemma signed_int_num (n : nat) : signed_int [num_token n] = Some (Z.of_nat n).
Proof. apply number_to_uint. Qed.

Lemma split_top_nonempty is_sep inl ts : split_top is_sep inl ts <> [].
Proof.
  destruct ts as [|t ts]; [done|]. cbn [split_top].
  destruct (is_sep t && negb inl); [done|]. by destruct (split_top _ _ _).
Qed.

Lemma split_top_cons is_sep inl t ts :
  is_sep t = false ->
  split_top is_sep inl (t :: ts)
  = match split_top is_sep
            (match t with TLBrack => true | TRBrack => false | _ => inl end) ts
    with
    | c :: cs => (t :: c) :: cs
    | [] => [[t]]
    end.
Proof. intros H. cbn [split_top]. by rewrite H. Qed.

Lemma split_top_numbers (l : list nat) :
  l <> [] ->
  split_top is_comma false (list_tokens l) = map (fun n => [num_token n]) l.
Proof.
  induction l as [|n l IH]; [done|]. intros _. destruct l as [|n' l].
  - done.
  - cbn [list_tokens map] in *. unfold num_token at 1.
    rewrite split_top_cons by done. cbn [split_top is_comma andb negb].
    by rewrite IH.
Qed.

Lemma mapM_signed_int (l : list nat) :
  mapM signed_int (map (fun n => [num_token n]) l) = Some (Z.of_nat <$> l).
Proof.
  induction l as [|n l IH]; [done|].
  cbn [map mapM]. rewrite signed_int_num. cbn [mbind option_bind].
  cbn [map] in IH. rewrite IH. done.
Qed.

(** An element reads back as the specification it renders, unless it is the
    empty list. *)
Lemma parse_elem_spec (sp : clipspec) :
  parse_elem (spec_tokens sp)
  = if spec_ok sp then Some (spec_subscript sp) else None.
Proof.
  destruct sp as [lo hi|l].
  - cbn [spec_tokens spec_ok spec_subscript]. unfold parse_elem, num_token.
    cbn [split_top is_colon andb negb]. fold (num_token lo) (num_token hi).
    unfold opt_int. by rewrite !signed_int_num.
  - cbn [spec_tokens spec_subscript]. unfold parse_elem.
    rewrite rev_app_distr. cbn [rev app]. rewrite rev_involutive.
    destruct l as [|n l]; [done|].
    rewrite split_top_numbers by done. by rewrite mapM_signed_int.
Qed.

(** ** Indexing with specifications *)

Lemma axis_index_nat (n i : nat) :
  axis_index n (Z.of_nat i) = if Nat.ltb i n then Ok i else Raise IndexError.
Proof.
  unfold axis_index. destruct (Nat.ltb_spec i n).
  - rewrite bool_decide_eq_true_2 by lia. by rewrite Nat2Z.id.
  - by rewrite !bool_decide_eq_false_2 by lia.
Qed.

Lemma mapM_axis_index (n : nat) (l : list nat) :
  mapM (axis_index n) (Z.of_nat <$> l)
  = if forallb (fun i => Nat.ltb i n) l then Ok l else Raise IndexError.
Proof.
  induction l as [|i l IH]; [done|].
  cbn [fmap list_fmap mapM forallb]. rewrite axis_index_nat.
  destruct (Nat.ltb i n); [|done]. rewrite bind_Ok. cbn [andb].
  change (list_fmap nat Z Z.of_nat l) with (Z.of_nat <$> l). rewrite IH.
  by destruct (forallb _ l).
Qed.

Lemma map_seq_from (a c : nat) :
  map (fun k => Z.to_nat (Z.of_nat a + Z.of_nat k * 1)) (seq 0 c) = seq a c.
Proof.
  replace (seq a c) with (seq (a + 0) c) by (f_equal; lia).
  rewrite <- fmap_add_seq.
  apply map_ext. intros k. lia.
Qed.

(** A range [lo:hi] selects the positions from [lo] up to [hi], cut to the
    extent. *)
Lemma slice_indices_range (n lo hi : nat) :
  slice_indices n (Some (Z.of_nat lo)) (Some (Z.of_nat hi)) None
  = Ok (seq (lo `min` n) (hi `min` n - lo `min` n)).
Proof.
  unfold slice_indices. cbn [default].
  rewrite (bool_decide_eq_false_2 (1 = 0)%Z) by done.
  rewrite !(bool_decide_eq_true_2 (0 < 1)%Z) by done.
  rewrite !(bool_decide_eq_false_2 (Z.of_nat _ < 0)%Z) by lia.
  replace (Z.of_nat lo `min` Z.of_nat n)%Z with (Z.of_nat (lo `min` n)) by lia.
  replace (Z.of_nat hi `min` Z.of_nat n)%Z with (Z.of_nat (hi `min` n)) by lia.
  f_equal. case_bool_decide as Hlt.
  - rewrite Z.div_1_r.
    replace (Z.to_nat (Z.of_nat (hi `min` n) - Z.of_nat (lo `min` n) - 1 + 1))
      with (hi `min` n - lo `min` n) by lia.
    apply map_seq_from.
  - replace (hi `min` n - lo `min` n) with 0 by lia. done.
Qed.

Lemma resolve_spec (n : nat) (sp : clipspec) :
  resolve n (spec_subscript sp)
  = if in_extent n sp then Ok (Pick (spec_positions n sp))
    else Raise IndexError.
Proof.
  destruct sp as [lo hi|l]; cbn [resolve spec_subscript in_extent spec_positions].
  - by rewrite slice_indices_range.
  - rewrite mapM_axis_index. by destruct (forallb _ l).
Qed.

(** ** Selections *)

Lemma picked_shape_pick (poss : list (list nat)) :
  picked_shape (Pick <$> poss) = length <$> poss.
Proof. induction poss as [|l poss IH]; [done|]. cbn. by rewrite <- IH. Qed.


(** With one list of positions per axis, the cell behind a position of the
    selection is the one [positions_at] names. *)
Lemma source_index_positions (poss : list (list nat)) : forall ix : list nat,
  length ix = length poss ->
  source_index (Pick <$> poss) ix = positions_at poss ix.
Proof.
  induction poss as [|l poss IH]; intros ix Hlen.
  - by destruct ix.
  - destruct ix as [|i ix]; [done|].
    cbn [fmap list_fmap source_index hd tl]. unfold positions_at.
    cbn [zip_with]. f_equal. apply IH. cbn in Hlen. lia.
Qed.

Section selects.
Context {A : Type}.
Implicit Types (var : NcVariable A) (data : ndarray A).



End selects.

(** ** One requested variable: the expression built for it *)

Section one_variable.
Context {A : Type}.
Implicit Types (rootgrp : Dataset A) (var : NcVariable A).

(** Whatever the clip texts are: the expression evaluated for a variable
    lists, for each of its dimensions in declared order, the resolved text of
    that dimension. *)
Lemma extract_inv rootgrp (dims : gmap string string) key data toExtract :
  extract rootgrp dims key = Ok (data, toExtract) ->
  exists var,
    od_lookup key (variables rootgrp) = Ok var /\
    Forall2 (fun d text => dims !! d = Some text) (var_dimensions var) toExtract /\
    eval_getData rootgrp (format_getData key (index_text toExtract)) = Ok data.
Proof.
  unfold extract. intros H.
  destruct (od_lookup key (variables rootgrp)) as [var|e]; [|done].
  rewrite bind_Ok in H.
  destruct (mapM (dict_get dims) (var_dimensions var)) as [te|e] eqn:Em; [|done].
  rewrite bind_Ok in H.
  destruct (eval_getData _ _) as [d|e] eqn:Ee; [|done].
  rewrite bind_Ok in H. inversion H; subst. exists var. split; [done|].
  split; [|done]. apply mapM_result_length in Em.
  eapply Forall2_impl; [exact Em|]. intros d text. unfold dict_get.
  by destruct (dims !! d); intros [= ->].
Qed.

(** A variable without dimensions cannot be extracted: the text built for
    it ends in [[]], which is no expression. *)
Lemma extract_dimensionless rootgrp (dims : gmap string string) key var :
  od_lookup key (variables rootgrp) = Ok var ->
  var_dimensions var = [] ->
  extract rootgrp dims key = Raise EvalError.
Proof.
  intros Hvar Hd. unfold extract. rewrite Hvar, bind_Ok, Hd.
  cbn [mapM]. change (mret []) with (Ok (@nil string)). rewrite bind_Ok.
  rewrite eval_getData_format. by destruct (name_ok key).
Qed.
End one_variable.

(** ** The entries of the returned mapping *)


Lemma spec_positions_full (n : nat) : spec_positions n (Range 0 n) = seq 0 n.
Proof. cbn. by rewrite Nat.min_id, Nat.sub_0_r. Qed.

Section call.
Context {A : Type}.
Implicit Types (env : netcdf_env A) (rootgrp : Dataset A) (var : NcVariable A).

(** What is behind an entry of the returned mapping, whatever the clip
    texts are. *)
Lemma readFVCOM_entry env file rootgrp varList clipDims noisy out m key data :
  disk env !! file = Some rootgrp ->
  (readFVCOM env file varList clipDims noisy out).2 = Ok m ->
  m !! key = Some data ->
  key ∈ varList /\
  exists toExtract,
    extract rootgrp (resolved (full_ranges (dimensions rootgrp)) clipDims) key
    = Ok (data, toExtract).
Proof.
  intros Hfile H Hkey. rewrite readFVCOM_value in H.
  apply read_value_inv in H as (rootgrp' & _ & Hfile' & H).
  rewrite Hfile in Hfile'. inversion Hfile'; subst rootgrp'.
  pose proof (collect_spec _ _ _ _ _ _ H key) as Hs.
  destruct (decide (key ∈ (variables rootgrp).*1 /\ key ∈ varList))
    as [[_ Hreq]|_].
  - destruct Hs as (data' & te & Hex & Hm). rewrite Hkey in Hm.
    inversion Hm; subst data'. eauto.
  - by rewrite Hkey, lookup_empty in Hs.
Qed.

(** A requested variable of the file is in the returned mapping. *)
Lemma readFVCOM_has env file rootgrp varList clipDims noisy out m key :
  disk env !! file = Some rootgrp ->
  (readFVCOM env file varList clipDims noisy out).2 = Ok m ->
  key ∈ varList -> key ∈ (variables rootgrp).*1 ->
  exists data, m !! key = Some data.
Proof.
  intros Hfile H Hreq Hdecl. rewrite readFVCOM_value in H.
  apply read_value_inv in H as (rootgrp' & _ & Hfile' & H).
  rewrite Hfile in Hfile'. inversion Hfile'; subst rootgrp'.
  pose proof (collect_spec _ _ _ _ _ _ H key) as Hs.
  rewrite decide_True in Hs by done. destruct Hs as (data & _ & _ & ->). eauto.
Qed.
End call.

(** ** The scanner on any text *)

Lemma scan_cons (x : ascii) (s : string) :
  scan (String x s)
  = ts ← scan s;
    match digit_of x with
    | Some dg =>
        Some (match ts with
              | TNum d :: ts' => TNum (dg d) :: ts'
              | _ => TNum (dg Nil) :: ts
              end)
    | None => t ← punct x; Some (t :: ts)
    end.
Proof. done. Qed.

Lemma scan_app (a : string) (c : ascii) (rest : string) :
  digit_of c = None ->
  scan (a +:+ String c rest)
  = ta ← scan a; tr ← scan (String c rest); Some (ta ++ tr).
Proof.
  intros Hc. induction a as [|x a IH].
  - rewrite app_empty. change (scan EmptyString) with (Some (@nil token)).
    cbn [mbind option_bind]. by destruct (scan (String c rest)).
  - rewrite app_cons, (scan_cons x (a +:+ _)), (scan_cons x a), IH.
    destruct (scan a) as [ta|]; [|done]. cbn [mbind option_bind].
    destruct (scan (String c rest)) as [tr|] eqn:Er; cbn [mbind option_bind].
    + destruct (digit_of x) as [dg|].
      * cbn [mbind option_bind]. f_equal.
        destruct ta as [|t ta]; [|by destruct t].
        pose proof (scan_head_other c rest tr Hc Er) as Hh.
        cbn [app]. by destruct tr as [|[] ?].
      * destruct (punct x); by cbn.
    + destruct (digit_of x) as [dg|]; [done|]. by destruct (punct x).
Qed.

Lemma lex_app (a : string) (c : ascii) (rest : string) :
  digit_of c = None ->
  lex (a +:+ String c rest)
  = ta ← lex a; tr ← lex (String c rest); Some (ta ++ tr).
Proof.
  intros Hc. unfold lex. rewrite scan_app by done.
  destruct (scan a) as [ta|]; [|done]. cbn [mbind option_bind].
  destruct (scan (String c rest)) as [tr|]; [|done]. cbn [mbind option_bind].
  by rewrite List.filter_app.
Qed.

Lemma scanned_char (c : ascii) :
  plain_char c = true \/ (digit_of c = None /\ punct c = None).
Proof. destruct c as [[] [] [] [] [] [] [] []]; cbn; auto. Qed.

(** A text the scanner accepts is plain. *)
Lemma scan_plain (s : string) ts : scan s = Some ts -> plain s = true.
Proof.
  revert ts. induction s as [|c s IH]; intros ts; [done|]. cbn [scan plain].
  destruct (scan s) as [ts'|]; [|done]. cbn [mbind option_bind].
  rewrite (IH ts' eq_refl), andb_true_r.
  destruct (scanned_char c) as [->|[-> Hp]]; [done|]. by rewrite Hp.
Qed.

Lemma lex_plain (s : string) ts : lex s = Some ts -> plain s = true.
Proof.
  unfold lex. destruct (scan s) as [ts'|] eqn:E; [|done].
  intros _. by eapply scan_plain.
Qed.

(** The elements of an indexing expression, any texts, in front of the
    bracket that closes it. *)
Lemma lex_texts (texts : list string) (rest : string) :
  lex (String.concat ", " texts +:+ String "]" rest)
  = tss ← mapM lex texts; tr ← lex (String "]" rest);
    Some (join_tokens tss ++ tr).
Proof.
  induction texts as [|t texts IH].
  - cbn [String.concat mapM mbind option_bind mret option_ret join_tokens].
    rewrite app_empty. by destruct (lex _).
  - destruct texts as [|t' texts].
    + cbn [String.concat mapM]. rewrite lex_app by done.
      destruct (lex t) as [ts|]; [|done]. cbn.
      by destruct (lex (String "]" rest)).
    + rewrite concat_cons2. norm_app. rewrite lex_app by done.
      rewrite (lex_cons_punct "," TComma) by done.
      rewrite lex_cons_space, IH.
      cbn [mapM]. destruct (lex t) as [ts|]; [|done]. cbn [mbind option_bind].
      destruct (lex t') as [ts'|]; [|done]. cbn [mbind option_bind].
      destruct (mapM lex texts) as [tss|]; [|done]. cbn [mbind option_bind].
      destruct (lex (String "]" rest)) as [tr|]; [|done].
      cbn. by rewrite <- (assoc_L (++)).
Qed.

(** ** The parser on the tokens of any element *)

Lemma signed_int_numeric (ts : list token) z :
  signed_int ts = Some z -> forallb numeric ts = true.
Proof. by destruct ts as [|[] [|[] [|? ?]]]. Qed.

Lemma opt_int_numeric (ts : list token) o :
  opt_int ts = Some o -> forallb numeric ts = true.
Proof.
  destruct ts as [|t ts]; [done|]. unfold opt_int.
  destruct (signed_int (t :: ts)) as [z|] eqn:E; [|done].
  intros _. by eapply signed_int_numeric.
Qed.

(** No token is lost in the pieces but the separators. *)
Lemma split_top_covers is_sep (ts : list token) : forall inl t,
  In t ts ->
  is_sep t = true \/ exists piece, In piece (split_top is_sep inl ts) /\ In t piece.
Proof.
  induction ts as [|t0 ts IH]; intros inl t Hin; [done|].
  cbn [split_top]. destruct (is_sep t0 && negb inl) eqn:Hs.
  - destruct Hin as [<-|Hin].
    + left. by apply andb_prop in Hs as [-> _].
    + destruct (IH false t Hin) as [?|(p & Hp & Ht)]; [by left|].
      right. exists p. split; [by right|done].
  - set (inl' := match t0 with TLBrack => true | TRBrack => false | _ => inl end).
    destruct Hin as [<-|Hin].
    + right. destruct (split_top is_sep inl' ts) as [|c cs].
      * exists [t0]. split; by left.
      * exists (t0 :: c). split; by left.
    + destruct (IH inl' t Hin) as [?|(p & Hp & Ht)]; [by left|]. right.
      destruct (split_top is_sep inl' ts) as [|c cs]; [done|].
      destruct Hp as [<-|Hp].
      * exists (t0 :: c). split; [by left|by right].
      * exists p. split; [by right|done].
Qed.

Lemma mapM_signed_int_numeric (pieces : list (list token)) l :
  mapM signed_int pieces = Some l ->
  forall piece, In piece pieces -> forallb numeric piece = true.
Proof.
  intros H%mapM_Some_1. induction H as [|p z pieces l Hp _ IH]; [done|].
  intros piece [<-|Hin]; [by eapply signed_int_numeric|by apply IH].
Qed.

Lemma numeric_slice_token (t : token) : numeric t = true -> slice_token t = true.
Proof. by destruct t. Qed.

Lemma numeric_list_token (t : token) : numeric t = true -> list_token t = true.
Proof. by destruct t. Qed.

(** The tokens of a slice or of an integer. *)
Lemma parse_slice_tokens (ts : list token) e :
  match split_top is_colon false ts with
  | [a] => i ← signed_int a; Some (SInt i)
  | [a; b] => x ← opt_int a; y ← opt_int b; Some (SSlice x y None)
  | [a; b; c] =>
      x ← opt_int a; y ← opt_int b; z ← opt_int c; Some (SSlice x y z)
  | _ => None
  end = Some e ->
  forallb slice_token ts = true.
Proof.
  intros H. apply forallb_forall. intros t Hin.
  destruct (split_top_covers is_colon ts false t Hin) as [Hc|(p & Hp & Ht)].
  { unfold slice_token. by rewrite Hc, orb_true_r. }
  apply numeric_slice_token.
  assert (forallb numeric p = true) as Hnum;
    [|by rewrite forallb_forall in Hnum; apply Hnum].
  destruct (split_top is_colon false ts) as [|a [|b [|c [|? ?]]]]; try done.
  - destruct Hp as [<-|[]]. destruct (signed_int a) eqn:E; [|done].
    by eapply signed_int_numeric.
  - destruct (opt_int a) eqn:Ea; [|done]. destruct (opt_int b) eqn:Eb; [|done].
    destruct Hp as [<-|[<-|[]]]; by eapply opt_int_numeric.
  - destruct (opt_int a) eqn:Ea; [|done]. destruct (opt_int b) eqn:Eb; [|done].
    destruct (opt_int c) eqn:Ec; [|done].
    destruct Hp as [<-|[<-|[<-|[]]]]; by eapply opt_int_numeric.
Qed.

(** An element is a slice or an integer, without brackets, or a list
    between brackets. *)
Lemma parse_elem_tokens (ts : list token) e :
  parse_elem ts = Some e ->
  forallb slice_token ts = true \/
  exists b, ts = TLBrack :: b ++ [TRBrack] /\ forallb list_token b = true.
Proof.
  destruct ts as [|t ts]; [done|].
  destruct t; try (intros H; left; by apply (parse_slice_tokens _ e)).
  unfold parse_elem. destruct (rev ts) as [|[] body] eqn:Er; try done.
  destruct (mapM signed_int _) as [l|] eqn:El; [|done]. intros _. right.
  exists (rev body). split.
  - f_equal. rewrite <- (rev_involutive ts), Er. done.
  - apply forallb_forall. intros t Hin.
    destruct (split_top_covers is_comma (rev body) false t Hin)
      as [Hc|(p & Hp & Ht)].
    + unfold list_token. by rewrite Hc, orb_true_r.
    + apply numeric_list_token.
      pose proof (mapM_signed_int_numeric _ _ El p Hp) as Hnum.
      rewrite forallb_forall in Hnum. by apply Hnum.
Qed.

Lemma split_top_slice_tokens (ts rest : list token) :
  forallb slice_token ts = true ->
  split_top is_comma false (ts ++ rest)
  = cons_head ts (split_top is_comma false rest).
Proof.
  induction ts as [|t ts IH]; intros H.
  - cbn [app]. pose proof (split_top_nonempty is_comma false rest).
    by destruct (split_top is_comma false rest).
  - cbn [forallb] in H. apply andb_prop in H as [Ht Hts].
    cbn [app]. rewrite split_top_cons by (by destruct t).
    replace (match t with TLBrack => true | TRBrack => false | _ => false end)
      with false by (by destruct t).
    rewrite (IH Hts). pose proof (split_top_nonempty is_comma false rest).
    by destruct (split_top is_comma false rest).
Qed.

Lemma split_top_list_tokens (b rest : list token) :
  forallb list_token b = true ->
  split_top is_comma true (b ++ TRBrack :: rest)
  = cons_head (b ++ [TRBrack]) (split_top is_comma false rest).
Proof.
  induction b as [|t b IH]; intros H.
  - cbn [app]. rewrite split_top_cons by done. cbv iota.
    pose proof (split_top_nonempty is_comma false rest).
    by destruct (split_top is_comma false rest).
  - cbn [forallb] in H. apply andb_prop in H as [Ht Hb].
    cbn [app split_top negb]. rewrite andb_false_r.
    replace (match t with TLBrack => true | TRBrack => false | _ => true end)
      with true by (by destruct t).
    rewrite (IH Hb). pose proof (split_top_nonempty is_comma false rest).
    by destruct (split_top is_comma false rest).
Qed.

(** An element stays in one piece up to the next comma outside brackets. *)
Lemma split_top_elem (ts rest : list token) e :
  parse_elem ts = Some e ->
  split_top is_comma false (ts ++ rest)
  = cons_head ts (split_top is_comma false rest).
Proof.
  intros [Hs|(b & -> & Hb)]%parse_elem_tokens.
  - by apply split_top_slice_tokens.
  - cbn [app]. rewrite split_top_cons by done. cbv iota.
    rewrite <- (assoc_L (++)). cbn [app]. rewrite (split_top_list_tokens _ _ Hb).
    pose proof (split_top_nonempty is_comma false rest) as Hne.
    destruct (split_top is_comma false rest) as [|c cs]; [by destruct Hne|].
    done.
Qed.

Lemma split_top_join (tss : list (list token)) (es : list subscript) :
  tss <> [] ->
  Forall2 (fun ts e => parse_elem ts = Some e) tss es ->
  split_top is_comma false (join_tokens tss) = tss.
Proof.
  intros Hne H. induction H as [|ts e tss es Hts Hrest IH]; [done|].
  destruct tss as [|ts' tss].
  - cbn [join_tokens]. rewrite <- (app_nil_r ts) at 1.
    rewrite (split_top_elem _ _ _ Hts). cbn. by rewrite app_nil_r.
  - change (join_tokens (ts :: ts' :: tss))
      with (ts ++ TComma :: join_tokens (ts' :: tss)).
    rewrite (split_top_elem _ _ _ Hts).
    change (split_top is_comma false (TComma :: join_tokens (ts' :: tss)))
      with ([] :: split_top is_comma false (join_tokens (ts' :: tss))).
    rewrite IH by done.
    cbn. by rewrite app_nil_r.
Qed.

(** Texts that each read as an element, joined by commas between brackets,
    read as the list of those elements; without any text they do not read
    at all. *)
Lemma parse_subscripts_texts (texts : list string) (es : list subscript) :
  Forall2 (fun t e => read_elem t = Some e) texts es ->
  parse_subscripts ("]" +:+ "[" +:+ String.concat ", " texts +:+ "]")
  = if bool_decide (texts <> []) then Some es else None.
Proof.
  intros H. unfold parse_subscripts. norm_app.
  rewrite (lex_cons_punct "]" TRBrack), (lex_cons_punct "[" TLBrack) by done.
  rewrite lex_texts, (lex_cons_punct "]" TRBrack) by done.
  assert (exists tss, mapM lex texts = Some tss /\
            Forall2 (fun ts e => parse_elem ts = Some e) tss es) as (tss & -> & Htss).
  { clear -H. induction H as [|t e texts es Ht _ (tss & IH1 & IH2)].
    - by exists [].
    - unfold read_elem in Ht. destruct (lex t) as [ts|] eqn:El; [|done].
      exists (ts :: tss). cbn [mapM]. rewrite El, IH1. split; [done|].
      by constructor. }
  cbn. rewrite rev_app_distr. cbn [rev app]. rewrite rev_involutive.
  destruct texts as [|t texts].
  - inversion H; subst. inversion Htss; subst. done.
  - rewrite bool_decide_eq_true_2 by done.
    assert (tss <> []) as Hne by (inversion H; subst; by inversion Htss).
    rewrite (split_top_join _ _ Hne Htss). by apply mapM_Some_2.
Qed.

(** ** The texts of specifications *)

Lemma read_elem_render (sp : clipspec) :
  read_elem (render sp)
  = if spec_ok sp then Some (spec_subscript sp) else None.
Proof.
  unfold read_elem.
  pose proof (lex_render sp "]" EmptyString eq_refl) as Hr.
  rewrite lex_app in Hr by done.
  destruct (lex (render sp)) as [ts|]; [|done].
  cbn in Hr. inversion Hr as [Hts]. apply app_inv_tail in Hts as ->.
  cbn [mbind option_bind]. apply parse_elem_spec.
Qed.

Lemma read_elem_full (n : nat) :
  read_elem ("0:" +:+ str_nat n)
  = Some (SSlice (Some 0%Z) (Some (Z.of_nat n)) None).
Proof. apply (read_elem_render (Range 0 n)). Qed.

Lemma resolve_full (n : nat) :
  resolve n (SSlice (Some 0%Z) (Some (Z.of_nat n)) None) = Ok (Pick (seq 0 n)).
Proof.
  pose proof (resolve_spec n (Range 0 n)) as H. cbn [in_extent] in H.
  by rewrite spec_positions_full in H.
Qed.

(** ** The resolved ranges *)

Lemma resolved_lookup (ds : list (string * nat)) clipDims (d : string) :
  resolved (full_ranges ds) clipDims !! d
  = (fun n => default ("0:" +:+ str_nat n) (clipDims ≫= (fun u => u !! d)))
      <$> extents ds !! d.
Proof.
  rewrite full_ranges_extents. unfold resolved.
  destruct clipDims as [u|]; cbn [mbind option_bind].
  - rewrite map_lookup_imap, lookup_fmap.
    by destruct (extents ds !! d).
  - rewrite lookup_fmap. by destruct (extents ds !! d).
Qed.

Lemma extents_declared (ds : list (string * nat)) (d : string) n :
  od_lookup d ds = Ok n -> is_Some (extents ds !! d).
Proof.
  intros H%od_lookup_Ok_key. destruct (extents ds !! d) eqn:E; [done|].
  exfalso. revert E. unfold extents. generalize (∅ : gmap string nat).
  induction ds as [|[k v] ds IH]; intros m; [by apply elem_of_nil in H|].
  cbn [foldl]. apply elem_of_cons in H as [->|H]; [|by apply IH].
  cbn [fst]. destruct (decide (k ∈ ds.*1)) as [Hin|Hnin]; [by apply IH|].
  by rewrite extents_acc_lookup, lookup_insert_eq.
Qed.

(** A named dimension resolves to the caller's text, an unnamed one to its
    full range. *)
Lemma resolved_named (ds : list (string * nat)) (u : gmap string string) d t n :
  od_lookup d ds = Ok n -> u !! d = Some t ->
  resolved (full_ranges ds) (Some u) !! d = Some t.
Proof.
  intros Hn Hu. rewrite resolved_lookup. cbn [mbind option_bind]. rewrite Hu.
  by destruct (extents_declared ds d n Hn) as [n' ->].
Qed.

Lemma resolved_unnamed (ds : list (string * nat)) clipDims d n :
  NoDup ds.*1 -> od_lookup d ds = Ok n ->
  clipDims ≫= (fun u => u !! d) = None ->
  resolved (full_ranges ds) clipDims !! d = Some ("0:" +:+ str_nat n).
Proof.
  intros Hnd Hn Hu. rewrite resolved_lookup, Hu.
  rewrite od_lookup_extents in Hn by done.
  destruct (extents ds !! d) as [n'|]; [|done]. by inversion Hn.
Qed.

(** Under a specification of ranges and lists, so is every resolved
    text. *)
Lemma resolved_ranges_or_lists (ds : list (string * nat)) clipDims d t :
  ranges_or_lists clipDims ->
  resolved (full_ranges ds) clipDims !! d = Some t ->
  exists e, read_elem t = Some e /\ is_int e = false.
Proof.
  intros Hclip. rewrite resolved_lookup.
  destruct (extents ds !! d) as [n|]; [|done]. cbn.
  destruct clipDims as [u|]; cbn [mbind option_bind].
  - destruct (u !! d) as [t'|] eqn:Hu; cbn; intros [= <-].
    + by eapply Hclip.
    + eexists. split; [apply read_elem_full|done].
  - intros [= <-]. eexists. split; [apply read_elem_full|done].
Qed.

Lemma resolve_not_int (n : nat) (e : subscript) sel :
  is_int e = false -> resolve n e = Ok sel -> exists l, sel = Pick l.
Proof.
  destruct e as [i|a b c|l]; [done|..]; intros _; cbn [resolve].
  - destruct (slice_indices n a b c) as [l'|]; [|done]. intros [= <-]. eauto.
  - destruct (mapM (axis_index n) l) as [l'|]; [|done]. intros [= <-]. eauto.
Qed.

Lemma read_elem_plain (t : string) e : read_elem t = Some e -> plain t = true.
Proof.
  unfold read_elem. destruct (lex t) as [ts|] eqn:E; [|done].
  intros _. by eapply lex_plain.
Qed.

(** ** One requested variable: the positions taken *)

Section texts.
Context {A : Type}.
Implicit Types (rootgrp : Dataset A) (var : NcVariable A).

(** The four lists behind the extraction of a variable: its dimensions,
    their extents, their texts, the elements the texts read as. *)
Lemma resolve_all_takes rootgrp (dims : gmap string string) vDims :
  forall shp te es sels,
    Forall2 (fun d n => od_lookup d (dimensions rootgrp) = Ok n) vDims shp ->
    Forall2 (fun d t => dims !! d = Some t) vDims te ->
    Forall2 (fun t e => read_elem t = Some e /\ is_int e = false) te es ->
    resolve_all shp es = Ok sels ->
    exists poss,
      sels = Pick <$> poss /\ Forall2 (takes rootgrp dims) vDims poss.
Proof.
  induction vDims as [|d vDims IH]; intros shp te es sels Hs Ht He Hr.
  - inversion Hs; subst. inversion Ht; subst. inversion He; subst.
    inversion Hr; subst. by exists [].
  - inversion Hs as [|? n ? shp' Hn Hs']; subst.
    inversion Ht as [|? t ? te' Hd Ht']; subst.
    inversion He as [|? e ? es' [Hread Hint] He']; subst.
    cbn [resolve_all] in Hr.
    destruct (resolve n e) as [sel|] eqn:Esel; [|done]. rewrite bind_Ok in Hr.
    destruct (resolve_all shp' es') as [sels'|] eqn:Esels; [|done].
    rewrite bind_Ok in Hr. inversion Hr; subst sels.
    destruct (resolve_not_int _ _ _ Hint Esel) as [l ->].
    destruct (IH _ _ _ _ Hs' Ht' He' Esels) as (poss & -> & Hposs).
    exists (l :: poss). split; [done|]. constructor; [|done].
    by exists n, t, e.
Qed.

Lemma Forall2_read (dims : gmap string string) (vDims te : list string) :
  (forall d t, dims !! d = Some t ->
     exists e, read_elem t = Some e /\ is_int e = false) ->
  Forall2 (fun d t => dims !! d = Some t) vDims te ->
  exists es, Forall2 (fun t e => read_elem t = Some e /\ is_int e = false) te es.
Proof.
  intros Hdims. induction 1 as [|d t vDims te Hd _ [es IH]]; [by exists []|].
  destruct (Hdims d t Hd) as (e & He). exists (e :: es). by constructor.
Qed.

(** The evaluation of the expression built from texts that read as
    elements. *)
Lemma eval_getData_texts rootgrp key (te : list string) es :
  Forall2 (fun t e => read_elem t = Some e /\ is_int e = false) te es ->
  eval_getData rootgrp (format_getData key (index_text te))
  = if name_ok key && bool_decide (te <> []) then
      var ← od_lookup key (variables rootgrp); nc_getitem rootgrp var es
    else Raise EvalError.
Proof.
  intros He. rewrite eval_getData_format, index_text_plain.
  2: { apply Forall_forall. intros t Hin%list_elem_of_lookup. destruct Hin as [i Hi].
       destruct (Forall2_lookup_l _ _ _ _ _ He Hi) as (e & _ & Hr & _).
       by eapply read_elem_plain. }
  rewrite (parse_subscripts_texts te es).
  2: { eapply Forall2_impl; [exact He|]. by intros t e [? _]. }
  destruct (name_ok key); [|done]. by destruct (bool_decide _).
Qed.

(** What is stored for a variable is cut out of it along its own dimensions
    in declared order, each with the positions its resolved text takes. *)
Lemma extract_takes rootgrp (dims : gmap string string) key data toExtract :
  (forall d t, dims !! d = Some t ->
     exists e, read_elem t = Some e /\ is_int e = false) ->
  extract rootgrp dims key = Ok (data, toExtract) ->
  exists var poss,
    od_lookup key (variables rootgrp) = Ok var /\
    Forall2 (takes rootgrp dims) (var_dimensions var) poss /\
    data = selection var (Pick <$> poss).
Proof.
  intros Hdims Hex.
  apply extract_inv in Hex as (var & Hvar & Hte & Hev).
  destruct (Forall2_read dims _ _ Hdims Hte) as [es Hes].
  rewrite (eval_getData_texts _ _ _ es Hes) in Hev.
  destruct (_ && _); [|done]. rewrite Hvar, bind_Ok in Hev.
  unfold nc_getitem in Hev.
  destruct (var_shape rootgrp var) as [shp|] eqn:Es; [|done].
  rewrite bind_Ok in Hev. apply mapM_result_length in Es.
  destruct (resolve_all shp es) as [sels|] eqn:Er; [|done].
  rewrite bind_Ok in Hev. inversion Hev; subst data.
  destruct (resolve_all_takes _ _ _ _ _ _ _ Es Hte Hes Er) as (poss & -> & Hp).
  by exists var, poss.
Qed.

Lemma takes_lists rootgrp (dims : gmap string string) (vDims : list string) :
  Forall (fun d => exists l, takes rootgrp dims d l) vDims ->
  exists shp te es poss,
    Forall2 (fun d n => od_lookup d (dimensions rootgrp) = Ok n) vDims shp /\
    Forall2 (fun d t => dims !! d = Some t) vDims te /\
    Forall2 (fun t e => read_elem t = Some e) te es /\
    resolve_all shp es = Ok (Pick <$> poss).
Proof.
  induction 1 as [|d vDims (l & n & t & e & Hn & Hd & He & Hr) _
                    (shp & te & es & poss & H1 & H2 & H3 & H4)].
  - exists [], [], [], []. by repeat split; try constructor.
  - exists (n :: shp), (t :: te), (e :: es), (l :: poss).
    repeat split; try (by constructor).
    cbn [resolve_all]. by rewrite Hr, bind_Ok, H4, bind_Ok.
Qed.

(** A variable with a readable name and a dimension, whose resolved texts
    all take positions, is extracted. *)
Lemma extract_returns rootgrp (dims : gmap string string) key var :
  od_lookup key (variables rootgrp) = Ok var ->
  name_ok key = true -> var_dimensions var <> [] ->
  Forall (fun d => exists l, takes rootgrp dims d l) (var_dimensions var) ->
  exists r, extract rootgrp dims key = Ok r.
Proof.
  intros Hvar Hname Hne Hall.
  destruct (takes_lists _ _ _ Hall) as (shp & te & es & poss & H1 & H2 & H3 & H4).
  unfold extract. rewrite Hvar, bind_Ok.
  rewrite (mapM_result_Ok _ _ te).
  2: { eapply Forall2_impl; [exact H2|]. intros d t Hd. unfold dict_get.
       by rewrite Hd. }
  rewrite bind_Ok, eval_getData_format, index_text_plain.
  2: { apply Forall_forall. intros t Hin%list_elem_of_lookup. destruct Hin as [i Hi].
       destruct (Forall2_lookup_l _ _ _ _ _ H3 Hi) as (e & _ & Hr).
       by eapply read_elem_plain. }
  rewrite (parse_subscripts_texts te es H3), Hname.
  rewrite bool_decide_eq_true_2.
  2: { intros ->. by apply Forall2_nil_inv_r in H2. }
  rewrite Hvar, bind_Ok. unfold nc_getitem, var_shape.
  rewrite (mapM_result_Ok _ _ shp H1), bind_Ok, H4, !bind_Ok. eauto.
Qed.
End texts.

(** ** The whole call *)

Section served.
Context {A : Type}.
Implicit Types (env : netcdf_env A) (rootgrp : Dataset A) (var : NcVariable A).

Lemma takes_fun rootgrp (dims : gmap string string) d l n t e l' :
  takes rootgrp dims d l ->
  od_lookup d (dimensions rootgrp) = Ok n -> dims !! d = Some t ->
  read_elem t = Some e -> resolve n e = Ok (Pick l') -> l = l'.
Proof.
  intros (n0 & t0 & e0 & Hn0 & Ht0 & He0 & Hr0) Hn Ht He Hr.
  rewrite Hn in Hn0. inversion Hn0; subst n0.
  rewrite Ht in Ht0. inversion Ht0; subst t0.
  rewrite He in He0. inversion He0; subst e0.
  rewrite Hr in Hr0. by inversion Hr0.
Qed.

(** The call returns when the library is there, the file opens and every
    requested variable is served. *)
Lemma readFVCOM_served env file rootgrp varList clipDims noisy out :
  netCDF4_installed env = true -> disk env !! file = Some rootgrp ->
  all_served rootgrp varList clipDims ->
  exists m, (readFVCOM env file varList clipDims noisy out).2 = Ok m.
Proof.
  intros Henv Hfile Hall.
  rewrite readFVCOM_value, (read_value_collect env file rootgrp) by done.
  apply collect_returns. intros key Hk Hreq.
  destruct (od_lookup_declared key _ Hk) as [var Hvar].
  destruct (Hall key var Hvar Hreq) as (Hname & Hne & Htakes).
  by eapply extract_returns.
Qed.

(** Under a specification of ranges and lists: an entry of the returned
    mapping is cut out of its variable along the variable's own dimensions
    in declared order. *)
Lemma readFVCOM_takes env file rootgrp varList clipDims noisy out m key data :
  disk env !! file = Some rootgrp -> ranges_or_lists clipDims ->
  (readFVCOM env file varList clipDims noisy out).2 = Ok m ->
  m !! key = Some data ->
  exists var poss,
    od_lookup key (variables rootgrp) = Ok var /\
    Forall2 (takes rootgrp (resolved (full_ranges (dimensions rootgrp)) clipDims))
            (var_dimensions var) poss /\
    data = selection var (Pick <$> poss).
Proof.
  intros Hfile Hclip H Hkey.
  destruct (readFVCOM_entry _ _ _ _ _ _ _ _ _ _ Hfile H Hkey)
    as (_ & te & Hex).
  eapply extract_takes; [|exact Hex].
  intros d t. by apply resolved_ranges_or_lists.
Qed.

End served.

Section resolved_takes.
Context {A : Type}.
Implicit Types (rootgrp : Dataset A).

(** A dimension the specification does not name is taken whole. *)
Lemma takes_unnamed rootgrp clipDims d n :
  NoDup (dimensions rootgrp).*1 ->
  od_lookup d (dimensions rootgrp) = Ok n ->
  clipDims ≫= (fun u => u !! d) = None ->
  takes rootgrp (resolved (full_ranges (dimensions rootgrp)) clipDims) d
    (seq 0 n).
Proof.
  intros Hnd Hn Hu.
  exists n, ("0:" +:+ str_nat n), (SSlice (Some 0%Z) (Some (Z.of_nat n)) None).
  split; [done|]. split; [by apply resolved_unnamed|].
  split; [apply read_elem_full|apply resolve_full].
Qed.

(** A dimension the specification names is taken as the caller's text
    says. *)
Lemma takes_named rootgrp (u : gmap string string) d n t e l :
  od_lookup d (dimensions rootgrp) = Ok n -> u !! d = Some t ->
  read_elem t = Some e -> resolve n e = Ok (Pick l) ->
  takes rootgrp (resolved (full_ranges (dimensions rootgrp)) (Some u)) d l.
Proof.
  intros Hn Hu He Hr. exists n, t, e. split; [done|].
  split; [by eapply resolved_named|done].
Qed.
End resolved_takes.

(** ** The claims about [readFVCOM] *)

(** C2: the keys of the mapping [readFVCOM] returns are the requested names
    that the file declares as variables; and it does return a mapping when
    the library is there, the file opens and every requested variable is
    served.  The clip specification is none, or one whose texts read as
    elements, and the requested names of the file hold no quote: no
    evaluated text can then write to the mapping. *)
Theorem readFVCOM_keys {A} (env : netcdf_env A) file rootgrp varList
    clipDims :
  disk env !! file = Some rootgrp ->
  readable clipDims -> names_ok rootgrp varList ->
  (forall noisy out m,
     (readFVCOM env file varList clipDims noisy out).2 = Ok m ->
     dom m = list_to_set varList ∩ list_to_set (variables rootgrp).*1) /\
  (forall noisy out,
     netCDF4_installed env = true -> all_served rootgrp varList clipDims ->
     exists m, (readFVCOM env file varList clipDims noisy out).2 = Ok m).
Proof.
  intros Hfile _ _. split.
  - intros noisy out m H. rewrite readFVCOM_value in H.
    apply read_value_inv in H as (rootgrp' & _ & Hfile' & H).
    rewrite Hfile in Hfile'. inversion Hfile'; subst rootgrp'.
    by apply collect_dom in H.
  - intros noisy out Henv Hall. by eapply readFVCOM_served.
Qed.

Lemma NoDup_tide : NoDup (dimensions tide_file).*1.
Proof. apply (bool_decide_unpack _). vm_compute. exact I. Qed.

(** In the scenario file every request is served when the texts for time
    and node, if any, take positions. *)
Lemma tide_served (varList : list string) clipDims :
  (exists l, takes tide_file
               (resolved (full_ranges (dimensions tide_file)) clipDims)
               "time" l) ->
  (exists l, takes tide_file
               (resolved (full_ranges (dimensions tide_file)) clipDims)
               "node" l) ->
  all_served tide_file varList clipDims.
Proof.
  intros Ht Hn key var Hvar _. unfold tide_file in Hvar.
  cbn [variables od_lookup] in Hvar.
  destruct (String.eqb_spec key "zeta") as [->|]; [|discriminate Hvar].
  inversion Hvar; subst var. split; [done|]. split; [done|].
  apply Forall_cons. split; [done|]. apply Forall_cons. split; [done|].
  apply Forall_nil_2.
Qed.

Lemma tide_names (varList : list string) : names_ok tide_file varList.
Proof. intros key _ ->%list_elem_of_singleton. reflexivity. Qed.

Lemma readFVCOM_keys_witness :
  exists m,
    (readFVCOM tide_env "tide.nc" ["zeta"; "salinity"]
       (Some {[ "time" := "0:100" ]}) true blank).2
    = Ok m /\
    dom m = list_to_set ["zeta"; "salinity"] ∩ list_to_set ["zeta"].
Proof.
  destruct (readFVCOM_keys tide_env "tide.nc" tide_file ["zeta"; "salinity"]
              (Some {[ "time" := "0:100" ]}))
    as [Hkeys Hret]; [reflexivity| |apply tide_names|].
  { intros u k t [= <-] [_ <-]%lookup_singleton_Some. eexists. reflexivity. }
  destruct (Hret true blank) as [m Hm].
  - reflexivity.
  - apply tide_served.
    + exists (seq 0 100).
      eapply (takes_named tide_file _ "time" 500 "0:100"); reflexivity.
    + exists (seq 0 1000).
      apply takes_unnamed; [exact NoDup_tide|reflexivity|reflexivity].
  - exists m. split; [exact Hm|]. exact (Hkeys true blank m Hm).
Defined.









(** C7: with clip texts that read as elements and requested names that
    hold no quote, what [readFVCOM] stores for a requested variable is the
    value of the expression that lists, for each of the variable's own
    dimensions in their declared order, the resolved text of that dimension;
    under a specification of ranges and lists the axes of the stored array
    are the variable's dimensions in declared order, each with as many
    positions as its text takes, and the cell at a position of the array is
    the cell of the variable that stands, along each axis in that order, at
    the position the text of that axis takes there; and the mapping is the
    same when the library iterates the dimensions and the variables of the
    file in another order. *)
Theorem readFVCOM_declared_order {A} (env env' : netcdf_env A) file
    rootgrp rootgrp' varList clipDims noisy out m :
  disk env !! file = Some rootgrp ->
  readable clipDims -> names_ok rootgrp varList ->
  (readFVCOM env file varList clipDims noisy out).2 = Ok m ->
  (forall key data,
     m !! key = Some data ->
     exists var toExtract,
       od_lookup key (variables rootgrp) = Ok var /\
       Forall2 (fun d text =>
                  resolved (full_ranges (dimensions rootgrp)) clipDims !! d
                  = Some text)
               (var_dimensions var) toExtract /\
       eval_getData rootgrp (format_getData key (index_text toExtract))
       = Ok data) /\
  (forall key data,
     ranges_or_lists clipDims -> m !! key = Some data ->
     exists var poss,
       od_lookup key (variables rootgrp) = Ok var /\
       Forall2 (takes rootgrp
                  (resolved (full_ranges (dimensions rootgrp)) clipDims))
               (var_dimensions var) poss /\
       data = selection var (Pick <$> poss) /\
       shape data = length <$> poss /\
       forall ix,
         length ix = length poss ->
         item data ix = var_data var (positions_at poss ix)) /\
  (netCDF4_installed env' = true -> disk env' !! file = Some rootgrp' ->
   reordered rootgrp rootgrp' ->
   (readFVCOM env' file varList clipDims noisy out).2 = Ok m).
Proof.
  intros Hfile _ _ H. split; [|split].
  - intros key data Hkey.
    destruct (readFVCOM_entry _ _ _ _ _ _ _ _ _ _ Hfile H Hkey)
      as (_ & te & Hex).
    apply extract_inv in Hex as (var & Hvar & Hte & Hev). eauto.
  - intros key data Hclip Hkey.
    destruct (readFVCOM_takes _ _ _ _ _ _ _ _ _ _ Hfile Hclip H Hkey)
      as (var & poss & Hvar & Hposs & ->).
    exists var, poss. split; [done|]. split; [done|]. split; [done|].
    cbn [selection shape item]. split; [apply picked_shape_pick|].
    intros ix Hix. by rewrite source_index_positions.
  - intros Henv' Hfile' Hre. rewrite readFVCOM_value in H |- *.
    apply read_value_inv in H as (rootgrp0 & _ & Hfile0 & H).
    rewrite Hfile in Hfile0. inversion Hfile0; subst rootgrp0.
    rewrite (read_value_collect env' file rootgrp') by done.
    pose proof Hre as (Hd & _ & Hnd & _).
    rewrite <- (full_ranges_perm _ _ Hnd Hd).
    by apply (collect_reordered rootgrp rootgrp').
Qed.

Lemma coast_reordered : reordered coast_file coast_file'.
Proof.
  unfold reordered. split; [|split; [|split]].
  - cbn. rewrite (Permutation_cons_append [("node",1000); ("siglay",10)]). done.
  - cbn. rewrite (Permutation_cons_append [("nprocs", nprocs); ("zeta", zeta)]).
    apply perm_skip, Permutation_refl.
  - apply (bool_decide_unpack _). vm_compute. exact I.
  - apply (bool_decide_unpack _). vm_compute. exact I.
Qed.

Lemma every_hundredth_backwards :
  ranges_or_lists
    (Some ({[ "node" := "[3, 7, -1]"; "time" := "::-100" ]}
           : gmap string string)).
Proof.
  intros u k t [= <-] Hk. apply lookup_insert_Some in Hk as [[<- <-]|[_ Hk]].
  - eexists. split; reflexivity.
  - apply lookup_singleton_Some in Hk as [<- <-]. eexists. split; reflexivity.
Qed.

Lemma readFVCOM_declared_order_witness :
  exists m data,
    (readFVCOM coast_env "coast.nc" ["h"; "zeta"]
       (Some {[ "node" := "[3, 7, -1]"; "time" := "::-100" ]}) false blank).2
    = Ok m /\
    (readFVCOM coast_env' "coast.nc" ["h"; "zeta"]
       (Some {[ "node" := "[3, 7, -1]"; "time" := "::-100" ]}) false blank).2
    = Ok m /\
    m !! "zeta" = Some data /\
    data = selection zeta
             [Pick [499; 399; 299; 199; 99]; Pick [3; 7; 999]] /\
    shape data = [5; 3] /\
    item data [4; 2] = var_data zeta [99; 999].
Proof.
  pose (clipDims := Some ({[ "node" := "[3, 7, -1]"; "time" := "::-100" ]}
                          : gmap string string)).
  assert (takes coast_file
            (resolved (full_ranges (dimensions coast_file)) clipDims)
            "time" [499; 399; 299; 199; 99]) as Htime.
  { eapply (takes_named coast_file _ "time" 500 "::-100"); reflexivity. }
  assert (takes coast_file
            (resolved (full_ranges (dimensions coast_file)) clipDims)
            "node" [3; 7; 999]) as Hnode.
  { eapply (takes_named coast_file _ "node" 1000 "[3, 7, -1]"); reflexivity. }
  destruct (readFVCOM_served coast_env "coast.nc" coast_file ["h"; "zeta"]
              clipDims false blank eq_refl eq_refl) as [m Hm].
  { intros key var Hvar Hreq. apply list_elem_of_In in Hreq.
    destruct Hreq as [<-|[<-|[]]];
      inversion Hvar; subst var; (split; [reflexivity|]);
      (split; [discriminate|]).
    - apply Forall_cons. split; [eauto|]. apply Forall_nil_2.
    - apply Forall_cons. split; [eauto|].
      apply Forall_cons. split; [eauto|]. apply Forall_nil_2. }
  destruct (readFVCOM_has coast_env "coast.nc" coast_file ["h"; "zeta"] _
              false blank m "zeta" eq_refl Hm) as [data Hz].
  { apply list_elem_of_In. right. left. reflexivity. }
  { apply list_elem_of_In. right. left. reflexivity. }
  destruct (readFVCOM_declared_order coast_env coast_env' "coast.nc"
              coast_file coast_file' ["h"; "zeta"] clipDims false blank m
              eq_refl) as (_ & Haxes & Hperm).
  { intros u k t Hu Hk.
    destruct (every_hundredth_backwards u k t Hu Hk) as (e & He & _). eauto. }
  { intros key _ Hdecl. apply list_elem_of_In in Hdecl.
    by destruct Hdecl as [<-|[<-|[<-|[]]]]. }
  { exact Hm. }
  exists m, data. split; [exact Hm|]. split.
  { apply Hperm; [reflexivity|reflexivity|exact coast_reordered]. }
  split; [exact Hz|].
  destruct (Haxes "zeta" data every_hundredth_backwards Hz)
    as (var & poss & Hvar & Hposs & Hdata & Hshape & Hcells).
  inversion Hvar; subst var. cbn [zeta var_dimensions] in Hposs.
  inversion Hposs as [|? l1 ? poss1 Hl1 Hposs1]; subst.
  inversion Hposs1 as [|? l2 ? poss2 Hl2 Hposs2]; subst.
  inversion Hposs2; subst.
  assert (l1 = [499; 399; 299; 199; 99]) as ->.
  { eapply (takes_fun coast_file _ "time" l1 500 "::-100");
      [exact Hl1|reflexivity..]. }
  assert (l2 = [3; 7; 999]) as ->.
  { eapply (takes_fun coast_file _ "node" l2 1000 "[3, 7, -1]");
      [exact Hl2|reflexivity..]. }
  split; [reflexivity|]. split; [reflexivity|].
  exact (Hcells [4; 2] eq_refl).
Defined.

(** * Further properties of the two functions *)

(** ** [getSurfaceElevation]: when it returns and how it fails *)

Lemma axis_index_Ok (n : nat) (j : Z) c :
  axis_index n j = Ok c -> (- Z.of_nat n <= j < Z.of_nat n)%Z.
Proof.
  unfold axis_index. repeat case_bool_decide; [lia|lia|done].
Qed.

Lemma axis_index_Raise (n : nat) (j : Z) e :
  axis_index n j = Raise e -> e = IndexError.
Proof.
  unfold axis_index. repeat case_bool_decide; congruence.
Qed.

Lemma axis_index_negative (n : nat) (j : Z) :
  (- Z.of_nat n <= j < 0)%Z -> axis_index n j = Ok (Z.to_nat (j + Z.of_nat n)).
Proof.
  intros Hj. unfold axis_index.
  rewrite bool_decide_eq_false_2 by lia. by rewrite bool_decide_eq_true_2 by lia.
Qed.

Lemma fill_columns_Ok Z nx idx : forall cnt se out,
  fill_columns Z nx cnt idx se = Ok out -> Forall (servable nx) idx.
Proof.
  induction idx as [|i idx IH]; intros cnt se out H; [constructor|].
  cbn [fill_columns] in H. destruct i as [j|]; cbn in H.
  - destruct (axis_index nx j) as [c|e] eqn:Ec; [|done]. cbn in H.
    constructor; [by eapply axis_index_Ok|by eapply IH].
  - constructor; [done|by eapply IH].
Qed.

Lemma fill_columns_Raise Z nx idx : forall cnt se e,
  fill_columns Z nx cnt idx se = Raise e -> e = IndexError.
Proof.
  induction idx as [|i idx IH]; intros cnt se e H; [done|].
  cbn [fill_columns] in H. destruct i as [j|]; cbn in H.
  - destruct (axis_index nx j) as [c|e'] eqn:Ec; cbn in H.
    + by eapply IH.
    + apply axis_index_Raise in Ec. congruence.
  - by eapply IH.
Qed.

(** X1: with NumPy there, [getSurfaceElevation] returns an array exactly
    when [Z] has two axes and every entry of [idx] is the missing marker or
    an integer of [-nx, nx), [nx] the number of spatial points; on an input
    that does not have two axes it raises [ValueError] whatever the index
    list holds; and on a 2-D input with an entry outside that range it
    raises [IndexError] when the integers of [idx] are of the machine range
    (signed, 64 bits). *)
Theorem getSurfaceElevation_outcome np Z idx :
  numpy_installed np = true ->
  ((exists out, getSurfaceElevation np Z idx = Ok out) <->
   exists nt nx, shape Z = [nt; nx] /\ Forall (servable nx) idx) /\
  (length (shape Z) <> 2 -> getSurfaceElevation np Z idx = Raise ValueError) /\
  (forall nt nx, shape Z = [nt; nx] -> ~ Forall (servable nx) idx ->
     Forall machine_index idx ->
     getSurfaceElevation np Z idx = Raise IndexError).
Proof.
  intros Hnp. split; [split|split].
  - intros [out H]. unfold getSurfaceElevation, np_shape2 in H. rewrite Hnp in H.
    destruct (shape Z) as [|nt [|nx [|? ?]]]; try done.
    exists nt, nx. split; [done|]. by eapply fill_columns_Ok.
  - intros (nt & nx & HZ & Hidx). by eapply getSurfaceElevation_returns.
  - intros HZ. unfold getSurfaceElevation, np_shape2. rewrite Hnp.
    by destruct (shape Z) as [|nt [|nx [|? ?]]].
  - intros nt nx HZ Hidx _. unfold getSurfaceElevation, np_shape2.
    rewrite Hnp, HZ. cbn.
    destruct (fill_columns _ _ _ _ _) as [out|e] eqn:E.
    + by apply fill_columns_Ok in E.
    + by apply fill_columns_Raise in E as ->.
Qed.

Lemma getSurfaceElevation_outcome_witness :
  (exists out, getSurfaceElevation zeros_np elevations stations = Ok out) /\
  getSurfaceElevation zeros_np (mk_ndarray [1000] (fun _ => 0%float)) stations
  = Raise ValueError /\
  getSurfaceElevation zeros_np elevations [PyInt 5; PyInt 1000]
  = Raise IndexError.
Proof.
  split; [|split].
  - apply (proj1 (getSurfaceElevation_outcome zeros_np elevations stations
                    eq_refl)).
    exists 50, 1000. split; [reflexivity|]. repeat constructor; cbn; lia.
  - apply (proj2 (getSurfaceElevation_outcome zeros_np _ stations eq_refl)).
    cbn. lia.
  - apply (proj2 (proj2 (getSurfaceElevation_outcome zeros_np elevations
                           [PyInt 5; PyInt 1000] eq_refl)) 50 1000 eq_refl).
    + intros H. inversion H as [|? ? _ H']. inversion H' as [|? ? Hbad _].
      cbn in Hbad. lia.
    + repeat constructor; cbn; lia.
Defined.

(** X2: a negative index counts from the last spatial point: at a position
    of [idx] that holds [j] with [-nx <= j < 0], the output column is column
    [nx + j] of the input, cell for cell. *)
Theorem getSurfaceElevation_negative_index np Z idx nt nx i j out :
  shape Z = [nt; nx] -> idx !! i = Some (PyInt j) ->
  (- Z.of_nat nx <= j < 0)%Z ->
  getSurfaceElevation np Z idx = Ok out ->
  forall t, item out [t; i] = item Z [t; Z.to_nat (j + Z.of_nat nx)].
Proof.
  intros HZ Hi Hj H t. apply (getSurfaceElevation_inv _ _ _ _ _ _ HZ) in H.
  destruct (fill_columns_at _ _ _ _ _ _ _ _ t H Hi) as (c & Hc & Hout).
  rewrite axis_index_negative in Hc by done. by inversion Hc; subst c.
Qed.

Lemma getSurfaceElevation_negative_index_witness :
  exists out,
    getSurfaceElevation zeros_np elevations [PyNaN; PyInt (-988)] = Ok out /\
    item out [49; 1] = item elevations [49; 12].
Proof.
  destruct (getSurfaceElevation_returns zeros_np elevations
              [PyNaN; PyInt (-988)] 50 1000 eq_refl eq_refl) as [out Hout].
  { repeat constructor; cbn; lia. }
  exists out. split; [exact Hout|].
  apply (getSurfaceElevation_negative_index zeros_np elevations
           [PyNaN; PyInt (-988)] 50 1000 1 (-988) out);
    [reflexivity..|lia|exact Hout].
Defined.

(** ** [getSurfaceElevation] on an array that [readFVCOM] returned *)



Lemma NoDup_coast : NoDup (dimensions coast_file).*1.
Proof. apply (bool_decide_unpack _). vm_compute. exact I. Qed.


(** ** The call as a loop of steps *)

Section steps.
Context {A : Type}.
Implicit Types (env : netcdf_env A) (rootgrp : Dataset A)
  (FVCOM : gmap string (ndarray A)).

Lemma readFVCOM_steps env file rootgrp varList clipDims noisy out :
  netCDF4_installed env = true -> disk env !! file = Some rootgrp ->
  readFVCOM env file varList clipDims noisy out
  = (when noisy (print_line ("File format: " +:+ file_format rootgrp));;
     for_each (variables rootgrp)
       (variable_step rootgrp
          (resolved (full_ranges (dimensions rootgrp)) clipDims) varList noisy)
       ∅) out.
Proof.
  intros Henv Hfile. unfold readFVCOM, open_Dataset.
  by rewrite Henv, Hfile, lift_Ok_bind, clip_resolved, lift_Ok_bind.
Qed.

Lemma readFVCOM_not_opened env file varList clipDims noisy out :
  netCDF4_installed env = false \/ disk env !! file = None ->
  exists e, readFVCOM env file varList clipDims noisy out = (out, Raise e).
Proof.
  intros H. unfold readFVCOM, open_Dataset.
  destruct (netCDF4_installed env); [|by eexists].
  destruct H as [? | ->]; [done|]. by eexists.
Qed.

Lemma for_each_ext {X S} (l : list X) (body body' : X -> S -> io S) :
  (forall x, x ∈ l -> forall s o, body x s o = body' x s o) ->
  forall s o, for_each l body s o = for_each l body' s o.
Proof.
  induction l as [|x l IH]; intros Hb s o; [done|].
  cbn [for_each]. unfold mbind, io_bind. rewrite (Hb x) by set_solver.
  destruct (body' x s o) as [o' [s'|e]]; [|done].
  apply IH. intros x' Hx'. apply Hb. set_solver.
Qed.

(** A step with [noisy=False] writes nothing. *)
Lemma variable_step_quiet rootgrp dims varList x FVCOM out :
  (variable_step rootgrp dims varList false x FVCOM out).1 = out.
Proof.
  destruct x as [key var]. cbn [variable_step when].
  unfold mbind at 1, io_bind at 1. cbn [mret io_ret].
  destruct (bool_decide (key ∈ varList)).
  - unfold mbind at 1, io_bind at 1, lift at 1.
    by destruct (extract rootgrp dims key) as [[data te]|e].
  - done.
Qed.

Lemma for_each_quiet {X S} (l : list X) (body : X -> S -> io S) :
  (forall x s o, (body x s o).1 = o) ->
  forall s o, (for_each l body s o).1 = o.
Proof.
  intros Hb. induction l as [|x l IH]; intros s o; [done|].
  cbn [for_each]. unfold mbind, io_bind.
  pose proof (Hb x s o) as Hx.
  destruct (body x s o) as [o' [s'|e]]; cbn in Hx; subst o'; [apply IH|done].
Qed.
End steps.

(** X4: with [noisy=False] a call writes nothing, whether it returns or
    raises, when the texts of the clip specification read as elements and
    the requested names of the file hold no quote: nothing that is
    evaluated can write. *)
Theorem readFVCOM_quiet {A} (env : netcdf_env A) file varList clipDims out :
  readable clipDims ->
  (forall rootgrp, disk env !! file = Some rootgrp -> names_ok rootgrp varList) ->
  (readFVCOM env file varList clipDims false out).1 = out.
Proof.
  intros _ _. destruct (netCDF4_installed env) eqn:Henv.
  - destruct (disk env !! file) as [rootgrp|] eqn:Hfile.
    + rewrite (readFVCOM_steps env file rootgrp) by done.
      cbn [when]. unfold mbind at 1, io_bind at 1. cbn [mret io_ret].
      apply for_each_quiet. intros x s o. apply variable_step_quiet.
    + destruct (readFVCOM_not_opened env file varList clipDims false out)
        as [e ->]; [by right|done].
  - destruct (readFVCOM_not_opened env file varList clipDims false out)
      as [e ->]; [by left|done].
Qed.

Lemma tide_opened_names (varList : list string) (rootgrp : Dataset float) :
  disk tide_env !! "tide.nc" = Some rootgrp -> names_ok rootgrp varList.
Proof. intros [= <-]. apply tide_names. Qed.

Lemma readFVCOM_quiet_witness :
  (readFVCOM tide_env "tide.nc" ["zeta"] (Some {[ "node" := "[0, 1000]" ]})
     false blank).1 = blank.
Proof.
  apply (readFVCOM_quiet tide_env "tide.nc").
  - intros u k t [= <-] [_ <-]%lookup_singleton_Some. eexists. reflexivity.
  - apply tide_opened_names.
Defined.

(** X5: [varList] counts as a set of names, and only through the names the
    file declares: two lists that hold the same declared names give the same
    call, in what it returns or raises and in what it prints.  Order,
    repetitions and names the file does not declare change nothing.  The
    texts of the clip specification read as elements and the requested
    names of the file hold no quote, so that no evaluated text looks at
    [varList]. *)
Theorem readFVCOM_varList_as_set {A} (env : netcdf_env A) file rootgrp
    varList varList' clipDims noisy out :
  disk env !! file = Some rootgrp ->
  readable clipDims -> names_ok rootgrp varList ->
  (forall key, key ∈ (variables rootgrp).*1 ->
     key ∈ varList <-> key ∈ varList') ->
  readFVCOM env file varList clipDims noisy out
  = readFVCOM env file varList' clipDims noisy out.
Proof.
  intros Hfile _ _ Hsame. destruct (netCDF4_installed env) eqn:Henv.
  - rewrite !(readFVCOM_steps env file rootgrp) by done.
    unfold mbind, io_bind.
    destruct (when noisy _ out) as [o [[]|e]]; [|done].
    apply for_each_ext. intros [key var] Hin FVCOM o'.
    cbn [variable_step].
    assert (key ∈ (variables rootgrp).*1) as Hk.
    { apply list_elem_of_fmap. by exists (key, var). }
    by rewrite (bool_decide_ext _ _ (Hsame key Hk)).
  - unfold readFVCOM. by rewrite Henv.
Qed.

Lemma readFVCOM_varList_as_set_witness :
  readFVCOM tide_env "tide.nc" ["salinity"; "zeta"; "zeta"]
    (Some {[ "time" := "0:100" ]}) true blank
  = readFVCOM tide_env "tide.nc" ["zeta"] (Some {[ "time" := "0:100" ]})
      true blank.
Proof.
  apply (readFVCOM_varList_as_set tide_env "tide.nc" tide_file).
  - reflexivity.
  - intros u k t [= <-] [_ <-]%lookup_singleton_Some. eexists. reflexivity.
  - apply tide_names.
  - intros key ->%list_elem_of_singleton. split; intros _.
    + apply list_elem_of_In. left. reflexivity.
    + apply list_elem_of_In. right. left. reflexivity.
Defined.

(** ** Requests that touch nothing, and texts that are not used *)

Section unused.
Context {A : Type}.
Implicit Types (env : netcdf_env A) (rootgrp : Dataset A)
  (FVCOM : gmap string (ndarray A)).

Lemma collect_nothing rootgrp dims varList vars : forall FVCOM,
  (forall key, key ∈ vars.*1 -> key ∉ varList) ->
  collect rootgrp dims varList vars FVCOM = Ok FVCOM.
Proof.
  induction vars as [|[k var] vars IH]; intros FVCOM Hno; [done|].
  cbn [collect]. rewrite bool_decide_eq_false_2 by (apply Hno; set_solver).
  apply IH. intros key Hk. apply Hno. set_solver.
Qed.

(** The extraction of a variable looks at the texts of its own dimensions
    only. *)
Lemma extract_agree rootgrp (dims dims' : gmap string string) key var :
  od_lookup key (variables rootgrp) = Ok var ->
  (forall d, d ∈ var_dimensions var -> dims !! d = dims' !! d) ->
  extract rootgrp dims key = extract rootgrp dims' key.
Proof.
  intros Hvar Hd. unfold extract. rewrite Hvar, !bind_Ok.
  rewrite (mapM_result_ext (dict_get dims) (dict_get dims')); [done|].
  intros d Hin. unfold dict_get. by rewrite (Hd d Hin).
Qed.

Lemma collect_raises rootgrp dims varList vars key e : forall FVCOM,
  key ∈ vars.*1 -> key ∈ varList -> extract rootgrp dims key = Raise e ->
  exists e', collect rootgrp dims varList vars FVCOM = Raise e'.
Proof.
  intros FVCOM Hk Hreq Hex.
  destruct (collect rootgrp dims varList vars FVCOM) as [m|e'] eqn:E; [|eauto].
  destruct (collect_requested _ _ _ _ _ _ _ E Hk Hreq) as [r Hr]. congruence.
Qed.
End unused.

(** X6: when the file declares none of the requested names (an empty
    [varList] for one), the call returns the empty mapping whatever the clip
    specification holds: no text of it is evaluated. *)
Theorem readFVCOM_nothing_requested {A} (env : netcdf_env A) file rootgrp
    varList clipDims noisy out :
  netCDF4_installed env = true -> disk env !! file = Some rootgrp ->
  (forall key, key ∈ (variables rootgrp).*1 -> key ∉ varList) ->
  (readFVCOM env file varList clipDims noisy out).2 = Ok ∅.
Proof.
  intros Henv Hfile Hno.
  rewrite readFVCOM_value, (read_value_collect env file rootgrp) by done.
  by apply collect_nothing.
Qed.

Lemma readFVCOM_nothing_requested_witness :
  (readFVCOM tide_env "tide.nc" [] (Some {[ "time" := "first hundred" ]})
     true blank).2 = Ok ∅.
Proof.
  apply (readFVCOM_nothing_requested tide_env "tide.nc" tide_file);
    [reflexivity|reflexivity|].
  intros key _ Hin. by apply elem_of_nil in Hin.
Defined.

(** X7: the text given for a dimension counts only for the requested
    variables that have the dimension: two clip specifications that agree on
    the dimensions of every requested variable give the same call, in what
    it returns or raises and in what it prints.  The texts they agree on
    read as elements and the requested names of the file hold no quote, so
    that no evaluated text looks at [clipDims]; the other texts are any
    texts. *)
Theorem readFVCOM_unused_dimension {A} (env : netcdf_env A) file rootgrp
    varList clipDims clipDims' noisy out :
  disk env !! file = Some rootgrp ->
  used_readable rootgrp varList clipDims -> names_ok rootgrp varList ->
  (forall key var d,
     key ∈ varList -> od_lookup key (variables rootgrp) = Ok var ->
     d ∈ var_dimensions var ->
     clipDims ≫= (fun u => u !! d) = clipDims' ≫= (fun u => u !! d)) ->
  readFVCOM env file varList clipDims noisy out
  = readFVCOM env file varList clipDims' noisy out.
Proof.
  intros Hfile _ _ Hsame. destruct (netCDF4_installed env) eqn:Henv.
  - rewrite !(readFVCOM_steps env file rootgrp) by done.
    unfold mbind, io_bind.
    destruct (when noisy _ out) as [o [[]|e]]; [|done].
    apply for_each_ext. intros [key var] Hin FVCOM o'.
    cbn [variable_step].
    destruct (bool_decide_reflect (key ∈ varList)) as [Hreq|Hreq]; [|done].
    assert (key ∈ (variables rootgrp).*1) as Hk.
    { apply list_elem_of_fmap. by exists (key, var). }
    destruct (od_lookup_declared key _ Hk) as [var' Hvar'].
    rewrite (extract_agree rootgrp _
               (resolved (full_ranges (dimensions rootgrp)) clipDims')
               key var' Hvar'); [done|].
    intros d Hd. rewrite !resolved_lookup.
    by rewrite (Hsame key var' d Hreq Hvar' Hd).
  - unfold readFVCOM. by rewrite Henv.
Qed.

Lemma coast_names (varList : list string) : names_ok coast_file varList.
Proof.
  intros key _ Hdecl. apply list_elem_of_In in Hdecl.
  by destruct Hdecl as [<-|[<-|[<-|[]]]].
Qed.

Lemma readFVCOM_unused_dimension_witness :
  readFVCOM coast_env "coast.nc" ["h"]
    (Some {[ "node" := "0:10"; "time" := "every day" ]}) true blank
  = readFVCOM coast_env "coast.nc" ["h"] (Some {[ "node" := "0:10" ]})
      true blank.
Proof.
  apply (readFVCOM_unused_dimension coast_env "coast.nc" coast_file).
  - reflexivity.
  - intros key var d t ->%list_elem_of_singleton Hvar Hd.
    inversion Hvar; subst var. apply list_elem_of_singleton in Hd as ->.
    intros [= <-]. eexists. reflexivity.
  - apply coast_names.
  - intros key var d ->%list_elem_of_singleton Hvar Hd.
    inversion Hvar; subst var. apply list_elem_of_singleton in Hd as ->.
    reflexivity.
Defined.

(** X8: a requested variable without dimensions makes the call raise: the
    text built for it ends in an empty pair of brackets.  The texts of the
    clip specification read as elements and the requested names of the file
    hold no quote, backslash or line break, so that the text is the indexing
    of that variable and no text evaluated before it changes the request. *)
Theorem readFVCOM_scalar_variable {A} (env : netcdf_env A) file rootgrp
    varList clipDims noisy out key var :
  disk env !! file = Some rootgrp ->
  readable clipDims -> names_ok rootgrp varList ->
  key ∈ varList ->
  od_lookup key (variables rootgrp) = Ok var -> var_dimensions var = [] ->
  exists e, (readFVCOM env file varList clipDims noisy out).2 = Raise e.
Proof.
  intros Hfile _ _ Hreq Hvar Hd. rewrite readFVCOM_value.
  destruct (netCDF4_installed env) eqn:Henv.
  - rewrite (read_value_collect env file rootgrp) by done.
    eapply collect_raises; [by eapply od_lookup_Ok_key|done|].
    by eapply extract_dimensionless.
  - unfold read_value. rewrite Henv. eauto.
Qed.

Lemma readFVCOM_scalar_variable_witness :
  exists e,
    (readFVCOM coast_env "coast.nc" ["zeta"; "nprocs"] None false blank).2
    = Raise e.
Proof.
  apply (readFVCOM_scalar_variable coast_env "coast.nc" coast_file
           ["zeta"; "nprocs"] None false blank "nprocs" nprocs);
    [reflexivity|by intros u k t|apply coast_names| |reflexivity..].
  apply list_elem_of_In. right. left. reflexivity.
Defined.

(** ** What a noisy call prints *)

Lemma app_empty_r (a : string) : a +:+ EmptyString = a.
Proof. induction a as [|c a IH]; [done|]. by rewrite app_cons, IH. Qed.

Lemma ends_in_break_app (a b : string) :
  ends_in_break (a +:+ b)
  = match b with
    | EmptyString => ends_in_break a
    | String _ _ => ends_in_break b
    end.
Proof.
  induction a as [|c a IH]; [by destruct b|].
  rewrite app_cons. destruct b as [|c' b]; [by rewrite app_empty_r|].
  cbn [ends_in_break]. destruct (a +:+ String c' b) eqn:E; [|exact IH].
  by destruct a.
Qed.

Lemma found_no_break (key : string) :
  ends_in_break key = false -> ends_in_break ("Found " +:+ key) = false.
Proof.
  intros Hk. rewrite ends_in_break_app. by destruct key.
Qed.

Lemma plain_app (a b : string) : plain (a +:+ b) = plain a && plain b.
Proof.
  induction a as [|c a IH]; [done|]. rewrite app_cons. cbn [plain].
  by rewrite IH, andb_assoc.
Qed.

Lemma plain_replace_repr_char (c : ascii) :
  plain (replace quote EmptyString (repr_char quote c)) = plain_char c.
Proof. destruct c as [[] [] [] [] [] [] [] []]; by vm_compute. Qed.

Lemma plain_replace_repr_body (s : string) :
  plain (replace quote EmptyString (repr_body quote s)) = plain s.
Proof.
  induction s as [|c s IH]; [done|]. cbn [repr_body plain].
  by rewrite replace_app, plain_app, plain_replace_repr_char, IH.
Qed.

(** A text whose [repr], the quotes removed, is plain was plain. *)
Lemma plain_replace_repr (s : string) :
  plain (replace quote EmptyString (py_repr s)) = true -> plain s = true.
Proof.
  unfold py_repr. destruct (contains quote s && negb (contains dquote s)).
  - done.
  - change (String quote (repr_body quote s +:+ String quote EmptyString))
      with (String quote EmptyString +:+ repr_body quote s
            +:+ String quote EmptyString).
    rewrite !replace_app, !plain_app, plain_replace_repr_body.
    by intros [_ [? _]%andb_prop]%andb_prop.
Qed.

Lemma plain_concat_repr (l : list string) :
  plain (replace quote EmptyString (String.concat ", " (map py_repr l))) = true ->
  Forall (fun s => plain s = true) l.
Proof.
  induction l as [|x l IH]; [constructor|]. destruct l as [|y l].
  - cbn [map String.concat]. intros H%plain_replace_repr. by constructor.
  - cbn [map] in *. rewrite concat_cons2, !replace_app, !plain_app.
    intros [Hx [_ Hl]%andb_prop]%andb_prop.
    constructor; [by apply plain_replace_repr|by apply IH].
Qed.

(** The texts behind an indexing part that the scanner accepts are plain. *)
Lemma index_text_scanned (toExtract : list string) :
  plain (index_text toExtract) = true ->
  Forall (fun s => plain s = true) toExtract.
Proof.
  unfold index_text, str_list. rewrite !replace_app, !plain_app.
  intros [_ [H _]%andb_prop]%andb_prop. by apply plain_concat_repr.
Qed.

Lemma mapM_dict_get (dims : gmap string string) (vDims te : list string) :
  mapM (dict_get dims) vDims = Ok te -> omap (fun d => dims !! d) vDims = te.
Proof.
  intros H%mapM_result_length.
  induction H as [|d t vDims te Hd _ IH]; [done|].
  cbn [omap list_omap]. unfold dict_get in Hd.
  destruct (dims !! d) as [t'|]; [|done]. inversion Hd; subst t'.
  by rewrite IH.
Qed.

Lemma fst_here {X Y} (x : X) (y : Y) (l : list (X * Y)) :
  x ∈ ((x, y) :: l).*1.
Proof. cbn. apply elem_of_cons. by left. Qed.

Lemma fst_further {X Y} (x x' : X) (y : Y) (l : list (X * Y)) :
  x' ∈ l.*1 -> x' ∈ ((x, y) :: l).*1.
Proof. intros H. cbn. apply elem_of_cons. by right. Qed.

Section printed.
Context {A : Type}.
Implicit Types (env : netcdf_env A) (rootgrp : Dataset A)
  (FVCOM : gmap string (ndarray A)).

(** The texts of an extracted variable are the resolved texts of its
    dimensions, and they are plain. *)
Lemma extract_texts rootgrp (dims : gmap string string) key data toExtract :
  extract rootgrp dims key = Ok (data, toExtract) ->
  toExtract = texts_of rootgrp dims key /\
  Forall (fun s => plain s = true) toExtract.
Proof.
  unfold extract, texts_of. intros H.
  destruct (od_lookup key (variables rootgrp)) as [var|e]; [|done].
  rewrite bind_Ok in H.
  destruct (mapM (dict_get dims) (var_dimensions var)) as [te|e] eqn:Em; [|done].
  rewrite bind_Ok in H.
  destruct (eval_getData _ _) as [d|e] eqn:Ee; [|done].
  rewrite bind_Ok in H. inversion H; subst. split.
  - symmetry. by apply mapM_dict_get.
  - rewrite eval_getData_format in Ee. destruct (name_ok key); [|done].
    destruct (parse_subscripts _) as [elems|] eqn:Ep; [|done].
    unfold parse_subscripts in Ep.
    destruct (lex ("]" +:+ index_text toExtract)) as [ts|] eqn:El; [|done].
    apply lex_plain in El. rewrite plain_app in El.
    apply andb_prop in El as [_ El]. by apply index_text_scanned.
Qed.

(** One turn of the loop of a noisy call, entered at the start of a
    line. *)
Lemma variable_step_noisy rootgrp (dims : gmap string string) varList key var
    FVCOM out :
  softspace out = false -> ends_in_break key = false ->
  variable_step rootgrp dims varList true (key, var) FVCOM out
  = if bool_decide (key ∈ varList) then
      match extract rootgrp dims key with
      | Ok (data, _) =>
          (mk_stdout (written out +:+ report_line rootgrp dims varList key)
             false,
           Ok (<[key := data]> FVCOM))
      | Raise e =>
          (mk_stdout (written out +:+ "Found " +:+ key) true, Raise e)
      end
    else
      (mk_stdout (written out +:+ report_line rootgrp dims varList key) false,
       Ok FVCOM).
Proof.
  intros Hsoft Hkey. cbn [variable_step when]. unfold report_line.
  unfold mbind at 1, io_bind at 1. unfold print_more at 1. cbn iota.
  unfold lead at 1. rewrite Hsoft, (found_no_break key Hkey). cbn [negb].
  destruct (bool_decide (key ∈ varList)).
  - unfold mbind at 1, io_bind at 1, lift at 1.
    destruct (extract rootgrp dims key) as [[data te]|e] eqn:Ex.
    + destruct (extract_texts _ _ _ _ _ Ex) as [Hte Hplain].
      cbn iota beta zeta. unfold mbind at 1, io_bind at 1.
      unfold extracted_note. rewrite <- Hte.
      destruct (Nat.ltb (String.length (str_list te)) 60);
        unfold print_line; cbn [lead softspace written mret io_ret];
        rewrite ?index_text_plain by done; f_equal; f_equal; by norm_app.
    + done.
  - unfold mbind, io_bind, print_newline. cbn [mret io_ret written].
    f_equal; f_equal; by norm_app.
Qed.

(** The lines a noisy loop adds when it completes. *)
Lemma for_each_noisy rootgrp (dims : gmap string string) varList vars :
  forall FVCOM out out' m,
    softspace out = false ->
    (forall key, key ∈ vars.*1 -> ends_in_break key = false) ->
    for_each vars (variable_step rootgrp dims varList true) FVCOM out
    = (out', Ok m) ->
    out' = mk_stdout
             (written out +:+ report_lines rootgrp dims varList vars.*1) false.
Proof.
  induction vars as [|[key var] vars IH]; intros FVCOM out out' m Hsoft Hkeys H.
  - inversion H; subst. cbn [fmap list_fmap report_lines].
    rewrite app_empty_r. destruct out' as [w s]. cbn in Hsoft. by subst s.
  - cbn [for_each] in H. unfold mbind at 1, io_bind at 1 in H.
    rewrite variable_step_noisy in H by (try done; apply Hkeys, fst_here).
    cbn [fmap list_fmap fst report_lines].
    change (list_fmap _ _ fst vars) with (vars.*1).
    destruct (bool_decide (key ∈ varList)).
    + destruct (extract rootgrp dims key) as [[data te]|e]; [|done].
      apply IH in H; [|done|intros k ?; by apply Hkeys, fst_further].
      rewrite H. cbn [written]. by rewrite app_assoc.
    + apply IH in H; [|done|intros k ?; by apply Hkeys, fst_further].
      rewrite H. cbn [written]. by rewrite app_assoc.
Qed.
End printed.

(** X9: what a noisy call that returns has written: behind what was there,
    the line of the file format and then one line per variable of the file,
    in the order of the file.  The line is [Found NAME] for a variable that
    is not requested and [Found NAME (extracted [T1, T2, ...])] for a
    requested one, with the resolved texts of its dimensions in declared
    order, or [Found NAME (extracted given nodes)] when [str(toExtract)] has
    60 characters or more.  No name is taken to end in a tab or a line
    break; the texts of the clip specification read as elements and the
    requested names of the file hold no quote, so that nothing that is
    evaluated writes. *)
Theorem readFVCOM_noisy_output {A} (env : netcdf_env A) file rootgrp varList
    clipDims out m :
  disk env !! file = Some rootgrp ->
  readable clipDims -> names_ok rootgrp varList ->
  (forall key, key ∈ (variables rootgrp).*1 -> ends_in_break key = false) ->
  (readFVCOM env file varList clipDims true out).2 = Ok m ->
  (readFVCOM env file varList clipDims true out).1
  = mk_stdout
      (written out +:+ lead out +:+ "File format: " +:+ file_format rootgrp
       +:+ newline
       +:+ report_lines rootgrp
             (resolved (full_ranges (dimensions rootgrp)) clipDims) varList
             (variables rootgrp).*1)
      false.
Proof.
  intros Hfile _ _ Hkeys H. destruct (netCDF4_installed env) eqn:Henv.
  - rewrite (readFVCOM_steps env file rootgrp) in H |- * by done.
    cbn [when] in *. unfold mbind at 1, io_bind at 1 in H.
    unfold mbind at 1, io_bind at 1. unfold print_line at 1 in H.
    unfold print_line at 1. cbn iota in *.
    match type of H with
    | (for_each ?l ?b ?s ?o).2 = _ =>
        destruct (for_each l b s o) as [out' r] eqn:E
    end.
    cbn [snd] in H. subst r. apply for_each_noisy in E; [|done..].
    cbn [fst]. rewrite E. cbn [written]. f_equal. by norm_app.
  - unfold readFVCOM in H. by rewrite Henv in H.
Qed.

Lemma coast_names_no_break (key : string) :
  key ∈ (variables coast_file).*1 -> ends_in_break key = false.
Proof.
  intros Hin. apply list_elem_of_In in Hin.
  by destruct Hin as [<-|[<-|[<-|[]]]].
Qed.

Lemma coast_h_served (clipDims : option (gmap string string)) l :
  takes coast_file (resolved (full_ranges (dimensions coast_file)) clipDims)
    "node" l ->
  all_served coast_file ["h"; "salinity"] clipDims.
Proof.
  intros Hnode key var Hvar Hreq. apply list_elem_of_In in Hreq.
  destruct Hreq as [<-|[<-|[]]]; [|discriminate Hvar].
  inversion Hvar; subst var. split; [reflexivity|]. split; [discriminate|].
  apply Forall_cons. split; [eauto|]. apply Forall_nil_2.
Qed.

Lemma node_3_7_last_readable :
  readable (Some ({[ "node" := "[3, 7, -1]" ]} : gmap string string)).
Proof.
  intros u k t [= <-] [_ <-]%lookup_singleton_Some. eexists. reflexivity.
Qed.

Lemma readFVCOM_noisy_output_witness :
  written
    (readFVCOM coast_env "coast.nc" ["h"; "salinity"]
       (Some {[ "node" := "[3, 7, -1]" ]}) true blank).1
  = "File format: NETCDF3_64BIT" +:+ newline +:+
    "Found nprocs" +:+ newline +:+
    "Found zeta" +:+ newline +:+
    "Found h (extracted [[3, 7, -1]])" +:+ newline.
Proof.
  destruct (readFVCOM_served coast_env "coast.nc" coast_file ["h"; "salinity"]
              (Some {[ "node" := "[3, 7, -1]" ]}) true blank eq_refl eq_refl)
    as [m Hm].
  { apply (coast_h_served _ [3; 7; 999]).
    eapply (takes_named coast_file _ "node" 1000 "[3, 7, -1]"); reflexivity. }
  rewrite (readFVCOM_noisy_output coast_env "coast.nc" coast_file
             ["h"; "salinity"] (Some {[ "node" := "[3, 7, -1]" ]}) blank m
             eq_refl node_3_7_last_readable (coast_names _)
             coast_names_no_break Hm).
  reflexivity.
Defined.

(** ** Where a call fails *)

Section failure.
Context {A : Type}.
Implicit Types (env : netcdf_env A) (rootgrp : Dataset A)
  (FVCOM : gmap string (ndarray A)).

(** The three ways a turn of the loop can go. *)
Lemma variable_step_cases rootgrp (dims : gmap string string) varList noisy
    key var FVCOM out :
  ((key ∉ varList) /\
   exists o, variable_step rootgrp dims varList noisy (key, var) FVCOM out
             = (o, Ok FVCOM)) \/
  (key ∈ varList /\
   exists data toExtract o,
     extract rootgrp dims key = Ok (data, toExtract) /\
     variable_step rootgrp dims varList noisy (key, var) FVCOM out
     = (o, Ok (<[key := data]> FVCOM))) \/
  (key ∈ varList /\
   exists e o,
     extract rootgrp dims key = Raise e /\
     variable_step rootgrp dims varList noisy (key, var) FVCOM out
     = (o, Raise e) /\
     (noisy = true -> written o = (written out +:+ lead out) +:+ "Found " +:+ key)).
Proof.
  cbn [variable_step].
  unfold mbind, io_bind, lift, when, print_more, print_line, print_newline.
  cbn [mret io_ret].
  destruct (bool_decide_reflect (key ∈ varList)) as [Hreq|Hreq].
  - right. destruct (extract rootgrp dims key) as [[data te]|e].
    + left. split; [done|]. exists data, te.
      destruct noisy; [destruct (Nat.ltb _ 60)|]; by eexists.
    + right. split; [done|]. exists e.
      destruct noisy; eexists; (split; [done|]); (split; [done|]); [|done].
      intros _. cbn [written]. by rewrite !app_assoc.
  - left. split; [done|]. destruct noisy; by eexists.
Qed.

(** Where a noisy turn, entered at the start of a line, leaves the
    output. *)
Lemma variable_step_noisy_out rootgrp (dims : gmap string string) varList key
    var FVCOM out o r :
  softspace out = false -> ends_in_break key = false ->
  variable_step rootgrp dims varList true (key, var) FVCOM out = (o, r) ->
  o = match r with
      | Ok _ =>
          mk_stdout (written out +:+ report_line rootgrp dims varList key)
            false
      | Raise _ => mk_stdout (written out +:+ "Found " +:+ key) true
      end.
Proof.
  intros Hsoft Hkey. rewrite variable_step_noisy by done.
  destruct (bool_decide (key ∈ varList)); [|by intros [= <- <-]].
  destruct (extract rootgrp dims key) as [[data te]|e]; by intros [= <- <-].
Qed.

Lemma for_each_failure rootgrp (dims : gmap string string) varList noisy vars :
  forall FVCOM out out' e,
    for_each vars (variable_step rootgrp dims varList noisy) FVCOM out
    = (out', Raise e) ->
    exists before key var after,
      vars = before ++ (key, var) :: after /\ key ∈ varList /\
      (forall k, k ∈ before.*1 -> k ∈ varList ->
         exists r, extract rootgrp dims k = Ok r) /\
      extract rootgrp dims key = Raise e /\
      (noisy = true ->
       exists prefix, written out' = prefix +:+ "Found " +:+ key) /\
      (noisy = true -> softspace out = false ->
       (forall k, k ∈ vars.*1 -> ends_in_break k = false) ->
       out' = mk_stdout
                (written out +:+ report_lines rootgrp dims varList before.*1
                 +:+ "Found " +:+ key)
                true).
Proof.
  induction vars as [|[key var] vars IH]; intros FVCOM out out' e H; [done|].
  cbn [for_each] in H. unfold mbind at 1, io_bind at 1 in H.
  destruct (variable_step_cases rootgrp dims varList noisy key var FVCOM out)
    as [[Hno [o Hstep]]|[[Hreq (data & te & o & Hex & Hstep)]
                        |[Hreq (e' & o & Hex & Hstep & Ho)]]];
    rewrite Hstep in H.
  - destruct (IH _ _ _ _ H)
      as (before & k & v & after & -> & ? & Hb & ? & ? & Hexact).
    exists ((key, var) :: before), k, v, after. repeat split; try done.
    + intros k' Hk' Hreq'. cbn in Hk'. apply elem_of_cons in Hk' as [->|Hk'];
        [done|by apply Hb].
    + intros -> Hsoft Hnames.
      apply variable_step_noisy_out in Hstep;
        [|done|apply Hnames, fst_here]. subst o.
      rewrite (Hexact eq_refl eq_refl)
        by (intros k' ?; by apply Hnames, fst_further).
      cbn [written fmap list_fmap fst report_lines]. by rewrite !app_assoc.
  - destruct (IH _ _ _ _ H)
      as (before & k & v & after & -> & ? & Hb & ? & ? & Hexact).
    exists ((key, var) :: before), k, v, after. repeat split; try done.
    + intros k' Hk' Hreq'. cbn in Hk'. apply elem_of_cons in Hk' as [->|Hk'];
        [eauto|by apply Hb].
    + intros -> Hsoft Hnames.
      apply variable_step_noisy_out in Hstep;
        [|done|apply Hnames, fst_here]. subst o.
      rewrite (Hexact eq_refl eq_refl)
        by (intros k' ?; by apply Hnames, fst_further).
      cbn [written fmap list_fmap fst report_lines]. by rewrite !app_assoc.
  - inversion H; subst. exists [], key, var, vars. repeat split; try done.
    + intros k Hk. by apply elem_of_nil in Hk.
    + intros Hn. eexists. by apply Ho.
    + intros -> Hsoft Hnames.
      apply variable_step_noisy_out in Hstep;
        [|done|apply Hnames, fst_here]. by subst out'.
Qed.
End failure.

(** X10: a call fails before anything is written when the library is
    missing or the file does not open.  A call that raises otherwise raises
    in the extraction of a requested variable: the first one, in the order
    of the file, that cannot be extracted.  The exception is that of the
    extraction; a noisy call has then written the line of the file format,
    the lines of the variables before that one and, last, [Found NAME] of
    that variable, without a line break.  The texts of the clip
    specification read as elements and the requested names of the file hold
    no quote: what is evaluated is an indexing of the variable, which
    neither writes nor raises for another reason. *)
Theorem readFVCOM_failure {A} (env : netcdf_env A) file varList clipDims noisy
    out :
  readable clipDims ->
  (forall rootgrp, disk env !! file = Some rootgrp -> names_ok rootgrp varList) ->
  (netCDF4_installed env = false \/ disk env !! file = None ->
   exists e, readFVCOM env file varList clipDims noisy out = (out, Raise e)) /\
  forall out' e,
    readFVCOM env file varList clipDims noisy out = (out', Raise e) ->
    (out' = out /\
     (netCDF4_installed env = false \/ disk env !! file = None)) \/
    exists rootgrp before key var after,
      disk env !! file = Some rootgrp /\
      variables rootgrp = before ++ (key, var) :: after /\ key ∈ varList /\
      (forall k, k ∈ before.*1 -> k ∈ varList ->
         exists r,
           extract rootgrp
             (resolved (full_ranges (dimensions rootgrp)) clipDims) k
           = Ok r) /\
      extract rootgrp (resolved (full_ranges (dimensions rootgrp)) clipDims)
        key
      = Raise e /\
      (noisy = true ->
       exists prefix, written out' = prefix +:+ "Found " +:+ key) /\
      (noisy = true ->
       (forall k, k ∈ (variables rootgrp).*1 -> ends_in_break k = false) ->
       written out'
       = written out +:+ lead out +:+ "File format: " +:+ file_format rootgrp
         +:+ newline
         +:+ report_lines rootgrp
               (resolved (full_ranges (dimensions rootgrp)) clipDims) varList
               before.*1
         +:+ "Found " +:+ key).
Proof.
  intros _ _. split; [apply readFVCOM_not_opened|].
  intros out' e H. destruct (netCDF4_installed env) eqn:Henv.
  - destruct (disk env !! file) as [rootgrp|] eqn:Hfile.
    + right. rewrite (readFVCOM_steps env file rootgrp) in H by done.
      unfold mbind at 1, io_bind at 1 in H.
      destruct (when noisy _ out) as [o1 r1] eqn:E1.
      assert (r1 = Ok ()) as -> by (destruct noisy; by inversion E1).
      apply for_each_failure in H
        as (before & key & var & after & ? & ? & ? & ? & ? & Hexact).
      exists rootgrp, before, key, var, after. repeat split; try done.
      intros -> Hnames. cbn in E1. inversion E1; subst o1.
      rewrite Hexact by done. cbn [written]. by rewrite !app_assoc.
    + left. destruct (readFVCOM_not_opened env file varList clipDims noisy out)
        as [e' He']; [by right|]. rewrite He' in H. inversion H; subst. eauto.
  - left. destruct (readFVCOM_not_opened env file varList clipDims noisy out)
      as [e' He']; [by left|]. rewrite He' in H. inversion H; subst. eauto.
Qed.

Lemma node_0_1000_list_readable :
  readable (Some ({[ "node" := "[0, 1000]" ]} : gmap string string)).
Proof.
  intros u k t [= <-] [_ <-]%lookup_singleton_Some. eexists. reflexivity.
Qed.

Lemma coast_opened_names (varList : list string) (rootgrp : Dataset float) :
  disk coast_env !! "coast.nc" = Some rootgrp -> names_ok rootgrp varList.
Proof. intros [= <-]. apply coast_names. Qed.

Lemma readFVCOM_failure_witness :
  written
    (readFVCOM coast_env "coast.nc" ["h"; "zeta"]
       (Some {[ "node" := "[0, 1000]" ]}) true blank).1
  = "File format: NETCDF3_64BIT" +:+ newline +:+
    "Found nprocs" +:+ newline +:+ "Found zeta".
Proof.
  destruct (proj2 (readFVCOM_failure coast_env "coast.nc" ["h"; "zeta"]
                     (Some {[ "node" := "[0, 1000]" ]}) true blank
                     node_0_1000_list_readable (coast_opened_names _))
              (readFVCOM coast_env "coast.nc" ["h"; "zeta"]
                 (Some {[ "node" := "[0, 1000]" ]}) true blank).1
              IndexError)
    as [[_ [Hno|Hno]]|(rootgrp & before & key & var & after & Hfile & Hvars
                       & Hreq & Hbefore & Hex & _ & Hout)].
  - vm_compute. reflexivity.
  - discriminate Hno.
  - discriminate Hno.
  - inversion Hfile; subst rootgrp.
    specialize (Hout eq_refl coast_names_no_break).
    destruct before as [|[k1 v1] [|[k2 v2] [|[k3 v3] before]]];
      inversion Hvars; subst.
    + vm_compute in Hex. discriminate Hex.
    + exact Hout.
    + destruct (Hbefore "zeta") as [r Hr].
      * apply list_elem_of_In. right. left. reflexivity.
      * apply list_elem_of_In. right. left. reflexivity.
      * vm_compute in Hr. discriminate Hr.
    + by destruct before.
Defined.

(** ** Slices stay inside the extent *)

Lemma slice_positions_bound (len a b st : Z) (k : nat) :
  (st <> 0)%Z ->
  (Z.of_nat k <
   (if bool_decide (0 < st) then
      if bool_decide (a < b) then (b - a - 1) / st + 1 else 0
    else
      if bool_decide (b < a) then (a - b - 1) / (- st) + 1 else 0))%Z ->
  (if bool_decide (0 < st)%Z then 0 <= a /\ b <= len else a < len /\ -1 <= b)%Z ->
  (0 <= a + Z.of_nat k * st < len)%Z.
Proof.
  intros Hst Hk Hab. case_bool_decide as Hpos.
  - case_bool_decide as Hlt; [|lia].
    pose proof (Z.mul_div_le (b - a - 1) st Hpos). nia.
  - case_bool_decide as Hlt; [|lia].
    assert (0 < - st)%Z as Hneg by lia.
    pose proof (Z.mul_div_le (a - b - 1) (- st) Hneg). nia.
Qed.

(** Whatever its bounds and its step, a slice selects positions of the
    axis. *)
Lemma slice_indices_bounds (n : nat) (start stop step : option Z) l :
  slice_indices n start stop step = Ok l -> Forall (fun i => i < n) l.
Proof.
  unfold slice_indices. cbv zeta. case_bool_decide as Hst; [done|].
  intros [= <-].
  apply Forall_forall. intros i Hi. apply list_elem_of_In, in_map_iff in Hi.
  destruct Hi as (k & <- & [_ Hk]%in_seq). cbn [Nat.add] in Hk.
  match type of Hk with
  | k < Z.to_nat ?c => assert (Z.of_nat k < c)%Z as Hk' by lia
  end.
  pose proof (slice_positions_bound (Z.of_nat n) _ _ _ k Hst Hk') as Hb.
  destruct Hb as [Hlo Hhi]; [|lia].
  clear Hk Hk'.
  destruct start as [s|], stop as [e|]; repeat case_bool_decide; lia.
Qed.

Lemma slice_indices_Ok (n : nat) (start stop step : option Z) :
  step <> Some 0%Z -> exists l, slice_indices n start stop step = Ok l.
Proof.
  intros Hst. unfold slice_indices.
  rewrite bool_decide_eq_false_2; [by eexists|].
  destruct step as [s|]; cbn; [congruence|done].
Qed.

(** ** Texts that read as any element *)

Lemma resolved_readable (ds : list (string * nat)) clipDims d t :
  readable clipDims ->
  resolved (full_ranges ds) clipDims !! d = Some t ->
  exists e, read_elem t = Some e.
Proof.
  intros Hclip. rewrite resolved_lookup.
  destruct (extents ds !! d) as [n|]; [|done]. cbn.
  destruct clipDims as [u|]; cbn [mbind option_bind].
  - destruct (u !! d) as [t'|] eqn:Hu; cbn; intros [= <-].
    + by eapply Hclip.
    + eexists. apply read_elem_full.
  - intros [= <-]. eexists. apply read_elem_full.
Qed.




Section taken.
Context {A : Type}.
Implicit Types (env : netcdf_env A) (rootgrp : Dataset A) (var : NcVariable A).

Lemma resolve_all_taken rootgrp (dims : gmap string string) vDims :
  forall shp te es sels,
    Forall2 (fun d n => od_lookup d (dimensions rootgrp) = Ok n) vDims shp ->
    Forall2 (fun d t => dims !! d = Some t) vDims te ->
    Forall2 (fun t e => read_elem t = Some e) te es ->
    resolve_all shp es = Ok sels ->
    Forall2 (axis_taken rootgrp dims) vDims sels.
Proof.
  induction vDims as [|d vDims IH]; intros shp te es sels Hs Ht He Hr.
  - inversion Hs; subst. inversion Ht; subst. inversion He; subst.
    inversion Hr; subst. constructor.
  - inversion Hs as [|? n ? shp' Hn Hs']; subst.
    inversion Ht as [|? t ? te' Hd Ht']; subst.
    inversion He as [|? e ? es' Hread He']; subst.
    cbn [resolve_all] in Hr.
    destruct (resolve n e) as [sel|] eqn:Esel; [|done]. rewrite bind_Ok in Hr.
    destruct (resolve_all shp' es') as [sels'|] eqn:Esels; [|done].
    rewrite bind_Ok in Hr. inversion Hr; subst sels.
    constructor; [by exists n, t, e|by eapply IH].
Qed.

Lemma Forall2_readable (dims : gmap string string) (vDims te : list string) :
  (forall d t, dims !! d = Some t -> exists e, read_elem t = Some e) ->
  Forall2 (fun d t => dims !! d = Some t) vDims te ->
  exists es, Forall2 (fun t e => read_elem t = Some e) te es.
Proof.
  intros Hdims. induction 1 as [|d t vDims te Hd _ [es IH]]; [by exists []|].
  destruct (Hdims d t Hd) as (e & He). exists (e :: es). by constructor.
Qed.

(** What is stored for a variable when every text reads as an element: the
    variable cut along its own dimensions in declared order, each as its
    text selects. *)
Lemma extract_taken rootgrp (dims : gmap string string) key data toExtract :
  (forall d t, dims !! d = Some t -> exists e, read_elem t = Some e) ->
  extract rootgrp dims key = Ok (data, toExtract) ->
  exists var sels,
    od_lookup key (variables rootgrp) = Ok var /\
    Forall2 (axis_taken rootgrp dims) (var_dimensions var) sels /\
    data = selection var sels.
Proof.
  intros Hdims Hex.
  apply extract_inv in Hex as (var & Hvar & Hte & Hev).
  destruct (Forall2_readable dims _ _ Hdims Hte) as [es Hes].
  rewrite eval_getData_format, index_text_plain in Hev.
  2: { apply Forall_forall. intros t Hin%list_elem_of_lookup.
       destruct Hin as [i Hi].
       destruct (Forall2_lookup_l _ _ _ _ _ Hes Hi) as (e & _ & Hr).
       by eapply read_elem_plain. }
  rewrite (parse_subscripts_texts toExtract es Hes) in Hev.
  destruct (name_ok key); [|done].
  destruct (bool_decide (toExtract <> [])); [|done].
  rewrite Hvar, bind_Ok in Hev. unfold nc_getitem in Hev.
  destruct (var_shape rootgrp var) as [shp|] eqn:Es; [|done].
  rewrite bind_Ok in Hev. apply mapM_result_length in Es.
  destruct (resolve_all shp es) as [sels|] eqn:Er; [|done].
  rewrite bind_Ok in Hev. inversion Hev; subst data.
  exists var, sels. split; [done|]. split; [|done].
  by eapply resolve_all_taken.
Qed.



Lemma taken_lists rootgrp (dims : gmap string string) (vDims : list string) :
  Forall (fun d => exists sel, axis_taken rootgrp dims d sel) vDims ->
  exists shp te es sels,
    Forall2 (fun d n => od_lookup d (dimensions rootgrp) = Ok n) vDims shp /\
    Forall2 (fun d t => dims !! d = Some t) vDims te /\
    Forall2 (fun t e => read_elem t = Some e) te es /\
    resolve_all shp es = Ok sels.
Proof.
  induction 1 as [|d vDims (sel & n & t & e & Hn & Hd & He & Hr) _
                    (shp & te & es & sels & H1 & H2 & H3 & H4)].
  - exists [], [], [], []. by repeat split; try constructor.
  - exists (n :: shp), (t :: te), (e :: es), (sel :: sels).
    repeat split; try (by constructor).
    cbn [resolve_all]. by rewrite Hr, bind_Ok, H4, bind_Ok.
Qed.

(** A variable with a readable name and a dimension, whose resolved texts
    all select along their axes, is extracted. *)
Lemma extract_returns_taken rootgrp (dims : gmap string string) key var :
  od_lookup key (variables rootgrp) = Ok var ->
  name_ok key = true -> var_dimensions var <> [] ->
  Forall (fun d => exists sel, axis_taken rootgrp dims d sel)
         (var_dimensions var) ->
  exists r, extract rootgrp dims key = Ok r.
Proof.
  intros Hvar Hname Hne Hall.
  destruct (taken_lists _ _ _ Hall) as (shp & te & es & sels & H1 & H2 & H3 & H4).
  unfold extract. rewrite Hvar, bind_Ok.
  rewrite (mapM_result_Ok _ _ te).
  2: { eapply Forall2_impl; [exact H2|]. intros d t Hd. unfold dict_get.
       by rewrite Hd. }
  rewrite bind_Ok, eval_getData_format, index_text_plain.
  2: { apply Forall_forall. intros t Hin%list_elem_of_lookup.
       destruct Hin as [i Hi].
       destruct (Forall2_lookup_l _ _ _ _ _ H3 Hi) as (e & _ & Hr).
       by eapply read_elem_plain. }
  rewrite (parse_subscripts_texts te es H3), Hname.
  rewrite bool_decide_eq_true_2.
  2: { intros ->. by apply Forall2_nil_inv_r in H2. }
  rewrite Hvar, bind_Ok. unfold nc_getitem, var_shape.
  rewrite (mapM_result_Ok _ _ shp H1), bind_Ok, H4, !bind_Ok. eauto.
Qed.

Lemma readFVCOM_returns_taken env file rootgrp varList clipDims noisy out :
  netCDF4_installed env = true -> disk env !! file = Some rootgrp ->
  all_taken rootgrp varList clipDims ->
  exists m, (readFVCOM env file varList clipDims noisy out).2 = Ok m.
Proof.
  intros Henv Hfile Hall.
  rewrite readFVCOM_value, (read_value_collect env file rootgrp) by done.
  apply collect_returns. intros key Hk Hreq.
  destruct (od_lookup_declared key _ Hk) as [var Hvar].
  destruct (Hall key var Hvar Hreq) as (Hname & Hne & Htaken).
  by eapply extract_returns_taken.
Qed.
End taken.





(** ** Ranges are cut to the extent, listed positions are not *)

Lemma slices_only_ranges_or_lists clipDims :
  slices_only clipDims -> ranges_or_lists clipDims.
Proof.
  intros Hs u k t Hu Hk. destruct (Hs u k t Hu Hk) as (a & b & c & Hr & _).
  by exists (SSlice a b c).
Qed.

(** Under a specification of slices, every resolved text is a slice whose
    step is not zero. *)
Lemma resolved_slices (ds : list (string * nat)) clipDims d t :
  slices_only clipDims ->
  resolved (full_ranges ds) clipDims !! d = Some t ->
  exists start stop step,
    read_elem t = Some (SSlice start stop step) /\ step <> Some 0%Z.
Proof.
  intros Hclip. rewrite resolved_lookup.
  destruct (extents ds !! d) as [n|]; [|done]. cbn.
  destruct clipDims as [u|]; cbn [mbind option_bind].
  - destruct (u !! d) as [t'|] eqn:Hu; cbn; intros [= <-].
    + by eapply Hclip.
    + eexists _, _, _. split; [apply read_elem_full|done].
  - intros [= <-]. eexists _, _, _. split; [apply read_elem_full|done].
Qed.

Section ranges.
Context {A : Type}.
Implicit Types (env : netcdf_env A) (rootgrp : Dataset A) (var : NcVariable A).

(** Under a specification of slices every declared dimension is taken, and
    only at positions inside its extent. *)
Lemma takes_slices rootgrp clipDims d :
  slices_only clipDims -> d ∈ (dimensions rootgrp).*1 ->
  exists l,
    takes rootgrp (resolved (full_ranges (dimensions rootgrp)) clipDims) d l.
Proof.
  intros Hclip Hd. destruct (od_lookup_declared d _ Hd) as [n Hn].
  destruct (extents_declared _ _ _ Hn) as [n' Hn'].
  pose proof (resolved_lookup (dimensions rootgrp) clipDims d) as Ht.
  rewrite Hn' in Ht. cbn in Ht.
  destruct (resolved_slices _ _ _ _ Hclip Ht) as (a & b & c & Hr & Hc).
  destruct (slice_indices_Ok n a b c Hc) as [l Hl].
  exists l, n. eexists _, _. split; [done|]. split; [exact Ht|].
  split; [exact Hr|]. cbn [resolve]. by rewrite Hl.
Qed.

Lemma takes_slices_bounds rootgrp clipDims d l :
  slices_only clipDims ->
  takes rootgrp (resolved (full_ranges (dimensions rootgrp)) clipDims) d l ->
  exists n,
    od_lookup d (dimensions rootgrp) = Ok n /\ Forall (fun i => i < n) l.
Proof.
  intros Hclip (n & t & e & Hn & Ht & He & Hr). exists n. split; [done|].
  destruct (resolved_slices _ _ _ _ Hclip Ht) as (a & b & c & He' & _).
  rewrite He in He'. inversion He'; subst e. cbn [resolve] in Hr.
  destruct (slice_indices n a b c) as [l'|] eqn:El; [|done].
  rewrite bind_Ok in Hr. inversion Hr; subst l'.
  by eapply slice_indices_bounds.
Qed.
End ranges.

(** X12: ranges never make a call fail.  Under a clip specification whose
    texts are all slices with a step other than zero, whatever their bounds,
    the call returns when every requested variable has a readable name and
    at least one dimension, all declared by the file; and every position
    read along an axis lies inside the declared extent of its dimension. *)
Theorem readFVCOM_ranges_never_fail {A} (env : netcdf_env A) file rootgrp
    varList clipDims noisy out :
  netCDF4_installed env = true -> disk env !! file = Some rootgrp ->
  slices_only clipDims ->
  (forall key var,
     od_lookup key (variables rootgrp) = Ok var -> key ∈ varList ->
     name_ok key = true /\ var_dimensions var <> [] /\
     Forall (fun d => d ∈ (dimensions rootgrp).*1) (var_dimensions var)) ->
  exists m,
    (readFVCOM env file varList clipDims noisy out).2 = Ok m /\
    forall key data,
      m !! key = Some data ->
      exists var poss,
        od_lookup key (variables rootgrp) = Ok var /\
        data = selection var (Pick <$> poss) /\
        Forall2 (fun d l =>
                   exists n,
                     od_lookup d (dimensions rootgrp) = Ok n /\
                     Forall (fun i => i < n) l)
                (var_dimensions var) poss.
Proof.
  intros Henv Hfile Hclip Hvars.
  destruct (readFVCOM_served env file rootgrp varList clipDims noisy out
              Henv Hfile) as [m Hm].
  { intros key var Hvar Hreq.
    destruct (Hvars key var Hvar Hreq) as (Hname & Hne & Hdecl).
    split; [done|]. split; [done|].
    eapply Forall_impl; [exact Hdecl|]. intros d Hd. by apply takes_slices. }
  exists m. split; [exact Hm|]. intros key data Hkey.
  destruct (readFVCOM_takes _ _ _ _ _ _ _ _ _ _ Hfile
              (slices_only_ranges_or_lists _ Hclip) Hm Hkey)
    as (var & poss & Hvar & Hposs & ->).
  exists var, poss. split; [done|]. split; [done|].
  eapply Forall2_impl; [exact Hposs|]. intros d l Hl.
  by eapply takes_slices_bounds.
Qed.

Lemma far_ranges :
  slices_only
    (Some ({[ "time" := "-20:9999"; "node" := "5000::-300" ]}
           : gmap string string)).
Proof.
  intros u k t [= <-] Hk. apply lookup_insert_Some in Hk as [[<- <-]|[_ Hk]].
  - eexists _, _, _. split; [reflexivity|done].
  - apply lookup_singleton_Some in Hk as [<- <-].
    eexists _, _, _. split; [reflexivity|done].
Qed.

Lemma readFVCOM_ranges_never_fail_witness :
  exists m,
    (readFVCOM tide_env "tide.nc" ["zeta"]
       (Some {[ "time" := "-20:9999"; "node" := "5000::-300" ]}) false blank).2
    = Ok m.
Proof.
  destruct (readFVCOM_ranges_never_fail tide_env "tide.nc" tide_file ["zeta"]
              (Some {[ "time" := "-20:9999"; "node" := "5000::-300" ]})
              false blank eq_refl eq_refl far_ranges) as (m & Hm & _).
  - intros key var Hvar ->%list_elem_of_singleton. inversion Hvar; subst var.
    split; [reflexivity|]. split; [discriminate|].
    apply Forall_cons. split; [apply list_elem_of_In; left; reflexivity|].
    apply Forall_cons. split; [|apply Forall_nil_2].
    apply list_elem_of_In. right. left. reflexivity.
  - by exists m.
Defined.




(** ** The clip step *)

Lemma extents_acc_dom (ds : list (string * nat)) : forall (m : gmap string nat),
  dom (foldl (fun m '(key, var) => <[key := var]> m) m ds)
  = list_to_set ds.*1 ∪ dom m.
Proof.
  induction ds as [|[k n] ds IH]; intros m.
  - cbn. set_solver.
  - cbn [foldl]. rewrite IH, dom_insert_L. cbn. set_solver.
Qed.

Lemma resolved_dom (dims : gmap string string) clipDims :
  dom (resolved dims clipDims) = dom dims.
Proof.
  destruct clipDims as [u|]; [|done]. apply set_eq. intros k.
  rewrite !elem_of_dom. unfold resolved. rewrite map_lookup_imap.
  destruct (dims !! k); cbn; split; intros [? ?]; done.
Qed.

(** X14: the clip step never raises and keeps the names: after it, [dims]
    has exactly the names of the declared dimensions as keys, each with the
    caller's text when [clipDims] names it and with the full range
    [0:len] otherwise. *)
Theorem clip_keeps_dimensions (ds : list (string * nat)) clipDims :
  exists dims : gmap string string,
    clip (full_ranges ds) clipDims = Ok dims /\
    dom dims = list_to_set ds.*1 /\
    (NoDup ds.*1 ->
     forall d n,
       (d, n) ∈ ds ->
       dims !! d
       = Some (default ("0:" +:+ str_nat n) (clipDims ≫= (fun u => u !! d)))).
Proof.
  exists (resolved (full_ranges ds) clipDims). split; [apply clip_resolved|].
  split.
  - rewrite resolved_dom, full_ranges_extents, dom_fmap_L. unfold extents.
    rewrite extents_acc_dom. set_solver.
  - intros Hnd d n Hin. rewrite resolved_lookup, extents_list_to_map by done.
    by rewrite (elem_of_list_to_map_1 _ _ _ Hnd Hin).
Qed.

(** ** The expression and its value *)

(** X15: for texts that each read as an element, building the text of the
    expression and evaluating it is indexing the variable with those
    elements, in the same order: [str], [replace] and [format] give
    [rootgrp.variables['KEY'][T1, T2, ...]], and [eval] of it is what
    [rootgrp.variables[KEY]] returns under the elements [e1, e2, ...]. *)
Theorem eval_getData_is_indexing {A} (rootgrp : Dataset A) (key : string)
    (toExtract : list string) (elems : list subscript) :
  name_ok key = true -> toExtract <> [] ->
  Forall2 (fun t e => read_elem t = Some e) toExtract elems ->
  format_getData key (index_text toExtract)
  = "rootgrp.variables['" +:+ key +:+ "'][" +:+ String.concat ", " toExtract
    +:+ "]" /\
  eval_getData rootgrp (format_getData key (index_text toExtract))
  = (var ← od_lookup key (variables rootgrp); nc_getitem rootgrp var elems).
Proof.
  intros Hname Hne He.
  assert (Forall (fun s => plain s = true) toExtract) as Hplain.
  { apply Forall_forall. intros t Hin%list_elem_of_lookup.
    destruct Hin as [i Hi].
    destruct (Forall2_lookup_l _ _ _ _ _ He Hi) as (e & _ & Hr).
    by eapply read_elem_plain. }
  split.
  - unfold format_getData. rewrite index_text_plain by done. by norm_app.
  - rewrite eval_getData_format, index_text_plain, Hname by done.
    rewrite (parse_subscripts_texts toExtract elems He).
    by rewrite bool_decide_eq_true_2.
Qed.

Lemma eval_getData_is_indexing_witness :
  format_getData "zeta" (index_text ["::-100"; "[3, 7, -1]"])
  = "rootgrp.variables['zeta'][::-100, [3, 7, -1]]" /\
  eval_getData coast_file
    (format_getData "zeta" (index_text ["::-100"; "[3, 7, -1]"]))
  = nc_getitem coast_file zeta
      [SSlice None None (Some (-100)%Z); SList [3; 7; -1]%Z].
Proof.
  apply (eval_getData_is_indexing coast_file "zeta" ["::-100"; "[3, 7, -1]"]
           [SSlice None None (Some (-100)%Z); SList [3; 7; -1]%Z]).
  - reflexivity.
  - discriminate.
  - repeat constructor.
Defined.

(** ** A variable read without a clip specification *)






(** ** Requesting fewer variables *)

(** X17: each variable is extracted on its own: when a call returns for a
    list of names, it returns for every list of fewer names, with the same
    array under each name that is still requested and nothing under the
    others.  The texts of the clip specification read as elements and the
    requested names of the file hold no quote, so that no evaluated text
    looks at the request or at the arrays stored before. *)
Theorem readFVCOM_fewer_names {A} (env : netcdf_env A) file varList varList'
    clipDims noisy out m' :
  readable clipDims ->
  (forall rootgrp, disk env !! file = Some rootgrp -> names_ok rootgrp varList') ->
  (forall key, key ∈ varList -> key ∈ varList') ->
  (readFVCOM env file varList' clipDims noisy out).2 = Ok m' ->
  exists m,
    (readFVCOM env file varList clipDims noisy out).2 = Ok m /\
    forall key,
      m !! key = if bool_decide (key ∈ varList) then m' !! key else None.
Proof.
  intros _ _ Hsub H'. rewrite readFVCOM_value in H' |- *.
  apply read_value_inv in H' as (rootgrp & Henv & Hfile & H').
  rewrite (read_value_collect env file rootgrp) by done.
  destruct (collect_returns rootgrp
              (resolved (full_ranges (dimensions rootgrp)) clipDims) varList
              (variables rootgrp) ∅) as [m Hm].
  { intros key Hk Hreq.
    by apply (collect_requested _ _ _ _ _ _ _ H' Hk), Hsub. }
  exists m. split; [done|]. intros key.
  pose proof (collect_spec _ _ _ _ _ _ Hm key) as Hs.
  pose proof (collect_spec _ _ _ _ _ _ H' key) as Hs'.
  destruct (bool_decide_reflect (key ∈ varList)) as [Hreq|Hreq].
  - destruct (decide (key ∈ (variables rootgrp).*1)) as [Hk|Hk].
    + rewrite decide_True in Hs by auto.
      rewrite decide_True in Hs' by auto.
      destruct Hs as (d & te & Hex & ->). destruct Hs' as (d' & te' & Hex' & ->).
      congruence.
    + rewrite decide_False in Hs by tauto.
      rewrite decide_False in Hs' by tauto. by rewrite Hs, Hs'.
  - rewrite decide_False in Hs by tauto. by rewrite Hs.
Qed.

Lemma readFVCOM_fewer_names_witness :
  exists m,
    (readFVCOM coast_env "coast.nc" ["zeta"] None false blank).2 = Ok m /\
    m !! "h" = None.
Proof.
  destruct (readFVCOM_served coast_env "coast.nc" coast_file ["h"; "zeta"]
              None false blank eq_refl eq_refl) as [m' Hm'].
  { intros key var Hvar Hreq. apply list_elem_of_In in Hreq.
    destruct Hreq as [<-|[<-|[]]];
      inversion Hvar; subst var; (split; [reflexivity|]);
      (split; [discriminate|]);
      repeat (apply Forall_cons; split;
              [eexists; apply takes_unnamed;
               [exact NoDup_coast|reflexivity|reflexivity]|]);
      apply Forall_nil_2. }
  destruct (readFVCOM_fewer_names coast_env "coast.nc" ["zeta"] ["h"; "zeta"]
              None false blank m') as (m & Hm & Hkeys).
  - by intros u k t.
  - apply coast_opened_names.
  - intros key ->%list_elem_of_singleton.
    apply list_elem_of_In. right. left. reflexivity.
  - exact Hm'.
  - exists m. split; [exact Hm|]. by rewrite (Hkeys "h").
Defined.

(** ** When a call returns *)

Lemma mapM_axis_index_fits (n : nat) (l : list Z) :
  (exists l', mapM (axis_index n) l = Ok l') <->
  Forall (fun i => (- Z.of_nat n <= i < Z.of_nat n)%Z) l.
Proof.
  split.
  - intros [l' H%mapM_result_length].
    induction H as [|i c l l' Hi _ IH]; constructor; [|done].
    by eapply axis_index_Ok.
  - intros H.
    assert (exists l', Forall2 (fun i c => axis_index n i = Ok c) l l')
      as [l' Hl'].
    { induction H as [|i l Hi _ [l' IH]]; [by exists []|].
      destruct (axis_index_servable n i Hi) as [c Hc].
      exists (c :: l'). by constructor. }
    exists l'. by apply mapM_result_Ok.
Qed.

(** An element selects along an axis exactly when it fits the axis. *)
Lemma resolve_fits (n : nat) (e : subscript) :
  (exists sel, resolve n e = Ok sel) <-> fits n e.
Proof.
  destruct e as [i|start stop step|l]; cbn [resolve fits].
  - split.
    + intros [sel H]. destruct (axis_index n i) as [c|] eqn:Ec; [|done].
      by eapply axis_index_Ok.
    + intros H. destruct (axis_index_servable n i H) as [c ->]. by eexists.
  - split.
    + intros [sel H] ->. unfold slice_indices in H. cbn in H.
      by rewrite bool_decide_eq_true_2 in H.
    + intros H. destruct (slice_indices_Ok n start stop step H) as [l ->].
      by eexists.
  - rewrite <- mapM_axis_index_fits. split.
    + intros [sel H]. destruct (mapM (axis_index n) l) as [l'|]; [|done].
      by eexists.
    + intros [l' ->]. by eexists.
Qed.

(** X18: exactly when a call returns.  With the library there, the file
    open, every text of the clip specification reading as an element and
    the requested names of the file readable, [readFVCOM] returns a mapping
    if and only if every requested variable of the file has at least one
    dimension and the resolved text of each of its dimensions fits the
    declared extent [n]: the integers it names, alone or in a list, lie in
    [-n, n), and a slice has a step other than zero. *)
Theorem readFVCOM_returns_iff {A} (env : netcdf_env A) file rootgrp varList
    clipDims noisy out :
  netCDF4_installed env = true -> disk env !! file = Some rootgrp ->
  readable clipDims ->
  (forall key,
     key ∈ varList -> key ∈ (variables rootgrp).*1 -> name_ok key = true) ->
  (exists m, (readFVCOM env file varList clipDims noisy out).2 = Ok m) <->
  (forall key var,
     key ∈ varList -> od_lookup key (variables rootgrp) = Ok var ->
     var_dimensions var <> [] /\
     Forall (fun d =>
               exists n t e,
                 od_lookup d (dimensions rootgrp) = Ok n /\
                 resolved (full_ranges (dimensions rootgrp)) clipDims !! d
                 = Some t /\
                 read_elem t = Some e /\ fits n e)
            (var_dimensions var)).
Proof.
  intros Henv Hfile Hclip Hnames. split.
  - intros [m Hm] key var Hreq Hvar.
    destruct (readFVCOM_has _ _ _ _ _ _ _ _ _ Hfile Hm Hreq) as [data Hkey].
    { by eapply od_lookup_Ok_key. }
    destruct (readFVCOM_entry _ _ _ _ _ _ _ _ _ _ Hfile Hm Hkey)
      as (_ & te & Hex).
    split.
    + intros Hd. by rewrite (extract_dimensionless _ _ _ _ Hvar Hd) in Hex.
    + destruct (extract_taken _ _ _ _ _
                  (fun d t => resolved_readable _ _ d t Hclip) Hex)
        as (var' & sels & Hvar' & Hsels & _).
      rewrite Hvar in Hvar'. inversion Hvar'; subst var'.
      apply Forall_forall. intros d Hd%list_elem_of_lookup.
      destruct Hd as [a Ha].
      destruct (Forall2_lookup_l _ _ _ _ _ Hsels Ha)
        as (sel & _ & n & t & e & Hn & Ht & He & Hr).
      exists n, t, e. repeat split; try done. apply resolve_fits. eauto.
  - intros Hfits. apply (readFVCOM_returns_taken env file rootgrp); [done..|].
    intros key var Hvar Hreq. destruct (Hfits key var Hreq Hvar) as [Hne Hall].
    split; [apply Hnames; [done|by eapply od_lookup_Ok_key]|]. split; [done|].
    eapply Forall_impl; [exact Hall|].
    intros d (n & t & e & Hn & Ht & He & Hf).
    apply resolve_fits in Hf as [sel Hsel]. by exists sel, n, t, e.
Qed.

Lemma time_last_node_list :
  readable
    (Some ({[ "time" := "-1"; "node" := "[3, 7, -1]" ]} : gmap string string)).
Proof.
  intros u k t [= <-] Hk. apply lookup_insert_Some in Hk as [[<- <-]|[_ Hk]].
  - by eexists.
  - apply lookup_singleton_Some in Hk as [<- <-]. by eexists.
Qed.

Lemma zeta_name_ok (key : string) :
  key ∈ ["zeta"] -> key ∈ (variables tide_file).*1 -> name_ok key = true.
Proof. by intros ->%list_elem_of_singleton _. Qed.

Lemma readFVCOM_returns_iff_witness :
  exists m,
    (readFVCOM tide_env "tide.nc" ["zeta"]
       (Some {[ "time" := "-1"; "node" := "[3, 7, -1]" ]}) false blank).2
    = Ok m.
Proof.
  apply (proj2 (readFVCOM_returns_iff tide_env "tide.nc" tide_file ["zeta"]
                  (Some {[ "time" := "-1"; "node" := "[3, 7, -1]" ]})
                  false blank eq_refl eq_refl time_last_node_list
                  zeta_name_ok)).
  intros key var ->%list_elem_of_singleton Hvar. inversion Hvar; subst var.
  split; [discriminate|].
  apply Forall_cons. split.
  { exists 500, "-1", (SInt (-1)). repeat split; cbn; lia. }
  apply Forall_cons. split; [|apply Forall_nil_2].
  exists 1000, "[3, 7, -1]", (SList [3; 7; -1]%Z).
  split; [reflexivity|]. split; [reflexivity|]. split; [reflexivity|].
  repeat constructor; lia.
Defined.
